(** * Ride lifecycle and booking engine of the campus ride-sharing service

    A shallow embedding of the Express/Prisma ride routes
    ([router.post("/")], ["/join"], ["/start"], ["/complete"], ["/cancel"])
    and of the client form that prepares the ride-creation payload
    ([CreateRideScreen.handleSubmit]).

    Conventions of the embedding:
    - a JS [Date] is its epoch value in milliseconds, a [Z]; local-time
      accessors take the offset [tz] of the server's time zone (local =
      UTC + tz, a fixed offset);
    - a JS [number] and a Prisma [Decimal] are exact rationals ([Q]); the
      division and the multiplication by 0.25 of the source are the exact
      ones;
    - the database is a record of tables; each handler is a function from
      the store to a new store and a reply, one request at a time;
    - [prisma.$transaction] is a computation in the [Tx] monad: any failing
      write rolls the whole block back;
    - tables keep the columns the routes read or write; [update] and
      [delete] of a missing row throw, as the Prisma client does; the
      identifiers the database generates are inputs of the handler that
      creates the row. *)

From Stdlib Require Import ZArith QArith Qround Qcanon Ascii String List Lia.
From stdpp Require Import gmap strings list fin_maps sorting.

Local Open Scope string_scope.
Local Open Scope list_scope.
Local Open Scope Z_scope.

(** ** JS runtime: dates *)

Module JsDate.

Definition msPerSecond : Z := 1000.
Definition msPerMinute : Z := 60000.
Definition msPerHour : Z := 3600000.
Definition msPerDay : Z := 86400000.

Section Local.
(** Offset of the local time zone in milliseconds. *)
Variable tz : Z.

Definition localTime (t : Z) : Z := t + tz.

(** The calendar date ([getFullYear], [getMonth], [getDate]) read as the
    number of the local day since the epoch. *)
Definition calendarDay (t : Z) : Z := localTime t / msPerDay.
Definition getHours (t : Z) : Z := (localTime t mod msPerDay) / msPerHour.
Definition getMinutes (t : Z) : Z := (localTime t mod msPerHour) / msPerMinute.
Definition getSeconds (t : Z) : Z := (localTime t mod msPerMinute) / msPerSecond.
Definition getMilliseconds (t : Z) : Z := localTime t mod msPerSecond.

(** [new Date(year, month, date, h, m, s, ms)] in local time, the
    calendar date given as its day number (years from 100 on, which the
    constructor takes as they are). *)
Definition make (day h m s ms : Z) : Z :=
  day * msPerDay + h * msPerHour + m * msPerMinute + s * msPerSecond + ms - tz.

(** [d.setHours(h, m)]: hours and minutes replaced, date, seconds and
    milliseconds kept. *)
Definition setHours (d h m : Z) : Z :=
  make (calendarDay d) h m (getSeconds d) (getMilliseconds d).
End Local.

End JsDate.

(** ** Data model (Prisma schema, as used by the routes) *)

(** Modelled from the spec: the Prisma enum [RideStatus] is declared in the
    schema, which is not part of the sources; the spec lists its values. *)
Inductive RideStatus := open | active | completed | cancelled.

Global Instance RideStatus_eq_dec : EqDecision RideStatus.
Proof. solve_decision. Defined.

(** The string a status is written as in the routes' literals. *)
Definition status_name (st : RideStatus) : string :=
  match st with
  | open => "open"
  | active => "active"
  | completed => "completed"
  | cancelled => "cancelled"
  end.

(** A Prisma filter [status: { in: [...] }] over string literals. *)
Definition status_in (st : RideStatus) (lits : list string) : bool :=
  existsb (String.eqb (status_name st)) lits.

(** Participation status; a created participation is [booked] (schema
    default, as the spec's join result says). *)
Inductive ParticipantStatus := booked | p_cancelled.

Global Instance ParticipantStatus_eq_dec : EqDecision ParticipantStatus.
Proof. solve_decision. Defined.

Inductive VehicleType := car | suv | auto.

Global Instance VehicleType_eq_dec : EqDecision VehicleType.
Proof. solve_decision. Defined.

Definition vehicle_type_of_string (s : string) : option VehicleType :=
  if String.eqb s "car" then Some car
  else if String.eqb s "suv" then Some suv
  else if String.eqb s "auto" then Some auto
  else None.

Record User := mkUser {
  credibility_score : Q;
  cancellation_count : Z
}.

Record Vehicle := mkVehicle {
  vehicle_id : string;
  vehicle_type : VehicleType
}.

Record Ride := mkRide {
  driver_id : string;
  ride_vehicle_id : string;
  start_location : string;
  end_location : string;
  start_date : Z;
  start_time : Z;
  total_fare : Q;
  max_passengers : Z;
  status : RideStatus
}.

(** A participation row. The table is unique on (ride_id, user_id), which
    is the key of the table below; the surrogate [id] of a row, by which the
    routes address a row they have just read, designates the row of that
    key. *)
Record RideParticipant := mkParticipant {
  rp_status : ParticipantStatus;
  share_fare : Q;
  booking_time : Z
}.

Record RideCancellation := mkCancellation {
  rc_ride_id : string;
  rc_user_id : string;
  cancelled_at : Z
}.

Record Store := mkStore {
  users : gmap string User;
  vehicles : gmap string Vehicle;
  rides : gmap string Ride;
  participants : gmap (string * string) RideParticipant;
  cancellations : list RideCancellation
}.

Definition empty_store : Store :=
  mkStore ∅ ∅ ∅ ∅ [].

Definition set_users (f : gmap string User → gmap string User) (s : Store) : Store :=
  mkStore (f (users s)) (vehicles s) (rides s) (participants s) (cancellations s).
Definition set_vehicles (f : gmap string Vehicle → gmap string Vehicle) (s : Store) : Store :=
  mkStore (users s) (f (vehicles s)) (rides s) (participants s) (cancellations s).
Definition set_rides (f : gmap string Ride → gmap string Ride) (s : Store) : Store :=
  mkStore (users s) (vehicles s) (f (rides s)) (participants s) (cancellations s).
Definition set_participants
    (f : gmap (string * string) RideParticipant → gmap (string * string) RideParticipant)
    (s : Store) : Store :=
  mkStore (users s) (vehicles s) (rides s) (f (participants s)) (cancellations s).
Definition set_cancellations (f : list RideCancellation → list RideCancellation)
    (s : Store) : Store :=
  mkStore (users s) (vehicles s) (rides s) (participants s) (f (cancellations s)).

Definition with_status (st : RideStatus) (r : Ride) : Ride :=
  mkRide (driver_id r) (ride_vehicle_id r) (start_location r) (end_location r)
         (start_date r) (start_time r) (total_fare r) (max_passengers r) st.

Definition with_driver_status (d : string) (st : RideStatus) (r : Ride) : Ride :=
  mkRide d (ride_vehicle_id r) (start_location r) (end_location r)
         (start_date r) (start_time r) (total_fare r) (max_passengers r) st.

(** ** Replies *)

Inductive Error :=
  | ValidationError
  | RideNotFound
  | RideNotOpen
  | CannotBookOwnRide
  | AlreadyInActiveRide
  | RideFull
  | AlreadyBooked
  | NotRideOwner
  | InvalidState
  | TooEarly
  | InternalError.

Global Instance Error_eq_dec : EqDecision Error.
Proof. solve_decision. Defined.

(** The [error] field of the JSON body and the HTTP status the route sends
    for each kind; [ValidationError] (a thrown [ZodError]) and
    [InternalError] (any other exception) are handed to [next(err)] and have
    none here. *)
Definition error_body (e : Error) : option string :=
  match e with
  | ValidationError | InternalError => None
  | RideNotFound => Some "RideNotFound"
  | RideNotOpen => Some "RideNotOpen"
  | CannotBookOwnRide => Some "Cannot book your own ride"
  | AlreadyInActiveRide => Some "You already have an active booking for another ride"
  | RideFull => Some "RideFull"
  | AlreadyBooked => Some "AlreadyBooked"
  | NotRideOwner => Some "NotRideOwner"
  | InvalidState => Some "InvalidState"
  | TooEarly => Some "Can't start before start time"
  end.

Definition http_status (e : Error) : option Z :=
  match e with
  | ValidationError | InternalError => None
  | RideNotFound => Some 404
  | NotRideOwner => Some 403
  | _ => Some 400
  end.

Inductive Result (A : Type) :=
  | Ok (a : A)
  | Err (e : Error).
Arguments Ok {A} a.
Arguments Err {A} e.

(** ** Transactions *)

Definition Tx (A : Type) : Type := Store → option (Store * A).

Global Instance tx_ret : MRet Tx := λ A a s, Some (s, a).
Global Instance tx_bind : MBind Tx := λ A B k m s,
  match m s with
  | Some (s', a) => k a s'
  | None => None
  end.
Definition tx_fail {A} : Tx A := λ _, None.
Definition tx_get {A} (f : Store → A) : Tx A := λ s, Some (s, f s).
Definition tx_modify (f : Store → Store) : Tx unit := λ s, Some (f s, tt).

(** [prisma.$transaction(body)]: commit on success; on an exception the
    store is left as it was and the exception reaches [next(err)]. *)
Definition transaction {A} (body : Tx A) (s : Store) : Store * Result A :=
  match body s with
  | Some (s', a) => (s', Ok a)
  | None => (s, Err InternalError)
  end.

(** ** JS runtime: numbers *)

Definition Qltb (x y : Q) : bool := negb (Qle_bool y x).

(** [Math.round]: the nearest integer, halves rounded up. *)
Definition Math_round (x : Q) : Z := Qfloor (x + (1 # 2)).

(** ** Request bodies and zod schemas *)

Inductive Json :=
  | JNull
  | JBool (b : bool)
  | JNum (q : Q)
  | JStr (s : string).

Definition z_string (j : option Json) : option string :=
  match j with
  | Some (JStr s) => Some s
  | _ => None
  end.

(** [z.string().min(1)] *)
Definition z_string_min1 (j : option Json) : option string :=
  match z_string j with
  | Some s => if (1 <=? Z.of_nat (String.length s)) then Some s else None
  | None => None
  end.

(** [z.number().positive()] *)
Definition z_number_positive (j : option Json) : option Q :=
  match j with
  | Some (JNum q) => if Qltb 0 q then Some q else None
  | _ => None
  end.

(** [z.enum(['car', 'suv', 'auto'])] *)
Definition z_enum_vehicle (j : option Json) : option VehicleType :=
  match z_string j with
  | Some s => vehicle_type_of_string s
  | None => None
  end.

(** [z.number().int().min(lo).max(hi)] *)
Definition z_number_int_min_max (lo hi : Z) (j : option Json) : option Z :=
  match j with
  | Some (JNum q) =>
      if Pos.eqb (Qden (Qred q)) 1 then
        let n := Qnum (Qred q) in
        if (lo <=? n) && (n <=? hi) then Some n else None
      else None
  | _ => None
  end.

Record RideCreate := mkRideCreate {
  rc_start_location : string;
  rc_end_location : string;
  rc_start_date : string;
  rc_start_time : string;
  rc_total_fare : Q;
  rc_vehicle_type : VehicleType;
  rc_max_passengers : Z
}.

(** [rideCreateSchema.parse(req.body)]; [None] is the thrown [ZodError]. *)
Definition rideCreateSchema (body : gmap string Json) : option RideCreate :=
  sl ← z_string_min1 (body !! "start_location");
  el ← z_string_min1 (body !! "end_location");
  sd ← z_string (body !! "start_date");
  st ← z_string (body !! "start_time");
  tf ← z_number_positive (body !! "total_fare");
  vt ← z_enum_vehicle (body !! "vehicle_type");
  mp ← z_number_int_min_max 1 6 (body !! "max_passengers");
  Some (mkRideCreate sl el sd st tf vt mp).

(** ** Client form (CreateRideScreen.handleSubmit) *)

Definition maxAllowed (vt : VehicleType) : Z :=
  if decide (vt = suv) then 6 else if decide (vt = car) then 4 else 3.

(** The [max_passengers] the form puts in the payload. *)
Definition payload_max_passengers (formMaxPassengers : Z) (vt : VehicleType) : Z :=
  Z.min formMaxPassengers (maxAllowed vt).

(** ** Table operations (Prisma client calls) *)

Abbreviation PKey := (string * string)%type.

(** [update] and [delete] throw when the row is missing. *)
Definition user_update (uid : string) (f : User → User) : Tx unit :=
  λ s, match users s !! uid with
       | Some u => Some (set_users (insert uid (f u)) s, tt)
       | None => None
       end.

Definition ride_update (rid : string) (f : Ride → Ride) : Tx unit :=
  λ s, match rides s !! rid with
       | Some r => Some (set_rides (insert rid (f r)) s, tt)
       | None => None
       end.

Definition participant_update (k : PKey) (f : RideParticipant → RideParticipant) : Tx unit :=
  λ s, match participants s !! k with
       | Some p => Some (set_participants (insert k (f p)) s, tt)
       | None => None
       end.

Definition participant_delete (k : PKey) : Tx unit :=
  λ s, match participants s !! k with
       | Some _ => Some (set_participants (delete k) s, tt)
       | None => None
       end.

Definition cancellation_create (c : RideCancellation) : Tx unit :=
  tx_modify (set_cancellations (λ l, l ++ [c])).

(** The participations of a ride ([include: { participants: true }]). *)
Definition participants_of (rid : string) (ps : gmap PKey RideParticipant)
    : gmap PKey RideParticipant :=
  filter (λ kp : PKey * RideParticipant, kp.1.1 = rid) ps.

(** [participants.filter(p => p.status === "booked")] *)
Definition booked_only (ps : gmap PKey RideParticipant) : gmap PKey RideParticipant :=
  filter (λ kp : PKey * RideParticipant, rp_status kp.2 = booked) ps.

(** [rideParticipant.count({ where: { ride_id, status: "booked" } })] *)
Definition participant_count_booked (rid : string) : Tx nat :=
  tx_get (λ s, size (booked_only (participants_of rid (participants s)))).

(** [orderBy: { booking_time: "asc" }], a stable insertion sort. *)
Fixpoint insert_by_time (x : PKey * RideParticipant) (l : list (PKey * RideParticipant))
    : list (PKey * RideParticipant) :=
  match l with
  | [] => [x]
  | y :: l' =>
      if booking_time x.2 <? booking_time y.2 then x :: l
      else y :: insert_by_time x l'
  end.

Definition order_by_booking_time (l : list (PKey * RideParticipant))
    : list (PKey * RideParticipant) :=
  foldr insert_by_time [] l.

(** [include: { participants: { where: { status: "booked" },
                                orderBy: { booking_time: "asc" } } }] *)
Definition booked_participants_asc (rid : string) (s : Store)
    : list (PKey * RideParticipant) :=
  order_by_booking_time (map_to_list (booked_only (participants_of rid (participants s)))).

(** The [where] clause of the active-booking query of [/join]. *)
Definition active_booking_where (now : Z) (uid : string) (s : Store)
    (kp : PKey * RideParticipant) : bool :=
  bool_decide (kp.1.2 = uid) && bool_decide (rp_status kp.2 = booked) &&
  match rides s !! kp.1.1 with
  | Some ride => status_in (status ride) ["open"; "booked"] && (now <=? start_date ride)
  | None => false
  end.

(** [rideParticipant.findFirst({ where: ... })] *)
Definition find_active_booking (now : Z) (uid : string) (s : Store)
    : option (PKey * RideParticipant) :=
  head (map_to_list
          (filter (λ kp, active_booking_where now uid s kp = true) (participants s))).

(** ** Route handlers *)

Inductive CancelReply :=
  | ParticipantCancelled (penalty : Z)
  | DriverCancelled (transferred : bool).

Section Handlers.
(** The server's time-zone offset and the JS [Date] string parser
    ([None] for an [Invalid Date], which Prisma refuses). *)
Variable tz : Z.
Variable parseDate : string → option Z.

(** [router.post("/")]: the identifiers the database generates for a new
    vehicle and a new ride are inputs; the vehicle is written before the
    ride and outside any transaction; a new ride has the status the schema
    gives it, open. *)
Definition createRide (uid : string) (body : gmap string Json)
    (new_vehicle_id new_ride_id : string) (s : Store)
    : Store * Result (string * Ride) :=
  match rideCreateSchema body with
  | None => (s, Err ValidationError)
  | Some data =>
      let vehicle :=
        match vehicles s !! uid with
        | Some v => mkVehicle (vehicle_id v) (rc_vehicle_type data)
        | None => mkVehicle new_vehicle_id (rc_vehicle_type data)
        end in
      let s1 := set_vehicles (insert uid vehicle) s in
      match parseDate (rc_start_date data), parseDate (rc_start_time data) with
      | Some d, Some t =>
          match rides s1 !! new_ride_id with
          | Some _ => (s1, Err InternalError)
          | None =>
              let ride :=
                mkRide uid (vehicle_id vehicle)
                       (rc_start_location data) (rc_end_location data)
                       d t (rc_total_fare data) (rc_max_passengers data) open in
              (set_rides (insert new_ride_id ride) s1, Ok (new_ride_id, ride))
          end
      | _, _ => (s1, Err InternalError)
      end
  end.

(** [router.post("/join")]; a created participation gets [booking_time]
    from the database clock, a reused one keeps its own. *)
Definition joinRide (now : Z) (uid rid : string) (s : Store)
    : Store * Result RideParticipant :=
  match rides s !! rid with
  | None => (s, Err RideNotFound)
  | Some ride =>
      if negb (bool_decide (status ride = open)) then (s, Err RideNotOpen)
      else if bool_decide (driver_id ride = uid) then (s, Err CannotBookOwnRide)
      else
        match find_active_booking now uid s with
        | Some _ => (s, Err AlreadyInActiveRide)
        | None =>
            let bookedCount :=
              Z.of_nat (size (booked_only (participants_of rid (participants s)))) in
            let currentHeadcount := bookedCount + 1 in
            if max_passengers ride <=? currentHeadcount then (s, Err RideFull)
            else
              let newHeadcount := currentHeadcount + 1 in
              let share := (total_fare ride / inject_Z newHeadcount)%Q in
              match participants s !! (rid, uid) with
              | Some existing =>
                  if bool_decide (rp_status existing = booked)
                  then (s, Err AlreadyBooked)
                  else
                    let p := mkParticipant booked share (booking_time existing) in
                    (set_participants (insert (rid, uid) p) s, Ok p)
              | None =>
                  let p := mkParticipant booked share now in
                  (set_participants (insert (rid, uid) p) s, Ok p)
              end
        end
  end.

(** The scheduled start [/start] compares with: the calendar date of
    [start_date] and the time of day of [start_time]. *)
Definition rideStartDateTime (ride : Ride) : Z :=
  JsDate.make tz
    (JsDate.calendarDay tz (start_date ride))
    (JsDate.getHours tz (start_time ride))
    (JsDate.getMinutes tz (start_time ride))
    (JsDate.getSeconds tz (start_time ride))
    (JsDate.getMilliseconds tz (start_time ride)).

(** [router.post("/start")] *)
Definition startRide (now : Z) (uid rid : string) (s : Store)
    : Store * Result Ride :=
  match rides s !! rid with
  | None => (s, Err RideNotFound)
  | Some ride =>
      if negb (bool_decide (driver_id ride = uid)) then (s, Err NotRideOwner)
      else if negb (bool_decide (status ride = open)) then (s, Err InvalidState)
      else if now <? rideStartDateTime ride then (s, Err TooEarly)
      else
        let updated := with_status active ride in
        (set_rides (insert rid updated) s, Ok updated)
  end.

(** [router.post("/complete")] *)
Definition completeRide (uid rid : string) (s : Store) : Store * Result Ride :=
  match rides s !! rid with
  | None => (s, Err RideNotFound)
  | Some ride =>
      if negb (bool_decide (driver_id ride = uid)) then (s, Err NotRideOwner)
      else if negb (bool_decide (status ride = active)) then (s, Err InvalidState)
      else
        let updated := with_status completed ride in
        (set_rides (insert rid updated) s, Ok updated)
  end.

(** The start instant [/cancel] measures from: [start_date] with its hours
    and minutes set to those of [start_time]. *)
Definition startDateTime (ride : Ride) : Z :=
  JsDate.setHours tz (start_date ride)
    (JsDate.getHours tz (start_time ride))
    (JsDate.getMinutes tz (start_time ride)).

Definition diffHours (now : Z) (ride : Ride) : Q :=
  let diffMs := startDateTime ride - now in
  (inject_Z diffMs / inject_Z (1000 * 60 * 60))%Q.

Definition penalise (amount : Q) (u : User) : User :=
  mkUser (credibility_score u - amount)%Q (cancellation_count u + 1).

(** Driver branch of [/cancel]. *)
Definition driver_penalty (now : Z) (ride : Ride) : Q :=
  if Qltb (diffHours now ride) 3 then 5%Q else 2%Q.

Definition driver_cancel_tx (now : Z) (uid rid : string) (ride : Ride)
    (firstBooked : option (PKey * RideParticipant)) : Tx unit :=
  cancellation_create (mkCancellation rid uid now);;
  user_update uid (penalise (driver_penalty now ride));;
  match firstBooked with
  | Some fb =>
      ride_update rid (with_driver_status fb.1.2 open);;
      participant_delete fb.1
  | None => ride_update rid (with_status cancelled)
  end.

(** Participant branch of [/cancel]. *)
Definition participant_penalty (now : Z) (ride : Ride) (rp : RideParticipant) : Z :=
  if Qltb (diffHours now ride) 3
  then Z.max 0 (Math_round (share_fare rp * (1 # 4))%Q)
  else 0.

Definition credibility_decrement (penalty : Z) : Q :=
  if 0 <? penalty then 5%Q else 2%Q.

Definition mark_cancelled (p : RideParticipant) : RideParticipant :=
  mkParticipant p_cancelled (share_fare p) (booking_time p).

Definition participant_cancel_tx (now : Z) (uid rid : string) (penalty : Z) : Tx unit :=
  participant_update (rid, uid) mark_cancelled;;
  cancellation_create (mkCancellation rid uid now);;
  remaining ← participant_count_booked rid;
  (if Nat.eqb remaining 0 then ride_update rid (with_status open) else mret tt);;
  user_update uid (penalise (credibility_decrement penalty)).

(** [router.post("/cancel")] *)
Definition cancelRide (now : Z) (uid rid : string) (s : Store)
    : Store * Result CancelReply :=
  match participants s !! (rid, uid) with
  | None =>
      match rides s !! rid with
      | None => (s, Err RideNotFound)
      | Some ride =>
          if negb (bool_decide (driver_id ride = uid)) then (s, Err NotRideOwner)
          else
            let firstBooked := head (booked_participants_asc rid s) in
            match transaction (driver_cancel_tx now uid rid ride firstBooked) s with
            | (s', Ok _) =>
                (s', Ok (DriverCancelled (bool_decide (is_Some firstBooked))))
            | (s', Err e) => (s', Err e)
            end
      end
  | Some rp =>
      match rides s !! rid with
      | None => (s, Err InternalError)
      | Some ride =>
          let penalty := participant_penalty now ride rp in
          match transaction (participant_cancel_tx now uid rid penalty) s with
          | (s', Ok _) => (s', Ok (ParticipantCancelled penalty))
          | (s', Err e) => (s', Err e)
          end
      end
  end.

End Handlers.

(** ** Requests and reachable stores *)

(** Number of booked participations of a ride. *)
Definition booked_count (rid : string) (s : Store) : nat :=
  size (booked_only (participants_of rid (participants s))).

Inductive Request :=
  | ReqCreate (uid : string) (body : gmap string Json) (new_vehicle_id new_ride_id : string)
  | ReqJoin (uid rid : string)
  | ReqStart (uid rid : string)
  | ReqComplete (uid rid : string)
  | ReqCancel (uid rid : string).

(** The store after a request served at instant [now]. *)
Definition handle (tz : Z) (parseDate : string → option Z) (now : Z)
    (req : Request) (s : Store) : Store :=
  match req with
  | ReqCreate uid body vid rid => fst (createRide parseDate uid body vid rid s)
  | ReqJoin uid rid => fst (joinRide now uid rid s)
  | ReqStart uid rid => fst (startRide tz now uid rid s)
  | ReqComplete uid rid => fst (completeRide uid rid s)
  | ReqCancel uid rid => fst (cancelRide tz now uid rid s)
  end.

(** Stores the service can be in: it starts empty, the identity subsystem
    owns the [users] table, and every other change is a ride request. *)
Inductive reachable (tz : Z) (parseDate : string → option Z) : Store → Prop :=
  | reach_empty : reachable tz parseDate empty_store
  | reach_identity s us :
      reachable tz parseDate s →
      reachable tz parseDate (set_users (λ _, us) s)
  | reach_request s now req :
      reachable tz parseDate s →
      reachable tz parseDate (handle tz parseDate now req s).

(** [/cancel] called once at each instant of [nows], in order. *)
Definition cancel_repeatedly (tz : Z) (uid rid : string) (nows : list Z) (s : Store)
    : Store * list (Result CancelReply) :=
  foldl (λ acc now,
           let r := cancelRide tz now uid rid acc.1 in
           (r.1, acc.2 ++ [r.2]))
        (s, []) nows.

(** A request body for [router.post("/")] with all seven fields. *)
Definition create_body (sl el sd st : string) (fare : Q) (vt : string) (mp : Q)
    : gmap string Json :=
  <["start_location" := JStr sl]>
  (<["end_location" := JStr el]>
  (<["start_date" := JStr sd]>
  (<["start_time" := JStr st]>
  (<["total_fare" := JNum fare]>
  (<["vehicle_type" := JStr vt]>
  (<["max_passengers" := JNum mp]> ∅)))))).

(** ** Predicates used in the statements *)

(** A row of the participation table that is a booked participation of
    ride [rid]. *)
Definition booked_on (rid : string) (kp : PKey * RideParticipant) : Prop :=
  kp.1.1 = rid ∧ rp_status kp.2 = booked.

Global Instance booked_on_dec rid kp : Decision (booked_on rid kp).
Proof. unfold booked_on. apply _. Defined.

(** [x] was booked no later than every row of [l]. *)
Definition earliest (x : PKey * RideParticipant) (l : list (PKey * RideParticipant)) : Prop :=
  Forall (λ y, booking_time x.2 ≤ booking_time y.2) l.

(** Every participation refers to a ride of the store. *)
Definition participants_have_rides (s : Store) : Prop :=
  ∀ k p, participants s !! k = Some p → is_Some (rides s !! k.1).

(** Headcount (booked participants and the host) within [max_passengers],
    for every ride. *)
Definition capacity_ok (s : Store) : Prop :=
  ∀ rid ride, rides s !! rid = Some ride →
              Z.of_nat (booked_count rid s) + 1 ≤ max_passengers ride.

(** The store a participant's cancellation commits. *)
Definition participant_cancelled_store (now : Z) (uid rid : string) (pen : Z)
    (rp : RideParticipant) (ride : Ride) (u : User) (s : Store) : Store :=
  let ps' := <[(rid, uid) := mark_cancelled rp]> (participants s) in
  let rs' := if Nat.eqb (size (booked_only (participants_of rid ps'))) 0
             then <[rid := with_status open ride]> (rides s) else rides s in
  mkStore (<[uid := penalise (credibility_decrement pen) u]> (users s))
          (vehicles s) rs' ps'
          (cancellations s ++ [mkCancellation rid uid now]).

(** The store a driver's cancellation commits, by the first booked
    participation. *)
Definition driver_cancelled_store (tz now : Z) (uid rid : string)
    (firstBooked : option (PKey * RideParticipant)) (ride : Ride) (u : User)
    (s : Store) : Store :=
  mkStore (<[uid := penalise (driver_penalty tz now ride) u]> (users s))
          (vehicles s)
          (match firstBooked with
           | Some fb => <[rid := with_driver_status fb.1.2 open ride]> (rides s)
           | None => <[rid := with_status cancelled ride]> (rides s)
           end)
          (match firstBooked with
           | Some fb => delete fb.1 (participants s)
           | None => participants s
           end)
          (cancellations s ++ [mkCancellation rid uid now]).

(** ** Example data *)

Module Ex.

(** Midnight UTC of the ride's day, and instants of that day. *)
Definition day : Z := 20000 * JsDate.msPerDay.
Definition at_hour (h : Z) : Z := day + h * JsDate.msPerHour.

Definition parse (str : string) : option Z :=
  if String.eqb str "day" then Some day
  else if String.eqb str "day 18:00" then Some (at_hour 18)
  else if String.eqb str "day 01:00" then Some (at_hour 1)
  else if String.eqb str "day 23:00" then Some (at_hour 23)
  else if String.eqb str "next day" then Some (at_hour 24)
  else if String.eqb str "next day 18:00" then Some (at_hour 42)
  else None.

Definition user0 : User := mkUser 100 0.

Definition some_users : gmap string User :=
  <["alice" := user0]> (<["bob" := user0]> (<["carol" := user0]> ∅)).

Definition body (fare : Q) (vt : string) (mp : Q) : gmap string Json :=
  create_body "campus" "station" "day" "day 18:00" fare vt mp.

(** Users registered, nothing else. *)
Definition s_users : Store := set_users (λ _, some_users) empty_store.

(** Alice hosts ride "r1" (fare 300, 4 seats, 18:00 of [day]). *)
Definition s_r1 : Store :=
  handle 0 parse (at_hour (-30)) (ReqCreate "alice" (body 300 "car" 4) "v1" "r1") s_users.

(** Bob, then Carol, join "r1" the day before. *)
Definition s_r1_bob : Store :=
  handle 0 parse (at_hour (-20)) (ReqJoin "bob" "r1") s_r1.

(** Carol hosts a second ride "r2" on the same day. *)
Definition s_two_rides : Store :=
  handle 0 parse (at_hour (-15)) (ReqCreate "carol" (body 200 "suv" 6) "v2" "r2") s_r1_bob.

(** Alice hosts a cheap ride (fare 2) and Bob joins it: his share is 1. *)
Definition s_cheap : Store :=
  handle 0 parse (at_hour (-20)) (ReqJoin "bob" "r1")
    (handle 0 parse (at_hour (-30)) (ReqCreate "alice" (body 2 "car" 4) "v1" "r1") s_users).

(** Bob has cancelled his participation in "r1". *)
Definition s_bob_cancelled : Store :=
  handle 0 parse (at_hour 10) (ReqCancel "bob" "r1") s_r1_bob.

(** "r1" has been started and completed by Alice. *)
Definition s_completed : Store :=
  handle 0 parse (at_hour 20) (ReqComplete "alice" "r1")
    (handle 0 parse (at_hour 19) (ReqStart "alice" "r1") s_r1).

(** The rows these stores hold. *)
Definition ride1 : Ride :=
  mkRide "alice" "v1" "campus" "station" day (at_hour 18) 300 4 open.
Definition ride2 : Ride :=
  mkRide "carol" "v2" "campus" "station" day (at_hour 18) 200 6 open.
Definition bob_rp : RideParticipant := mkParticipant booked (300 # 2) (at_hour (-20)).

(** Alice hosts "r3", dated 23:00 of the day with a start time of 01:00;
    Bob joins it; Carol hosts "r4" for the next day; Alice starts "r3" at
    02:00 of the day. *)
Definition s_started : Store :=
  handle 0 parse (at_hour 2) (ReqStart "alice" "r3")
    (handle 0 parse (at_hour (-15))
       (ReqCreate "carol"
          (create_body "campus" "station" "next day" "next day 18:00" 200 "suv" 6) "v2" "r4")
       (handle 0 parse (at_hour (-20)) (ReqJoin "bob" "r3")
          (handle 0 parse (at_hour (-30))
             (ReqCreate "alice"
                (create_body "campus" "station" "day 23:00" "day 01:00" 300 "car" 4) "v1" "r3")
             s_users))).
Definition ride3 : Ride :=
  mkRide "alice" "v1" "campus" "station" (at_hour 23) (at_hour 1) 300 4 active.
Definition ride4 : Ride :=
  mkRide "carol" "v2" "campus" "station" (at_hour 24) (at_hour 42) 200 6 open.

End Ex.

(** ** Further predicates on stores *)

(** Number of cancellation log rows of a user. *)
Definition cancellations_of (uid : string) (l : list RideCancellation) : nat :=
  length (filter (λ c, rc_user_id c = uid) l).

(** The columns of a ride no route writes after its creation. *)
Definition same_ride_terms (r r' : Ride) : Prop :=
  ride_vehicle_id r' = ride_vehicle_id r ∧
  start_location r' = start_location r ∧ end_location r' = end_location r ∧
  start_date r' = start_date r ∧ start_time r' = start_time r ∧
  total_fare r' = total_fare r ∧ max_passengers r' = max_passengers r.

(** The driver of a ride has no participation row on it. *)
Definition driver_has_no_record (s : Store) : Prop :=
  ∀ rid ride, rides s !! rid = Some ride → participants s !! (rid, driver_id ride) = None.

(** Every ride carries the bounds of [rideCreateSchema]. *)
Definition rides_within_schema (s : Store) : Prop :=
  ∀ rid ride, rides s !! rid = Some ride →
              1 ≤ max_passengers ride ≤ 6 ∧ (0 < total_fare ride)%Q.

(** Every share is the ride's fare divided by a headcount the ride allows. *)
Definition shares_split_fare (s : Store) : Prop :=
  ∀ rid uid p, participants s !! (rid, uid) = Some p →
    ∃ ride n, rides s !! rid = Some ride ∧ 2 ≤ n ≤ max_passengers ride ∧
              share_fare p = (total_fare ride / inject_Z n)%Q.

(** The caller of a [/cancel] request. *)
Definition cancel_caller (req : Request) : option string :=
  match req with
  | ReqCancel uid _ => Some uid
  | _ => None
  end.

(** The four facts are kept together: each needs another one to get
    through some request. *)
Definition store_ok (s : Store) : Prop :=
  participants_have_rides s ∧ driver_has_no_record s ∧
  rides_within_schema s ∧ shares_split_fare s.

(** ** Read routes and the controller *)

(** [orderBy] on one or more columns, as a stable insertion sort by the
    strict order [lt]. *)
Fixpoint insert_sorted {A} (lt : A → A → bool) (x : A) (l : list A) : list A :=
  match l with
  | [] => [x]
  | y :: l' => if lt x y then x :: l else y :: insert_sorted lt x l'
  end.

Definition sort_by {A} (lt : A → A → bool) (l : list A) : list A :=
  foldr (insert_sorted lt) [] l.

(** The [vehicle] relation of a ride ([include: { vehicle: true }]). *)
Definition vehicle_of (vid : string) (s : Store) : option Vehicle :=
  snd <$> head (map_to_list
                  (filter (λ kv : string * Vehicle, vehicle_id kv.2 = vid) (vehicles s))).

(** A ride with its relations, as the read routes send it. *)
Record RideView := mkRideView {
  view_id : string;
  view_ride : Ride;
  view_vehicle : option Vehicle;
  view_participants : list (PKey * RideParticipant)
}.

(** [include: { participants: true }] *)
Definition all_participants (rid : string) (s : Store) : list (PKey * RideParticipant) :=
  map_to_list (participants_of rid (participants s)).

(** [include: { participants: { where: { status: "booked" } } }] *)
Definition booked_participants (rid : string) (s : Store) : list (PKey * RideParticipant) :=
  map_to_list (booked_only (participants_of rid (participants s))).

Inductive DetailsReply :=
  | DetailsIdRequired
  | DetailsNotFound
  | DetailsOk (v : RideView).

(** [router.get("/:id")] *)
Definition getRide (id : string) (s : Store) : DetailsReply :=
  if String.eqb id "" then DetailsIdRequired
  else
    match rides s !! id with
    | None => DetailsNotFound
    | Some ride =>
        DetailsOk (mkRideView id ride (vehicle_of (ride_vehicle_id ride) s)
                     (all_participants id s))
    end.

(** [RideController.createRide]: as the route, but the vehicle row is
    written only when its type changes. *)
Definition controller_createRide (parseDate : string → option Z)
    (uid : string) (body : gmap string Json)
    (new_vehicle_id new_ride_id : string) (s : Store)
    : Store * Result (string * Ride) :=
  match rideCreateSchema body with
  | None => (s, Err ValidationError)
  | Some data =>
      let '(s1, vehicle) :=
        match vehicles s !! uid with
        | Some v =>
            if bool_decide (vehicle_type v ≠ rc_vehicle_type data)
            then
              let v' := mkVehicle (vehicle_id v) (rc_vehicle_type data) in
              (set_vehicles (insert uid v') s, v')
            else (s, v)
        | None =>
            let v' := mkVehicle new_vehicle_id (rc_vehicle_type data) in
            (set_vehicles (insert uid v') s, v')
        end in
      match parseDate (rc_start_date data), parseDate (rc_start_time data) with
      | Some d, Some t =>
          match rides s1 !! new_ride_id with
          | Some _ => (s1, Err InternalError)
          | None =>
              let ride :=
                mkRide uid (vehicle_id vehicle)
                       (rc_start_location data) (rc_end_location data)
                       d t (rc_total_fare data) (rc_max_passengers data) open in
              (set_rides (insert new_ride_id ride) s1, Ok (new_ride_id, ride))
          end
      | _, _ => (s1, Err InternalError)
      end
  end.


Section Queries.
(** The server's time-zone offset, the JS [Date] parser and the database's
    case-insensitive [contains]. *)
Variable tz : Z.
Variable parseDate : string → option Z.
Variable contains_insensitive : string → string → bool.

(** A query parameter that is present and not the empty string. *)
Definition truthy (o : option string) : option string :=
  match o with
  | Some str => if String.eqb str "" then None else Some str
  | None => None
  end.

(** [d.setSeconds(0); d.setMilliseconds(0)] *)
Definition zeroSeconds (t : Z) : Z :=
  JsDate.make tz (JsDate.calendarDay tz t) (JsDate.getHours tz t) (JsDate.getMinutes tz t) 0 0.

(** [d.setHours(0, 0, 0, 0)] *)
Definition startOfDay (t : Z) : Z :=
  JsDate.make tz (JsDate.calendarDay tz t) 0 0 0 0.

(** The [where] of [/search], for the search day [searchDate] and the
    instant [now] the query is given. *)
Definition search_where (start end_ : option string) (searchDate now : Z)
    (ride : Ride) : bool :=
  bool_decide (status ride = open) &&
  match truthy start with
  | Some q => contains_insensitive (start_location ride) q
  | None => true
  end &&
  match truthy end_ with
  | Some q => contains_insensitive (end_location ride) q
  | None => true
  end &&
  (searchDate <=? start_date ride) &&
  ((searchDate <? start_date ride) ||
   ((start_date ride =? searchDate) && (now <=? start_time ride))).

Definition search_query (start end_ : option string) (searchDate now : Z) (s : Store)
    : list RideView :=
  (λ kr : string * Ride,
     mkRideView kr.1 kr.2 (vehicle_of (ride_vehicle_id kr.2) s) (booked_participants kr.1 s))
  <$> sort_by (λ a b : string * Ride, start_date a.2 <? start_date b.2)
        (map_to_list
           (filter (λ kr : string * Ride, search_where start end_ searchDate now kr.2 = true)
              (rides s))).

(** [router.get("/search")]. Without a [date], [searchDate] is the [now]
    object itself, so that setting its hours to zero also moves the [now] of
    the time filter to the start of the day. *)
Definition searchRides (now0 : Z) (start end_ date : option string) (s : Store)
    : Result (list RideView) :=
  let now := zeroSeconds now0 in
  match truthy date with
  | Some d =>
      match parseDate d with
      | Some t => Ok (search_query start end_ (startOfDay t) now s)
      | None => Err InternalError
      end
  | None =>
      let searchDate := startOfDay now in
      Ok (search_query start end_ searchDate searchDate s)
  end.

(** The order of declaration of the schema's enums, which [orderBy] a
    status column follows. *)
Variable status_rank : RideStatus → Z.

(** The future filter of [/mine]'s joined rides. *)
Definition mine_future (now : Z) (ride : Ride) : bool :=
  (now <? start_date ride) || ((start_date ride =? now) && (now <=? start_time ride)).

(** [hosted] of [router.get("/mine")] *)
Definition mine_hosted (uid : string) (s : Store) : list RideView :=
  (λ kr : string * Ride,
     mkRideView kr.1 kr.2 (vehicle_of (ride_vehicle_id kr.2) s) (all_participants kr.1 s))
  <$> sort_by (λ a b : string * Ride,
                 (status_rank (status a.2) <? status_rank (status b.2)) ||
                 ((status_rank (status a.2) =? status_rank (status b.2)) &&
                  (start_date a.2 <? start_date b.2)))
        (map_to_list
           (filter (λ kr : string * Ride,
                      driver_id kr.2 = uid ∧ status kr.2 ≠ cancelled)
              (rides s))).

(** The [where] of the joined participations of [/mine]. *)
Definition mine_joined_where (now : Z) (uid : string) (s : Store)
    (kp : PKey * RideParticipant) : bool :=
  bool_decide (kp.1.2 = uid) && bool_decide (rp_status kp.2 = booked) &&
  match rides s !! kp.1.1 with
  | Some ride => negb (bool_decide (status ride = cancelled)) && mine_future now ride
  | None => false
  end.

(** [joined] of [router.get("/mine")]: each participation found, turned into
    its ride with the [participation_status] beside it. The participations
    found are all booked, so that of the two [orderBy] columns only
    [booking_time], descending, orders them. *)
Definition mine_joined (now0 : Z) (uid : string) (s : Store)
    : list (RideView * ParticipantStatus) :=
  let now := zeroSeconds now0 in
  omap (λ kp : PKey * RideParticipant,
          match rides s !! kp.1.1 with
          | Some ride =>
              Some (mkRideView kp.1.1 ride (vehicle_of (ride_vehicle_id ride) s)
                      (all_participants kp.1.1 s),
                    rp_status kp.2)
          | None => None
          end)
       (sort_by (λ a b : PKey * RideParticipant, booking_time b.2 <? booking_time a.2)
          (map_to_list
             (filter (λ kp, mine_joined_where now uid s kp = true) (participants s)))).
End Queries.

(** ** The ride-creation form (CreateRideScreen) *)

Record FormData := mkFormData {
  form_from : string;
  form_to : string;
  form_date : string;
  form_time : string;
  form_maxPassengers : Z;
  form_vehicleType : string
}.

(** The state the screen mounts with. *)
Definition initial_form : FormData := mkFormData "" "" "" "" 3 "".

(** [value === 'suv' ? 6 : value === 'car' ? 4 : 3], on the form's string. *)
Definition maxAllowedFor (v : string) : Z :=
  if String.eqb v "suv" then 6 else if String.eqb v "car" then 4 else 3.

Definition with_maxPassengers (n : Z) (f : FormData) : FormData :=
  mkFormData (form_from f) (form_to f) (form_date f) (form_time f) n (form_vehicleType f).

(** What the user can do to the form between two renders. *)
Inductive FormEvent :=
  | TypeFrom (v : string)
  | TypeTo (v : string)
  | PickDate (v : string)
  | PickTime (v : string)
  | SelectRoute (from to : string)
  | SelectVehicle (v : string)
  | PressMinus
  | PressPlus.

(** The handlers of the screen; the two buttons do nothing while
    disabled. *)
Definition form_event (e : FormEvent) (f : FormData) : FormData :=
  match e with
  | TypeFrom v =>
      mkFormData v (form_to f) (form_date f) (form_time f)
                 (form_maxPassengers f) (form_vehicleType f)
  | TypeTo v =>
      mkFormData (form_from f) v (form_date f) (form_time f)
                 (form_maxPassengers f) (form_vehicleType f)
  | PickDate v =>
      mkFormData (form_from f) (form_to f) v (form_time f)
                 (form_maxPassengers f) (form_vehicleType f)
  | PickTime v =>
      mkFormData (form_from f) (form_to f) (form_date f) v
                 (form_maxPassengers f) (form_vehicleType f)
  | SelectRoute from to =>
      mkFormData from to (form_date f) (form_time f)
                 (form_maxPassengers f) (form_vehicleType f)
  | SelectVehicle v =>
      mkFormData (form_from f) (form_to f) (form_date f) (form_time f)
                 (Z.min (maxAllowedFor v) (form_maxPassengers f)) v
  | PressMinus =>
      if form_maxPassengers f <=? 1 then f
      else with_maxPassengers (Z.max 1 (form_maxPassengers f - 1)) f
  | PressPlus =>
      if maxAllowedFor (form_vehicleType f) <=? form_maxPassengers f then f
      else with_maxPassengers
             (Z.min (maxAllowedFor (form_vehicleType f)) (form_maxPassengers f + 1)) f
  end.

(** The form after a sequence of events. *)
Definition form_after (events : list FormEvent) : FormData :=
  foldl (λ f e, form_event e f) initial_form events.

(** [str.split(':')] *)
Fixpoint split_colon_aux (cur : string) (str : string) : list string :=
  match str with
  | EmptyString => [cur]
  | String c rest =>
      if Ascii.eqb c ":"%char then cur :: split_colon_aux "" rest
      else split_colon_aux (cur +:+ String c "") rest
  end.

Definition split_colon (str : string) : list string := split_colon_aux "" str.

(** The body of [POST /api/rides] the form sends. *)
Record CreateRidePayload := mkPayload {
  pl_start_location : string;
  pl_end_location : string;
  pl_start_date : string;
  pl_start_time : string;
  pl_total_fare : Z;
  pl_vehicle_type : string;
  pl_max_passengers : Z
}.

(** [JSON.stringify(payload)], read by the server. *)
Definition payload_json (p : CreateRidePayload) : gmap string Json :=
  create_body (pl_start_location p) (pl_end_location p) (pl_start_date p)
    (pl_start_time p) (inject_Z (pl_total_fare p)) (pl_vehicle_type p)
    (inject_Z (pl_max_passengers p)).

Section Submit.
(** The browser's time-zone offset, its [Date] parser, [parseInt(_, 10)]
    ([None] for [NaN]) and [Date.prototype.toISOString]. *)
Variable tz : Z.
Variable parseDate : string → option Z.
Variable parseInt10 : string → option Z.
Variable toISOString : Z → string.

(** [handleSubmit], up to the request: [None] when it alerts and sends
    nothing. An unreadable date passes the comparison with now and fails in
    [toISOString], inside the [try]. *)
Definition handleSubmit (now : Z) (f : FormData) : option CreateRidePayload :=
  if String.eqb (form_from f) "" || String.eqb (form_to f) "" ||
     String.eqb (form_date f) "" || String.eqb (form_time f) "" ||
     String.eqb (form_vehicleType f) ""
  then None
  else if negb (existsb (String.eqb (form_vehicleType f)) ["car"; "suv"; "auto"])
  then None
  else
    let parts := split_colon (form_time f) in
    let hoursStr := default "0" (parts !! 0%nat) in
    let minutesStr := default "0" (parts !! 1%nat) in
    let hours := default 0 (parseInt10 hoursStr) in
    let minutes := default 0 (parseInt10 minutesStr) in
    match parseDate (form_date f) with
    | None => None
    | Some d =>
        let selectedDate := JsDate.make tz (JsDate.calendarDay tz d) hours minutes 0 0 in
        if selectedDate <=? now then None
        else
          let maxPassengers :=
            Z.min (form_maxPassengers f) (maxAllowedFor (form_vehicleType f)) in
          Some (mkPayload (form_from f) (form_to f) (form_date f)
                  (toISOString selectedDate)
                  (100 * Z.max 1 maxPassengers)
                  (form_vehicleType f) maxPassengers)
    end.
End Submit.

(** ** Ride cards (utils/transforms) *)

Record CardUser := mkCardUser {
  cu_name : string;
  cu_rating : Q
}.

Record CardParticipant := mkCardParticipant {
  cp_status : string;
  cp_user : option CardUser
}.

Record CardVehicle := mkCardVehicle {
  cv_vehicle_type : string;
  cv_vehicle_number : string
}.

(** [RideData]: a ride as the API sends it; an absent optional field is
    [None]. *)
Record RideData := mkRideData {
  rd_ride_id : string;
  rd_driver : option CardUser;
  rd_start_location : string;
  rd_end_location : string;
  rd_start_date : string;
  rd_start_time : string;
  rd_total_fare : Q;
  rd_status : string;
  rd_participation_status : option string;
  rd_participants : option (list CardParticipant);
  rd_vehicle : option CardVehicle;
  rd_max_passengers : option Z
}.

Record RideCard := mkRideCard {
  card_id : string;
  card_driver : string;
  card_driverRating : Q;
  card_from : string;
  card_to : string;
  card_date : string;
  card_time : string;
  card_fare : string;
  card_status : string;
  card_participationStatus : string;
  card_participants : Z;
  card_maxParticipants : Z;
  card_vehicleType : string;
  card_vehicleNumber : string;
  card_passengers : list CardUser
}.

(** [a || b] on strings and on numbers. *)
Definition or_string (a : option string) (b : string) : string :=
  match a with
  | Some str => if String.eqb str "" then b else str
  | None => b
  end.

Definition or_number (a : option Q) (b : Q) : Q :=
  match a with
  | Some q => if Qeq_bool q 0 then b else q
  | None => b
  end.

Definition or_integer (a : option Z) (b : Z) : Z :=
  match a with
  | Some n => if n =? 0 then b else n
  | None => b
  end.

Section Cards.
(** [toLocaleDateString], [toLocaleTimeString] of a date string, and the
    text of the fare, [`₹${Number(total_fare)}`]. *)
Variable toLocaleDateString : string → string.
Variable toLocaleTimeString : string → string.
Variable fare_text : Q → string.

(** [r.participants?.filter(p => p.status === 'booked')] *)
Definition card_booked (r : RideData) : option (list CardParticipant) :=
  filter (λ p, cp_status p = "booked") <$> rd_participants r.

Definition toRideCard (r : RideData) : RideCard :=
  mkRideCard
    (rd_ride_id r)
    (or_string (cu_name <$> rd_driver r) "You")
    (or_number (cu_rating <$> rd_driver r) (47 # 10))
    (rd_start_location r)
    (rd_end_location r)
    (toLocaleDateString (rd_start_date r))
    (toLocaleTimeString (rd_start_time r))
    (fare_text (rd_total_fare r))
    (if String.eqb (rd_status r) "open" then "upcoming" else rd_status r)
    (or_string (rd_participation_status r) (rd_status r))
    (or_integer ((λ l : list CardParticipant, Z.of_nat (length l)) <$> card_booked r) 0 + 1)
    (or_integer (rd_max_passengers r) 4)
    (or_string (cv_vehicle_type <$> rd_vehicle r) "Car")
    (or_string (cv_vehicle_number <$> rd_vehicle r) "—")
    (mkCardUser (or_string (cu_name <$> rd_driver r) "You")
                (or_number (cu_rating <$> rd_driver r) (47 # 10))
     :: default []
          ((λ l : list CardParticipant,
              (λ p, mkCardUser (or_string (cu_name <$> cp_user p) "Unknown")
                               (or_number (cu_rating <$> cp_user p) (45 # 10)))
              <$> l)
           <$> card_booked r)).
End Cards.



(** ** The controller's search and the client's completed lists *)

(** A ride as [RideController.searchRides] sends it: of the vehicle, its
    type only. *)
Record RideSummary := mkRideSummary {
  sum_id : string;
  sum_ride : Ride;
  sum_vehicle_type : option VehicleType;
  sum_participants : list (PKey * RideParticipant)
}.

Section ControllerSearch.
Variable parseDate : string → option Z.
Variable contains_insensitive : string → string → bool.

(** The [where] of [RideController.searchRides]; [since] is the parsed
    [date] parameter, when one is given. *)
Definition controller_search_where (start end_ : option string) (since : option Z)
    (ride : Ride) : bool :=
  bool_decide (status ride = open) &&
  match truthy start with
  | Some q => contains_insensitive (start_location ride) q
  | None => true
  end &&
  match truthy end_ with
  | Some q => contains_insensitive (end_location ride) q
  | None => true
  end &&
  match since with
  | Some d => d <=? start_date ride
  | None => true
  end.

Definition controller_search_query (start end_ : option string) (since : option Z)
    (s : Store) : list RideSummary :=
  (λ kr : string * Ride,
     mkRideSummary kr.1 kr.2 (vehicle_type <$> vehicle_of (ride_vehicle_id kr.2) s)
       (booked_participants kr.1 s))
  <$> sort_by (λ a b : string * Ride, start_date a.2 <? start_date b.2)
        (map_to_list
           (filter (λ kr : string * Ride,
                      controller_search_where start end_ since kr.2 = true)
              (rides s))).

(** [RideController.searchRides] *)
Definition controller_searchRides (start end_ date : option string) (s : Store)
    : Result (list RideSummary) :=
  match truthy date with
  | Some d =>
      match parseDate d with
      | Some t => Ok (controller_search_query start end_ (Some t) s)
      | None => Err InternalError
      end
  | None => Ok (controller_search_query start end_ None s)
  end.
End ControllerSearch.

(** [list.filter(r => r.status === 'completed')] of [CompletedRidesScreen]
    and [MyRidesScreen], on the rides of a list of [/mine]. *)
Definition completed_only (l : list RideView) : list RideView :=
  filter (λ v, status_name (status (view_ride v)) = "completed") l.

(** The rides of the two sections of [CompletedRidesScreen], read from the
    reply of [/mine]: booked from [joined], created from [hosted]. *)
Definition completed_booked (tz now : Z) (uid : string) (s : Store) : list RideView :=
  completed_only (fst <$> mine_joined tz now uid s).

Definition completed_created (status_rank : RideStatus → Z) (uid : string) (s : Store)
    : list RideView :=
  completed_only (mine_hosted status_rank uid s).

(** ** More example data *)

Module Ex2.

(** A plain substring test stands for the database's [contains]. *)
Definition contains (hay needle : string) : bool :=
  match String.index 0 needle hay with
  | Some _ => true
  | None => false
  end.

Definition rank (st : RideStatus) : Z :=
  match st with
  | open => 0
  | active => 1
  | completed => 2
  | cancelled => 3
  end.

(** Bob joins "r1", cancels the day before, and joins again. *)
Definition s_bob_left : Store :=
  handle 0 Ex.parse (Ex.at_hour (-10)) (ReqCancel "bob" "r1") Ex.s_r1_bob.
Definition s_bob_back : Store :=
  handle 0 Ex.parse (Ex.at_hour (-5)) (ReqJoin "bob" "r1") s_bob_left.

(** What the user does to the form: a route, a date, a time, an SUV, and
    twice plus. *)
Definition events : list FormEvent :=
  [SelectRoute "campus" "station"; PickDate "day"; PickTime "18:00";
   SelectVehicle "suv"; PressPlus; PressPlus].

Definition parseInt (str : string) : option Z :=
  if String.eqb str "18" then Some 18
  else if String.eqb str "00" then Some 0
  else None.

Definition toISO (t : Z) : string :=
  if t =? Ex.at_hour 18 then "day 18:00" else "".

Definition payload : CreateRidePayload :=
  mkPayload "campus" "station" "day" "day 18:00" 500 "suv" 5.


Definition data1 : RideData :=
  mkRideData "r1" None "campus" "station" "day" "day 18:00" 300 "open" None
    (Some [mkCardParticipant "booked" (Some (mkCardUser "Carol" 5));
           mkCardParticipant "booked" None])
    None (Some 4).

(** What [/search] finds in the morning of the day for rides from
    "camp". *)
Definition found : list RideView :=
  search_query contains (Some "camp") None (startOfDay 0 (Ex.at_hour 10))
    (startOfDay 0 (Ex.at_hour 10)) Ex.s_two_rides.

(** "r1" with Bob on board, started by Alice at 19:00 of the day and
    completed at 20:00. *)
Definition s_r1_bob_completed : Store :=
  handle 0 Ex.parse (Ex.at_hour 20) (ReqComplete "alice" "r1")
    (handle 0 Ex.parse (Ex.at_hour 19) (ReqStart "alice" "r1") Ex.s_r1_bob).

End Ex2.

(** * Properties *)

(** ** Rational arithmetic of the penalties *)

Lemma Qltb_lt x y : Qltb x y = true ↔ (x < y)%Q.
Proof.
  unfold Qltb. rewrite negb_true_iff. split.
  - intros H. apply Qnot_le_lt. intros Hle. apply Qle_bool_iff in Hle. congruence.
  - intros H. destruct (Qle_bool y x) eqn:E; [|done].
    apply Qle_bool_iff in E. exfalso. by apply (Qlt_not_le x y).
Qed.

Lemma Qltb_ge x y : Qltb x y = false ↔ (y <= x)%Q.
Proof. unfold Qltb. rewrite negb_false_iff. apply Qle_bool_iff. Qed.

(** The monetary penalty [round(share * 0.25)] is positive exactly for
    shares of 2 or more. *)
Lemma Math_round_quarter_pos (q : Q) :
  0 < Math_round (q * (1 # 4)) ↔ (2 <= q)%Q.
Proof.
  unfold Math_round. split.
  - intros H.
    assert (H1 : (inject_Z 1 <= q * (1 # 4) + (1 # 2))%Q).
    { eapply Qle_trans; [|apply Qfloor_le]. rewrite <-Zle_Qle. lia. }
    revert H1. unfold Qle, Qmult, Qplus, inject_Z. simpl. lia.
  - intros H.
    assert (H1 : (inject_Z 1 <= q * (1 # 4) + (1 # 2))%Q).
    { revert H. unfold Qle, Qmult, Qplus, inject_Z. simpl. lia. }
    apply Qfloor_resp_le in H1. rewrite Qfloor_Z in H1. lia.
Qed.

(** ** Counting booked participations *)

Section Counting.
Implicit Types (ps : gmap PKey RideParticipant) (k : PKey) (p : RideParticipant).

Lemma booked_of_filter rid ps :
  booked_only (participants_of rid ps) = filter (booked_on rid) ps.
Proof.
  unfold booked_only, participants_of. rewrite map_filter_filter.
  apply map_filter_ext. intros [a b] p _. unfold booked_on. simpl. tauto.
Qed.

Lemma lookup_booked_of rid ps k p :
  booked_only (participants_of rid ps) !! k = Some p ↔
  ps !! k = Some p ∧ k.1 = rid ∧ rp_status p = booked.
Proof.
  rewrite booked_of_filter, map_lookup_filter_Some. unfold booked_on. simpl. tauto.
Qed.

Lemma count_insert_le rid ps k p :
  (size (filter (booked_on rid) (<[k:=p]> ps)) ≤ S (size (filter (booked_on rid) ps)))%nat.
Proof.
  rewrite map_filter_insert. case_decide.
  - rewrite map_size_insert. destruct (filter _ ps !! k); simpl; lia.
  - rewrite map_filter_delete, map_size_delete.
    destruct (filter _ ps !! k); simpl; lia.
Qed.

Lemma count_insert_not_booked rid ps k p :
  rp_status p ≠ booked →
  (size (filter (booked_on rid) (<[k:=p]> ps)) ≤ size (filter (booked_on rid) ps))%nat.
Proof.
  intros Hp. rewrite map_filter_insert_False by (unfold booked_on; simpl; tauto).
  rewrite map_filter_delete, map_size_delete.
  destruct (filter _ ps !! k); simpl; lia.
Qed.

Lemma count_insert_other rid ps k p :
  k.1 ≠ rid →
  filter (booked_on rid) (<[k:=p]> ps) = filter (booked_on rid) ps.
Proof. intros Hk. apply map_filter_insert_not. intros y [? _]. done. Qed.

Lemma count_delete_le rid ps k :
  (size (filter (booked_on rid) (delete k ps)) ≤ size (filter (booked_on rid) ps))%nat.
Proof.
  rewrite map_filter_delete, map_size_delete.
  destruct (filter _ ps !! k); simpl; lia.
Qed.

End Counting.

(** ** Ordering by booking time *)

Section Ordering.
Implicit Types (x y : PKey * RideParticipant) (l : list (PKey * RideParticipant)).

Lemma insert_by_time_perm x l : insert_by_time x l ≡ₚ x :: l.
Proof.
  induction l as [|y l IH]; simpl; [done|].
  destruct (_ <? _); [done|]. rewrite IH. apply Permutation_swap.
Qed.

Lemma order_by_booking_time_perm l : order_by_booking_time l ≡ₚ l.
Proof.
  induction l as [|x l IH]; simpl; [done|].
  rewrite insert_by_time_perm. by rewrite IH.
Qed.

Lemma head_insert_by_time x l :
  (∀ y l', l = y :: l' → earliest y l) →
  ∃ z l', insert_by_time x l = z :: l' ∧ earliest z (insert_by_time x l).
Proof.
  destruct l as [|y l]; simpl.
  - intros _. exists x, []. split; [done|]. by repeat constructor.
  - intros H. specialize (H y l eq_refl).
    destruct (booking_time x.2 <? booking_time y.2) eqn:E.
    + apply Z.ltb_lt in E. exists x, (y :: l). split; [done|].
      constructor; [lia|]. eapply Forall_impl; [exact H|]. simpl. intros; lia.
    + apply Z.ltb_ge in E. exists y, (insert_by_time x l). split; [done|].
      unfold earliest. rewrite (insert_by_time_perm x l).
      inversion H; subst. constructor; [done|]. by constructor.
Qed.

Lemma head_order_earliest l :
  ∀ y l', order_by_booking_time l = y :: l' → earliest y (order_by_booking_time l).
Proof.
  induction l as [|x l IH]; simpl; [done|].
  intros y l' Hy.
  destruct (head_insert_by_time x (order_by_booking_time l) IH) as (z & l'' & Hz & He).
  rewrite Hz in Hy. injection Hy as -> ->. exact He.
Qed.

Lemma head_order_Some l x :
  head (order_by_booking_time l) = Some x →
  x ∈ l ∧ ∀ y, y ∈ l → booking_time x.2 ≤ booking_time y.2.
Proof.
  intros H. destruct (order_by_booking_time l) as [|z l'] eqn:E; [done|].
  injection H as ->. split.
  - rewrite <-(order_by_booking_time_perm l), E. by left.
  - intros y Hy. pose proof (head_order_earliest l x l' E) as He.
    unfold earliest in He. rewrite Forall_forall in He. apply He.
    by rewrite order_by_booking_time_perm.
Qed.

Lemma head_order_None l : head (order_by_booking_time l) = None → l = [].
Proof.
  intros H. destruct (order_by_booking_time l) eqn:E; [|done].
  apply Permutation_nil_r. by rewrite <-E, order_by_booking_time_perm.
Qed.
End Ordering.

(** ** Cancellation *)

Ltac tx_unfold :=
  unfold participant_cancel_tx, driver_cancel_tx, participant_update, participant_delete,
    user_update, ride_update, cancellation_create, participant_count_booked,
    tx_modify, tx_get, mbind, mret, tx_bind, tx_ret.

Section Cancel.
Variable tz : Z.

Lemma participant_cancel_tx_run now uid rid pen s rp ride u :
  participants s !! (rid, uid) = Some rp →
  rides s !! rid = Some ride →
  users s !! uid = Some u →
  participant_cancel_tx now uid rid pen s =
    Some (participant_cancelled_store now uid rid pen rp ride u s, tt).
Proof.
  intros Hp Hr Hu. unfold participant_cancelled_store. tx_unfold. rewrite Hp. simpl.
  destruct (Nat.eqb _ 0); simpl; rewrite ?Hr; simpl; rewrite Hu; reflexivity.
Qed.

Lemma cancel_participant_run now uid rid s rp ride u :
  participants s !! (rid, uid) = Some rp →
  rides s !! rid = Some ride →
  users s !! uid = Some u →
  cancelRide tz now uid rid s =
    (participant_cancelled_store now uid rid (participant_penalty tz now ride rp) rp ride u s,
     Ok (ParticipantCancelled (participant_penalty tz now ride rp))).
Proof.
  intros Hp Hr Hu. unfold cancelRide. rewrite Hp, Hr. unfold transaction.
  rewrite (participant_cancel_tx_run now uid rid _ s rp ride u Hp Hr Hu). reflexivity.
Qed.

Lemma credibility_decrement_cases (pen : Z) :
  credibility_decrement pen = 5%Q ∨ credibility_decrement pen = 2%Q.
Proof. unfold credibility_decrement. destruct (0 <? pen); auto. Qed.

(** The first booked participation is a booked row of the ride, booked
    no later than any other. *)
Lemma first_booked_Some rid s fb :
  head (booked_participants_asc rid s) = Some fb →
  participants s !! fb.1 = Some fb.2 ∧ fb.1.1 = rid ∧ rp_status fb.2 = booked ∧
  ∀ k p, participants s !! k = Some p → k.1 = rid → rp_status p = booked →
         booking_time fb.2 ≤ booking_time p.
Proof.
  unfold booked_participants_asc. intros H.
  apply head_order_Some in H as [Hin Hmin].
  apply elem_of_map_to_list' in Hin. apply lookup_booked_of in Hin as (H1 & H2 & H3).
  repeat split; try done.
  intros k p Hk Hrid Hb. apply (Hmin (k, p)).
  apply elem_of_map_to_list'. simpl. by apply lookup_booked_of.
Qed.

Lemma first_booked_None rid s :
  head (booked_participants_asc rid s) = None →
  ∀ k p, participants s !! k = Some p → k.1 = rid → rp_status p ≠ booked.
Proof.
  unfold booked_participants_asc. intros H k p Hk Hrid Hb.
  apply head_order_None, map_to_list_empty_iff in H.
  assert (Hl : booked_only (participants_of rid (participants s)) !! k = Some p)
    by by apply lookup_booked_of.
  rewrite H in Hl. by rewrite lookup_empty in Hl.
Qed.

Lemma driver_cancel_tx_run now uid rid s ride u :
  rides s !! rid = Some ride →
  users s !! uid = Some u →
  let fb := head (booked_participants_asc rid s) in
  driver_cancel_tx tz now uid rid ride fb s =
    Some (driver_cancelled_store tz now uid rid fb ride u s, tt).
Proof.
  intros Hr Hu fb. unfold driver_cancelled_store. tx_unfold. simpl. rewrite Hu. simpl.
  destruct fb as [f|] eqn:E; simpl; rewrite Hr; simpl; [|reflexivity].
  apply first_booked_Some in E as (Hl & _). rewrite Hl. reflexivity.
Qed.

Lemma cancel_driver_run now uid rid s ride u :
  participants s !! (rid, uid) = None →
  rides s !! rid = Some ride →
  driver_id ride = uid →
  users s !! uid = Some u →
  let fb := head (booked_participants_asc rid s) in
  cancelRide tz now uid rid s =
    (driver_cancelled_store tz now uid rid fb ride u s,
     Ok (DriverCancelled (bool_decide (is_Some fb)))).
Proof.
  intros Hp Hr Hd Hu fb. unfold cancelRide. rewrite Hp, Hr.
  rewrite bool_decide_eq_true_2 by done. simpl. unfold transaction.
  rewrite (driver_cancel_tx_run now uid rid s ride u Hr Hu). reflexivity.
Qed.
End Cancel.

(** C1 (as amended). A participant's cancellation, on a ride with a
    participation record for the caller, replies [cancelled] with the
    monetary penalty and increments the caller's [cancellation_count] by 1;
    the [credibility_score] is decremented by exactly 5 when [diffHours] is
    below 3 and the rounded monetary penalty [round(share_fare * 0.25)] is
    positive, that is when the caller's share is at least 2; it is
    decremented by exactly 2 when [diffHours] is below 3 and the share is
    below 2, and when [diffHours] is at least 3. *)
Theorem cancel_participant_credibility tz now uid rid s rp ride u :
  participants s !! (rid, uid) = Some rp →
  rides s !! rid = Some ride →
  users s !! uid = Some u →
  ∃ s' u',
    cancelRide tz now uid rid s
      = (s', Ok (ParticipantCancelled (participant_penalty tz now ride rp))) ∧
    users s' !! uid = Some u' ∧
    cancellation_count u' = cancellation_count u + 1 ∧
    ((diffHours tz now ride < 3)%Q → (2 <= share_fare rp)%Q →
       credibility_score u' = (credibility_score u - 5)%Q) ∧
    ((diffHours tz now ride < 3)%Q → (share_fare rp < 2)%Q →
       credibility_score u' = (credibility_score u - 2)%Q) ∧
    ((3 <= diffHours tz now ride)%Q →
       credibility_score u' = (credibility_score u - 2)%Q).
Proof.
  intros Hp Hr Hu. eexists _, _. split; [by apply cancel_participant_run|].
  unfold participant_cancelled_store. simpl. rewrite lookup_insert_eq.
  split; [reflexivity|]. split; [reflexivity|].
  unfold penalise, credibility_decrement, participant_penalty. simpl.
  repeat split.
  - intros Hd Hs. apply Qltb_lt in Hd. rewrite Hd.
    apply Math_round_quarter_pos in Hs.
    replace (0 <? Z.max 0 _) with true; [done|].
    symmetry. apply Z.ltb_lt. lia.
  - intros Hd Hs. apply Qltb_lt in Hd. rewrite Hd.
    replace (0 <? Z.max 0 _) with false; [done|].
    symmetry. apply Z.ltb_ge.
    destruct (Z_lt_le_dec 0 (Math_round (share_fare rp * (1 # 4)))) as [Hpos|Hle]; [|lia].
    apply Math_round_quarter_pos in Hpos. exfalso. by apply (Qlt_not_le _ _ Hs).
  - intros Hd. apply Qltb_ge in Hd. rewrite Hd. done.
Qed.


(** C10. A participant's cancellation does not look at the status of the
    participation: starting from a record that is already cancelled, every
    further call replies [cancelled], appends one more cancellation log
    entry, increments [cancellation_count] by one and decrements
    [credibility_score] by 5 or by 2; the record stays cancelled, so the
    same holds for the call after. *)
Theorem cancel_again_not_guarded tz uid rid nows s rp ride u :
  participants s !! (rid, uid) = Some rp →
  rp_status rp = p_cancelled →
  rides s !! rid = Some ride →
  users s !! uid = Some u →
  let r := cancel_repeatedly tz uid rid nows s in
  Forall (λ reply, ∃ pen, reply = Ok (ParticipantCancelled pen)) r.2 ∧
  length r.2 = length nows ∧
  cancellations r.1 = cancellations s ++ map (mkCancellation rid uid) nows ∧
  (∃ rp', participants r.1 !! (rid, uid) = Some rp' ∧ rp_status rp' = p_cancelled) ∧
  is_Some (rides r.1 !! rid) ∧
  ∃ u' ds,
    users r.1 !! uid = Some u' ∧
    cancellation_count u' = cancellation_count u + Z.of_nat (length nows) ∧
    length ds = length nows ∧
    Forall (λ d, d = 5%Q ∨ d = 2%Q) ds ∧
    credibility_score u' = foldl Qminus (credibility_score u) ds.
Proof.
  intros Hp Hs Hr Hu. induction nows as [|now nows IH] using rev_ind.
  - simpl. repeat split; eauto.
    + by rewrite app_nil_r.
    + exists u, []. simpl. repeat split; eauto. lia.
  - unfold cancel_repeatedly in *. rewrite foldl_app. simpl.
    destruct (foldl _ (s, []) nows) as [s1 replies]. simpl in *.
    destruct IH as (Hall & Hlen & Hlog & (rp1 & Hp1 & Hs1) & [ride1 Hr1] & u1 & ds & Hu1 & Hc1
                    & Hds & Hfa & Hcred).
    rewrite (cancel_participant_run tz now uid rid s1 rp1 ride1 u1 Hp1 Hr1 Hu1). simpl.
    repeat split.
    + apply Forall_app. split; [done|]. constructor; [eauto|constructor].
    + rewrite !length_app. simpl. lia.
    + rewrite Hlog, map_app, <-app_assoc. done.
    + exists (mark_cancelled rp1). by rewrite lookup_insert_eq.
    + destruct (Nat.eqb _ 0); [rewrite lookup_insert_eq|]; eauto.
    + exists (penalise (credibility_decrement (participant_penalty tz now ride1 rp1)) u1),
        (ds ++ [credibility_decrement (participant_penalty tz now ride1 rp1)]).
      rewrite lookup_insert_eq, !length_app, foldl_app. simpl. rewrite <-Hcred.
      repeat split; try lia.
      apply Forall_app. split; [done|]. constructor; [|constructor].
      apply credibility_decrement_cases.
Qed.


(** ** Joining *)

Section Join.
Implicit Types (s : Store) (k : PKey) (p : RideParticipant).

Lemma find_active_booking_None now uid s :
  find_active_booking now uid s = None ↔
  ∀ k p, participants s !! k = Some p → active_booking_where now uid s (k, p) = false.
Proof.
  unfold find_active_booking. split.
  - intros H k p Hk. destruct (map_to_list _) eqn:E in H; [|done].
    apply map_to_list_empty_iff in E.
    pose proof (map_empty_filter_1 _ _ E k p Hk) as Hn. simpl in Hn.
    by destruct (active_booking_where now uid s (k, p)).
  - intros H.
    assert (E : filter (λ kp, active_booking_where now uid s kp = true) (participants s) = ∅).
    { apply map_empty_filter_2. intros k p Hk. simpl. rewrite (H k p Hk). done. }
    by rewrite E, map_to_list_empty.
Qed.

Lemma find_active_booking_is_Some now uid s k p :
  participants s !! k = Some p →
  active_booking_where now uid s (k, p) = true →
  is_Some (find_active_booking now uid s).
Proof.
  intros Hk Ha. destruct (find_active_booking now uid s) eqn:E; [eauto|].
  rewrite find_active_booking_None in E. rewrite (E k p Hk) in Ha. done.
Qed.

(** What the active-booking query matches: a booked participation of the
    caller, on any ride, whose ride has status open and a [start_date] not
    before now. *)
Lemma active_booking_where_true now uid s k p :
  active_booking_where now uid s (k, p) = true ↔
  k.2 = uid ∧ rp_status p = booked ∧
  ∃ ride, rides s !! k.1 = Some ride ∧ status ride = open ∧ now ≤ start_date ride.
Proof.
  unfold active_booking_where. simpl.
  rewrite !andb_true_iff, !bool_decide_eq_true.
  destruct (rides s !! k.1) as [ride|];
    [|split; [intros [_ ?]; done | intros (_ & _ & ? & ? & _); done]].
  rewrite andb_true_iff, Z.leb_le. split.
  - intros [[? ?] [Hst ?]]. repeat split; try done. exists ride. repeat split; try done.
    by destruct (status ride).
  - intros (? & ? & ride' & [= <-] & Hst & ?). rewrite Hst. done.
Qed.

(** The guards of [/join], in the order the route checks them. *)
Lemma join_guards now uid rid s ride :
  rides s !! rid = Some ride →
  let headcount := Z.of_nat (booked_count rid s) + 1 in
  let share := (total_fare ride / inject_Z (headcount + 1))%Q in
  (status ride ≠ open → joinRide now uid rid s = (s, Err RideNotOpen)) ∧
  (status ride = open → driver_id ride = uid →
     joinRide now uid rid s = (s, Err CannotBookOwnRide)) ∧
  (status ride = open → driver_id ride ≠ uid →
     is_Some (find_active_booking now uid s) →
     joinRide now uid rid s = (s, Err AlreadyInActiveRide)) ∧
  (status ride = open → driver_id ride ≠ uid →
     find_active_booking now uid s = None →
     max_passengers ride ≤ headcount →
     joinRide now uid rid s = (s, Err RideFull)) ∧
  (status ride = open → driver_id ride ≠ uid →
     find_active_booking now uid s = None →
     headcount < max_passengers ride →
     ∀ existing, participants s !! (rid, uid) = Some existing →
       (rp_status existing = booked → joinRide now uid rid s = (s, Err AlreadyBooked)) ∧
       (rp_status existing = p_cancelled →
          let p := mkParticipant booked share (booking_time existing) in
          joinRide now uid rid s = (set_participants (insert (rid, uid) p) s, Ok p))) ∧
  (status ride = open → driver_id ride ≠ uid →
     find_active_booking now uid s = None →
     headcount < max_passengers ride →
     participants s !! (rid, uid) = None →
     let p := mkParticipant booked share now in
     joinRide now uid rid s = (set_participants (insert (rid, uid) p) s, Ok p)).
Proof.
  intros Hr headcount share. unfold joinRide. rewrite Hr.
  fold (booked_count rid s). fold headcount. fold share.
  split; [|split; [|split; [|split; [|split]]]].
  - intros Hst. by rewrite bool_decide_eq_false_2.
  - intros Hst Hd. rewrite bool_decide_eq_true_2 by done. simpl.
    by rewrite bool_decide_eq_true_2.
  - intros Hst Hd [a Ha]. rewrite bool_decide_eq_true_2 by done. simpl.
    rewrite bool_decide_eq_false_2 by done. by rewrite Ha.
  - intros Hst Hd Ha Hfull. rewrite bool_decide_eq_true_2 by done. simpl.
    rewrite bool_decide_eq_false_2 by done. rewrite Ha.
    apply Z.leb_le in Hfull. by rewrite Hfull.
  - intros Hst Hd Ha Hcap existing He. rewrite bool_decide_eq_true_2 by done. simpl.
    rewrite bool_decide_eq_false_2 by done. rewrite Ha.
    apply Z.leb_gt in Hcap. rewrite Hcap, He. split; intros Hb.
    + by rewrite bool_decide_eq_true_2.
    + rewrite bool_decide_eq_false_2 by (rewrite Hb; done). done.
  - intros Hst Hd Ha Hcap Hn. rewrite bool_decide_eq_true_2 by done. simpl.
    rewrite bool_decide_eq_false_2 by done. rewrite Ha.
    apply Z.leb_gt in Hcap. by rewrite Hcap, Hn.
Qed.

(** A successful join read backwards: which guards passed and what was
    written. *)
Lemma join_Ok_inv now uid rid s s' p :
  joinRide now uid rid s = (s', Ok p) →
  ∃ ride,
    rides s !! rid = Some ride ∧ status ride = open ∧ driver_id ride ≠ uid ∧
    find_active_booking now uid s = None ∧
    Z.of_nat (booked_count rid s) + 1 < max_passengers ride ∧
    (∀ e, participants s !! (rid, uid) = Some e → rp_status e = p_cancelled) ∧
    rp_status p = booked ∧
    share_fare p = (total_fare ride / inject_Z (Z.of_nat (booked_count rid s) + 1 + 1))%Q ∧
    s' = set_participants (insert (rid, uid) p) s.
Proof.
  unfold joinRide. fold (booked_count rid s).
  destruct (rides s !! rid) as [ride|]; [|done].
  case_bool_decide as Hst; [|done]. simpl.
  case_bool_decide as Hd; [done|].
  destruct (find_active_booking now uid s); [done|].
  destruct (_ <=? _) eqn:Hcap; [done|]. apply Z.leb_gt in Hcap.
  destruct (participants s !! (rid, uid)) as [e|] eqn:He.
  - case_bool_decide as Hb; [done|]. intros [= <- <-].
    exists ride. repeat split; try done.
    intros e' [= <-]. by destruct (rp_status e).
  - intros [= <- <-]. exists ride. repeat split; done.
Qed.

(** Any other reply of [/join] leaves the store as it was. *)
Lemma join_Err_store now uid rid s s' e :
  joinRide now uid rid s = (s', Err e) → s' = s.
Proof.
  unfold joinRide. repeat (case_match; try done); by intros [= <-].
Qed.
End Join.


(** ** Starting and completing *)

(** The scheduled start is the local midnight of [start_date]'s day plus
    the local time of day of [start_time]. *)
Lemma rideStartDateTime_combines tz ride :
  rideStartDateTime tz ride =
    JsDate.calendarDay tz (start_date ride) * JsDate.msPerDay
    + (JsDate.localTime tz (start_time ride)) mod JsDate.msPerDay - tz.
Proof.
  unfold rideStartDateTime, JsDate.make, JsDate.getHours, JsDate.getMinutes,
    JsDate.getSeconds, JsDate.getMilliseconds, JsDate.msPerDay, JsDate.msPerHour,
    JsDate.msPerMinute, JsDate.msPerSecond.
  generalize (JsDate.localTime tz (start_time ride)) as t.
  generalize (JsDate.calendarDay tz (start_date ride)) as d. intros d t.
  Z.div_mod_to_equations. lia.
Qed.

(** C7 (as amended). [startRide] checks the owner first: it fails with
    [NotRideOwner] if the caller is not the current driver; for the driver
    it fails with [InvalidState] if the status is not open; for the driver
    of an open ride it fails with [TooEarly] if now is before the scheduled
    start ([start_date] combined with [start_time]); when all guards pass
    it sets the ride's status to active. *)
Theorem start_guards tz now uid rid s ride :
  rides s !! rid = Some ride →
  (driver_id ride ≠ uid → startRide tz now uid rid s = (s, Err NotRideOwner)) ∧
  (driver_id ride = uid → status ride ≠ open →
     startRide tz now uid rid s = (s, Err InvalidState)) ∧
  (driver_id ride = uid → status ride = open → now < rideStartDateTime tz ride →
     startRide tz now uid rid s = (s, Err TooEarly)) ∧
  (driver_id ride = uid → status ride = open → rideStartDateTime tz ride ≤ now →
     startRide tz now uid rid s
       = (set_rides (insert rid (with_status active ride)) s,
          Ok (with_status active ride))).
Proof.
  intros Hr. unfold startRide. rewrite Hr.
  split; [|split; [|split]].
  - intros Hd. by rewrite bool_decide_eq_false_2.
  - intros Hd Hst. rewrite bool_decide_eq_true_2 by done. simpl.
    by rewrite bool_decide_eq_false_2.
  - intros Hd Hst Hlt. rewrite !bool_decide_eq_true_2 by done. simpl.
    apply Z.ltb_lt in Hlt. by rewrite Hlt.
  - intros Hd Hst Hle. rewrite !bool_decide_eq_true_2 by done. simpl.
    apply Z.ltb_ge in Hle. by rewrite Hle.
Qed.

(** ** Creating *)

Section Create.
Variable parseDate : string → option Z.

Lemma z_number_int_min_max_Some lo hi j n :
  z_number_int_min_max lo hi j = Some n ↔
  ∃ q, j = Some (JNum q) ∧ (q == inject_Z n)%Q ∧ lo ≤ n ≤ hi.
Proof.
  unfold z_number_int_min_max. split.
  - destruct j as [[| |q|]|]; try done.
    destruct (Pos.eqb _ 1) eqn:Hden; [|done]. apply Pos.eqb_eq in Hden.
    destruct (_ && _) eqn:Hb; [|done]. intros [= <-].
    apply andb_true_iff in Hb as [Hlo Hhi]. apply Z.leb_le in Hlo, Hhi.
    exists q. repeat split; try done.
    rewrite <-(Qred_correct q) at 1. unfold Qeq, inject_Z. simpl. rewrite Hden. lia.
  - intros (q & -> & Hq & Hlo & Hhi).
    apply Qred_complete in Hq.
    rewrite (Qred_identity (inject_Z n)) in Hq by (simpl; apply Z.gcd_1_r).
    rewrite Hq. simpl.
    replace ((lo <=? n) && (n <=? hi)) with true; [done|].
    symmetry. apply andb_true_iff. split; by apply Z.leb_le.
Qed.

Lemma rideCreateSchema_None body :
  z_number_int_min_max 1 6 (body !! "max_passengers") = None →
  rideCreateSchema body = None.
Proof.
  intros H. unfold rideCreateSchema. rewrite H.
  repeat (match goal with |- context [mbind _ ?o] => destruct o; simpl end); done.
Qed.

Lemma rideCreateSchema_Some body data :
  rideCreateSchema body = Some data →
  z_number_int_min_max 1 6 (body !! "max_passengers") = Some (rc_max_passengers data) ∧
  z_enum_vehicle (body !! "vehicle_type") = Some (rc_vehicle_type data).
Proof.
  unfold rideCreateSchema. intros H.
  repeat (match type of H with
          | context [mbind _ ?o] => destruct o eqn:?; simpl in H; [|done]
          end).
  injection H as <-. simpl. done.
Qed.

Lemma createRide_Ok_inv uid body vid rid s s' rid' ride :
  createRide parseDate uid body vid rid s = (s', Ok (rid', ride)) →
  ∃ data,
    rideCreateSchema body = Some data ∧ rid' = rid ∧
    rides s !! rid = None ∧
    max_passengers ride = rc_max_passengers data ∧
    status ride = open ∧
    s' = set_rides (insert rid ride)
           (set_vehicles (insert uid (mkVehicle (ride_vehicle_id ride) (rc_vehicle_type data))) s).
Proof.
  unfold createRide. destruct (rideCreateSchema body) as [data|]; [|done].
  destruct (parseDate (rc_start_date data)); [|done].
  destruct (parseDate (rc_start_time data)); [|done].
  simpl. destruct (rides s !! rid) eqn:Hr; [done|].
  intros [= <- <- <-]. exists data. repeat split; try done.
  simpl. by destruct (vehicles s !! uid).
Qed.

Lemma create_body_schema sl el sd st fare vt_name vt n :
  sl ≠ "" → el ≠ "" → (0 < fare)%Q →
  vehicle_type_of_string vt_name = Some vt →
  1 ≤ n ≤ 6 →
  rideCreateSchema (create_body sl el sd st fare vt_name (inject_Z n))
    = Some (mkRideCreate sl el sd st fare vt n).
Proof.
  intros Hsl Hel Hfare Hvt Hn. unfold rideCreateSchema.
  set (b := create_body sl el sd st fare vt_name (inject_Z n)).
  assert (b !! "start_location" = Some (JStr sl)) as -> by reflexivity.
  assert (b !! "end_location" = Some (JStr el)) as -> by reflexivity.
  assert (b !! "start_date" = Some (JStr sd)) as -> by reflexivity.
  assert (b !! "start_time" = Some (JStr st)) as -> by reflexivity.
  assert (b !! "total_fare" = Some (JNum fare)) as -> by reflexivity.
  assert (b !! "vehicle_type" = Some (JStr vt_name)) as -> by reflexivity.
  assert (b !! "max_passengers" = Some (JNum (inject_Z n))) as -> by reflexivity.
  unfold z_string_min1, z_enum_vehicle, z_string, z_number_positive,
    z_number_int_min_max.
  apply Qltb_lt in Hfare. rewrite Hfare, Hvt.
  rewrite (Qred_identity (inject_Z n)) by (simpl; apply Z.gcd_1_r).
  replace ((1 <=? Qnum (inject_Z n)) && (Qnum (inject_Z n) <=? 6)) with true
    by (symmetry; apply andb_true_iff; split; apply Z.leb_le; simpl; lia).
  assert (Hlen : ∀ x : string, x ≠ "" → (1 <=? Z.of_nat (String.length x)) = true).
  { intros [|c x] Hx; [done|]. apply Z.leb_le. cbn [String.length]. lia. }
  rewrite !Hlen by done. reflexivity.
Qed.
End Create.

(** C8 (as amended). [createRide] accepts [max_passengers] only as an
    integer within 1-6: a created ride carries the submitted integer, which
    lies within 1-6, and a request whose [max_passengers] is a number that
    is no integer of 1-6 is rejected as a validation error with no ride
    created. The server applies no bound by vehicle type: a well-formed
    request with any integer of 1-6 is accepted for car, suv and auto alike.
    The bounds car <= 4, suv <= 6, auto <= 3 are applied by the client form
    alone, which lowers the value it submits to the bound. *)
Theorem create_max_passengers_bounds (parseDate : string → option Z)
    (uid vid rid : string) (s : Store) :
  (∀ body s' rid' ride,
     createRide parseDate uid body vid rid s = (s', Ok (rid', ride)) →
     1 ≤ max_passengers ride ≤ 6 ∧ rides s' !! rid' = Some ride ∧
     ∃ q, body !! "max_passengers" = Some (JNum q) ∧
          (q == inject_Z (max_passengers ride))%Q) ∧
  (∀ body q,
     body !! "max_passengers" = Some (JNum q) →
     (∀ n, 1 ≤ n ≤ 6 → ¬ (q == inject_Z n)%Q) →
     createRide parseDate uid body vid rid s = (s, Err ValidationError)) ∧
  (∀ sl el sd st d t fare vt_name vt n,
     sl ≠ "" → el ≠ "" → (0 < fare)%Q →
     parseDate sd = Some d → parseDate st = Some t →
     vehicle_type_of_string vt_name = Some vt →
     1 ≤ n ≤ 6 →
     rides s !! rid = None →
     ∃ s' ride,
       createRide parseDate uid (create_body sl el sd st fare vt_name (inject_Z n)) vid rid s
         = (s', Ok (rid, ride)) ∧
       rides s' !! rid = Some ride ∧ max_passengers ride = n) ∧
  (∀ formMaxPassengers vt,
     payload_max_passengers formMaxPassengers vt ≤ maxAllowed vt) ∧
  maxAllowed car = 4 ∧ maxAllowed suv = 6 ∧ maxAllowed auto = 3.
Proof.
  split; [|split; [|split; [|split]]].
  - intros body s' rid' ride H.
    apply createRide_Ok_inv in H as (data & Hd & -> & Hnone & Hmp & _ & ->).
    apply rideCreateSchema_Some in Hd as [Hd _].
    apply z_number_int_min_max_Some in Hd as (q & Hq & Heq & Hrange).
    rewrite Hmp. split; [done|]. simpl. rewrite lookup_insert_eq. split; [done|].
    exists q. done.
  - intros body q Hq Hno. unfold createRide.
    rewrite rideCreateSchema_None; [done|].
    destruct (z_number_int_min_max 1 6 (body !! "max_passengers")) as [n|] eqn:E; [|done].
    apply z_number_int_min_max_Some in E as (q' & Hq' & Heq & Hrange).
    rewrite Hq in Hq'. injection Hq' as <-. exfalso. by apply (Hno n).
  - intros sl el sd st d t fare vt_name vt n Hsl Hel Hfare Hd Ht Hvt Hn Hfresh.
    unfold createRide. rewrite (create_body_schema sl el sd st fare vt_name vt n) by done.
    simpl. rewrite Hd, Ht, Hfresh. eexists _, _. split; [reflexivity|].
    simpl. by rewrite lookup_insert_eq.
  - intros m vt. unfold payload_max_passengers. lia.
  - done.
Qed.

(** ** The capacity invariant *)

Section Invariant.
Variable tz : Z.
Variable parseDate : string → option Z.

Lemma booked_count_filter rid s :
  booked_count rid s = size (filter (booked_on rid) (participants s)).
Proof. unfold booked_count. by rewrite booked_of_filter. Qed.

(** A step that adds neither rides nor participations, keeps every
    [max_passengers] and raises no booked count, keeps the invariant. *)
Lemma invariant_weaken s s' :
  (∀ rid r', rides s' !! rid = Some r' →
             ∃ r, rides s !! rid = Some r ∧ max_passengers r' = max_passengers r) →
  (∀ rid, is_Some (rides s !! rid) → is_Some (rides s' !! rid)) →
  (∀ k, is_Some (participants s' !! k) → is_Some (participants s !! k)) →
  (∀ rid, (booked_count rid s' ≤ booked_count rid s)%nat) →
  participants_have_rides s ∧ capacity_ok s →
  participants_have_rides s' ∧ capacity_ok s'.
Proof.
  intros Hrides Hkeep Hparts Hcount [Hphr Hcap]. split.
  - intros k p Hk. destruct (Hparts k) as [p0 Hp0]; [eauto|].
    apply Hkeep. by apply (Hphr k p0).
  - intros rid r' Hr'. destruct (Hrides rid r' Hr') as (r & Hr & ->).
    specialize (Hcap rid r Hr). specialize (Hcount rid). lia.
Qed.

Lemma lookup_insert_with_status (rs : gmap string Ride) rid ride f rid' r' :
  rs !! rid = Some ride →
  max_passengers (f ride) = max_passengers ride →
  <[rid := f ride]> rs !! rid' = Some r' →
  ∃ r, rs !! rid' = Some r ∧ max_passengers r' = max_passengers r.
Proof.
  intros Hr Hmax. destruct (decide (rid = rid')) as [<-|Hne].
  - rewrite lookup_insert_eq. intros [= <-]. eauto.
  - rewrite lookup_insert_ne by done. eauto.
Qed.

Lemma is_Some_lookup_insert (rs : gmap string Ride) rid r rid' :
  is_Some (rs !! rid') → is_Some (<[rid := r]> rs !! rid').
Proof.
  intros H. destruct (decide (rid = rid')) as [<-|Hne].
  - rewrite lookup_insert_eq. eauto.
  - by rewrite lookup_insert_ne.
Qed.

Lemma start_preserves now uid rid s :
  participants_have_rides s ∧ capacity_ok s →
  participants_have_rides (startRide tz now uid rid s).1 ∧
  capacity_ok (startRide tz now uid rid s).1.
Proof.
  unfold startRide. destruct (rides s !! rid) as [ride|] eqn:Hr; [|done].
  repeat (case_match; try done). simpl.
  apply invariant_weaken; simpl; try done.
  - intros rid' r'. by apply (lookup_insert_with_status _ _ _ (with_status active)).
  - intros rid'. apply is_Some_lookup_insert.
Qed.

Lemma complete_preserves uid rid s :
  participants_have_rides s ∧ capacity_ok s →
  participants_have_rides (completeRide uid rid s).1 ∧
  capacity_ok (completeRide uid rid s).1.
Proof.
  unfold completeRide. destruct (rides s !! rid) as [ride|] eqn:Hr; [|done].
  repeat (case_match; try done). simpl.
  apply invariant_weaken; simpl; try done.
  - intros rid' r'. by apply (lookup_insert_with_status _ _ _ (with_status completed)).
  - intros rid'. apply is_Some_lookup_insert.
Qed.

Lemma join_preserves now uid rid s :
  participants_have_rides s ∧ capacity_ok s →
  participants_have_rides (joinRide now uid rid s).1 ∧
  capacity_ok (joinRide now uid rid s).1.
Proof.
  intros [Hphr Hcap].
  destruct (joinRide now uid rid s) as [s' [p|e]] eqn:E; simpl.
  - apply join_Ok_inv in E as (ride & Hr & _ & _ & _ & Hroom & _ & _ & _ & ->).
    split.
    + intros k q. simpl. destruct (decide (k = (rid, uid))) as [->|Hne].
      * intros _. simpl. eauto.
      * rewrite lookup_insert_ne by done. apply Hphr.
    + intros rid' r' Hr'. simpl in Hr'. rewrite booked_count_filter. simpl.
      destruct (decide (rid' = rid)) as [->|Hne].
      * rewrite Hr in Hr'. injection Hr' as <-.
        pose proof (count_insert_le rid (participants s) (rid, uid) p).
        rewrite booked_count_filter in Hroom. lia.
      * rewrite count_insert_other by (simpl; congruence).
        rewrite <-booked_count_filter. by apply Hcap.
  - apply join_Err_store in E as ->. done.
Qed.

Lemma create_preserves uid body vid rid s :
  participants_have_rides s ∧ capacity_ok s →
  participants_have_rides (createRide parseDate uid body vid rid s).1 ∧
  capacity_ok (createRide parseDate uid body vid rid s).1.
Proof.
  intros [Hphr Hcap].
  destruct (createRide parseDate uid body vid rid s) as [s' [[rid' ride]|e]] eqn:E; simpl.
  - apply createRide_Ok_inv in E as (data & Hd & -> & Hfresh & Hmp & _ & ->).
    apply rideCreateSchema_Some in Hd as [Hd _].
    apply z_number_int_min_max_Some in Hd as (q & _ & _ & Hrange).
    split.
    + intros k p Hk. simpl in *. apply is_Some_lookup_insert. by apply (Hphr k p).
    + intros rid' r'. simpl. rewrite booked_count_filter. simpl.
      destruct (decide (rid = rid')) as [<-|Hne].
      * rewrite lookup_insert_eq. intros [= <-].
        assert (Hz : filter (booked_on rid) (participants s) = ∅).
        { apply map_empty_filter_2. intros k p Hk [Hrid _]. simpl in Hrid.
          destruct (Hphr k p Hk) as [r Hr]. congruence. }
        rewrite Hz, map_size_empty. lia.
      * rewrite lookup_insert_ne by done. intros Hr'.
        rewrite <-booked_count_filter. by apply Hcap.
  - revert E. unfold createRide. repeat (case_match; try done); intros [= <- _]; done.
Qed.

Lemma participant_cancel_tx_no_user now uid rid pen s :
  users s !! uid = None → participant_cancel_tx now uid rid pen s = None.
Proof.
  intros Hu. tx_unfold. destruct (participants s !! (rid, uid)); [|done]. simpl.
  destruct (Nat.eqb _ 0); simpl; [destruct (rides s !! rid); [|done]|];
    simpl; by rewrite Hu.
Qed.

Lemma driver_cancel_tx_no_user now uid rid ride fb s :
  users s !! uid = None → driver_cancel_tx tz now uid rid ride fb s = None.
Proof. intros Hu. tx_unfold. simpl. by rewrite Hu. Qed.

(** The three outcomes of [/cancel] on the store. *)
Lemma cancelRide_store_cases now uid rid s :
  (cancelRide tz now uid rid s).1 = s ∨
  (∃ rp ride u pen,
     participants s !! (rid, uid) = Some rp ∧ rides s !! rid = Some ride ∧
     (cancelRide tz now uid rid s).1
       = participant_cancelled_store now uid rid pen rp ride u s) ∨
  (∃ ride u,
     rides s !! rid = Some ride ∧
     (cancelRide tz now uid rid s).1
       = driver_cancelled_store tz now uid rid
           (head (booked_participants_asc rid s)) ride u s).
Proof.
  destruct (participants s !! (rid, uid)) as [rp|] eqn:Hp;
    destruct (rides s !! rid) as [ride|] eqn:Hr;
    destruct (users s !! uid) as [u|] eqn:Hu.
  - right; left. exists rp, ride, u, (participant_penalty tz now ride rp).
    by rewrite (cancel_participant_run tz now uid rid s rp ride u).
  - left. unfold cancelRide, transaction. rewrite Hp, Hr.
    by rewrite participant_cancel_tx_no_user.
  - left. unfold cancelRide. by rewrite Hp, Hr.
  - left. unfold cancelRide. by rewrite Hp, Hr.
  - destruct (decide (driver_id ride = uid)) as [Hd|Hd].
    + right; right. exists ride, u.
      by rewrite (cancel_driver_run tz now uid rid s ride u).
    + left. unfold cancelRide. rewrite Hp, Hr. by rewrite bool_decide_eq_false_2.
  - left. unfold cancelRide, transaction. rewrite Hp, Hr.
    case_bool_decide; [|done]. simpl. by rewrite driver_cancel_tx_no_user.
  - left. unfold cancelRide. by rewrite Hp, Hr.
  - left. unfold cancelRide. by rewrite Hp, Hr.
Qed.

(** Cancellations raise no booked count. *)
Lemma cancel_booked_count_le now uid rid s rid' :
  (booked_count rid' (cancelRide tz now uid rid s).1 ≤ booked_count rid' s)%nat.
Proof.
  destruct (cancelRide_store_cases now uid rid s)
    as [->|[(rp & ride & u & pen & _ & _ & ->)|(ride & u & _ & ->)]]; [done|..];
    rewrite !booked_count_filter; simpl.
  - by apply count_insert_not_booked.
  - destruct (head _); [apply count_delete_le|done].
Qed.

Lemma cancel_preserves now uid rid s :
  participants_have_rides s ∧ capacity_ok s →
  participants_have_rides (cancelRide tz now uid rid s).1 ∧
  capacity_ok (cancelRide tz now uid rid s).1.
Proof.
  apply invariant_weaken; [| | |apply cancel_booked_count_le];
    destruct (cancelRide_store_cases now uid rid s)
      as [->|[(rp & ride & u & pen & Hp & Hr & ->)|(ride & u & Hr & ->)]];
    simpl; eauto.
  - intros rid' r'. destruct (Nat.eqb _ 0); [|eauto].
    by apply (lookup_insert_with_status _ _ _ (with_status open)).
  - intros rid' r'. destruct (head _) as [fb|].
    + by apply (lookup_insert_with_status _ _ _ (with_driver_status fb.1.2 open)).
    + by apply (lookup_insert_with_status _ _ _ (with_status cancelled)).
  - intros rid'. destruct (Nat.eqb _ 0); [|done]. apply is_Some_lookup_insert.
  - intros rid'. destruct (head _); apply is_Some_lookup_insert.
  - intros k. destruct (decide (k = (rid, uid))) as [->|Hne].
    + rewrite Hp. eauto.
    + by rewrite lookup_insert_ne.
  - intros k. destruct (head _) as [fb|]; [|done].
    destruct (decide (k = fb.1)) as [->|Hne].
    + rewrite lookup_delete_eq. by intros [? ?].
    + by rewrite lookup_delete_ne.
Qed.

Lemma handle_preserves now req s :
  participants_have_rides s ∧ capacity_ok s →
  participants_have_rides (handle tz parseDate now req s) ∧
  capacity_ok (handle tz parseDate now req s).
Proof.
  destruct req; simpl.
  - apply create_preserves.
  - apply join_preserves.
  - apply start_preserves.
  - apply complete_preserves.
  - apply cancel_preserves.
Qed.

Lemma reachable_invariant s :
  reachable tz parseDate s → participants_have_rides s ∧ capacity_ok s.
Proof.
  induction 1 as [|s us _ IH|s now req _ IH].
  - split; intros ? ?; simpl; by rewrite lookup_empty.
  - exact IH.
  - by apply handle_preserves.
Qed.
End Invariant.


(** * The theorems at concrete stores *)

(** Bob cancels "r1" one hour before its start: his share is 150, his
    credibility goes from 100 to 95. *)
Lemma cancel_participant_credibility_witness :
  ∃ s' u',
    cancelRide 0 (Ex.at_hour 17) "bob" "r1" Ex.s_r1_bob
      = (s', Ok (ParticipantCancelled
                   (participant_penalty 0 (Ex.at_hour 17) Ex.ride1 Ex.bob_rp))) ∧
    users s' !! "bob" = Some u' ∧
    cancellation_count u' = cancellation_count Ex.user0 + 1 ∧
    ((diffHours 0 (Ex.at_hour 17) Ex.ride1 < 3)%Q → (2 <= share_fare Ex.bob_rp)%Q →
       credibility_score u' = (credibility_score Ex.user0 - 5)%Q) ∧
    ((diffHours 0 (Ex.at_hour 17) Ex.ride1 < 3)%Q → (share_fare Ex.bob_rp < 2)%Q →
       credibility_score u' = (credibility_score Ex.user0 - 2)%Q) ∧
    ((3 <= diffHours 0 (Ex.at_hour 17) Ex.ride1)%Q →
       credibility_score u' = (credibility_score Ex.user0 - 2)%Q).
Proof.
  apply (cancel_participant_credibility 0 (Ex.at_hour 17) "bob" "r1" Ex.s_r1_bob
           Ex.bob_rp Ex.ride1 Ex.user0); reflexivity.
Defined.

(** A late cancellation that costs 2, not 5: Bob's share of the cheap ride
    is 1, he cancels one hour before the start ([diffHours] = 1). *)
Lemma late_cancel_of_small_share_costs_two :
  ∃ u',
    users (cancelRide 0 (Ex.at_hour 17) "bob" "r1" Ex.s_cheap).1 !! "bob" = Some u' ∧
    users Ex.s_cheap !! "bob" = Some Ex.user0 ∧
    (∃ rp ride, participants Ex.s_cheap !! ("r1", "bob") = Some rp ∧
                rides Ex.s_cheap !! "r1" = Some ride ∧
                (diffHours 0 (Ex.at_hour 17) ride < 3)%Q) ∧
    (credibility_score u' == credibility_score Ex.user0 - 2)%Q ∧
    ¬ (credibility_score u' == credibility_score Ex.user0 - 5)%Q.
Proof.
  eexists. split; [reflexivity|]. split; [reflexivity|]. split.
  - eexists _, _. split; [reflexivity|]. split; [reflexivity|]. reflexivity.
  - split; [reflexivity|]. intros H. discriminate H.
Defined.


(** C3, on the code. Two stores the requests lead to, in each of which Bob
    holds a booked participation on a ride that has not reached its start
    and still joins a second ride.
    In the first, Bob is booked on "r1" (open, starting at 18:00 of the
    day) and asks at 10:00 of that day to join "r2": the active-booking
    query compares the ride's [start_date], midnight of the day, with now,
    and finds nothing.
    In the second, Bob is booked on "r3", which is active and whose
    [start_date] is still ahead, and asks to join "r4": the status list of
    the query, open and booked, leaves an active ride out. *)
Theorem join_second_ride_while_booked :
  (let now := Ex.at_hour 10 in
   let s := Ex.s_two_rides in
   rides s !! "r1" = Some Ex.ride1 ∧ status Ex.ride1 = open ∧
   participants s !! ("r1", "bob") = Some Ex.bob_rp ∧ rp_status Ex.bob_rp = booked ∧
   now < rideStartDateTime 0 Ex.ride1 ∧ now < startDateTime 0 Ex.ride1 ∧
   rides s !! "r2" = Some Ex.ride2 ∧ status Ex.ride2 = open ∧
   now < rideStartDateTime 0 Ex.ride2 ∧
   find_active_booking now "bob" s = None ∧
   ∃ p, joinRide now "bob" "r2" s = (set_participants (insert ("r2", "bob") p) s, Ok p) ∧
        rp_status p = booked ∧
        participants (joinRide now "bob" "r2" s).1 !! ("r1", "bob") = Some Ex.bob_rp ∧
        participants (joinRide now "bob" "r2" s).1 !! ("r2", "bob") = Some p) ∧
  (let now := Ex.at_hour 3 in
   let s := Ex.s_started in
   rides s !! "r3" = Some Ex.ride3 ∧ status Ex.ride3 = active ∧
   participants s !! ("r3", "bob") = Some Ex.bob_rp ∧ rp_status Ex.bob_rp = booked ∧
   now ≤ start_date Ex.ride3 ∧
   rides s !! "r4" = Some Ex.ride4 ∧ status Ex.ride4 = open ∧
   now ≤ start_date Ex.ride4 ∧ now < rideStartDateTime 0 Ex.ride4 ∧
   find_active_booking now "bob" s = None ∧
   ∃ p, joinRide now "bob" "r4" s = (set_participants (insert ("r4", "bob") p) s, Ok p) ∧
        rp_status p = booked ∧
        participants (joinRide now "bob" "r4" s).1 !! ("r3", "bob") = Some Ex.bob_rp ∧
        participants (joinRide now "bob" "r4" s).1 !! ("r4", "bob") = Some p).
Proof.
  split.
  - repeat (split; [reflexivity|]). eexists. repeat split; reflexivity.
  - repeat (split; [done|]). eexists. repeat split; reflexivity.
Qed.

(** The status filter of the active-booking query matches open rides
    only. *)
Lemma active_booking_status_filter (st : RideStatus) :
  status_in st ["open"; "booked"] = true ↔ st = open.
Proof. destruct st; simpl; split; (done || discriminate). Qed.

(** The active-booking guard as the route has it: a booked participation of
    the caller on an open ride whose [start_date] is not before now refuses
    the join and writes nothing. *)
Lemma join_refused_by_active_booking now uid rid s ride rid' ride' p :
  rides s !! rid = Some ride → status ride = open → driver_id ride ≠ uid →
  participants s !! (rid', uid) = Some p → rp_status p = booked →
  rides s !! rid' = Some ride' → status ride' = open → now ≤ start_date ride' →
  joinRide now uid rid s = (s, Err AlreadyInActiveRide).
Proof.
  intros Hr Hst Hd Hp Hb Hr' Hst' Hdate.
  destruct (join_guards now uid rid s ride Hr) as (_ & _ & H & _).
  apply H; try done.
  apply (find_active_booking_is_Some now uid s (rid', uid) p Hp).
  apply active_booking_where_true. simpl. eauto 10.
Qed.

(** C6, on the code. Bob, booked on "r1" and on no other ride, asks the
    evening before to join "r1" again: the active-booking query finds his booking on "r1"
    itself and the reply is the one for a booking on another ride, not
    [AlreadyBooked]. *)
Theorem join_same_ride_twice :
  let now := Ex.at_hour (-1) in
  let s := Ex.s_r1_bob in
  rides s !! "r1" = Some Ex.ride1 ∧ status Ex.ride1 = open ∧ driver_id Ex.ride1 ≠ "bob" ∧
  map_to_list (participants s) = [(("r1", "bob"), Ex.bob_rp)] ∧
  rp_status Ex.bob_rp = booked ∧
  Z.of_nat (booked_count "r1" s) + 1 < max_passengers Ex.ride1 ∧
  find_active_booking now "bob" s = Some (("r1", "bob"), Ex.bob_rp) ∧
  joinRide now "bob" "r1" s = (s, Err AlreadyInActiveRide) ∧
  error_body AlreadyInActiveRide
    = Some "You already have an active booking for another ride" ∧
  AlreadyInActiveRide ≠ AlreadyBooked.
Proof.
  repeat (split; [done|]). done.
Qed.



(** Alice and "r1", which starts at 18:00. *)
Lemma start_guards_witness :
  let now := Ex.at_hour 19 in
  ("alice" ≠ "alice" → startRide 0 now "alice" "r1" Ex.s_r1 = (Ex.s_r1, Err NotRideOwner)) ∧
  ("alice" = "alice" → open ≠ open →
     startRide 0 now "alice" "r1" Ex.s_r1 = (Ex.s_r1, Err InvalidState)) ∧
  ("alice" = "alice" → open = open → now < rideStartDateTime 0 Ex.ride1 →
     startRide 0 now "alice" "r1" Ex.s_r1 = (Ex.s_r1, Err TooEarly)) ∧
  ("alice" = "alice" → open = open → rideStartDateTime 0 Ex.ride1 ≤ now →
     startRide 0 now "alice" "r1" Ex.s_r1
       = (set_rides (insert "r1" (with_status active Ex.ride1)) Ex.s_r1,
          Ok (with_status active Ex.ride1))).
Proof.
  apply (start_guards 0 (Ex.at_hour 19) "alice" "r1" Ex.s_r1 Ex.ride1). reflexivity.
Defined.

(** Bob starts (he cannot) the ride Alice has completed: the reply is
    [NotRideOwner], not [InvalidState]. *)
Lemma start_completed_ride_by_other_user :
  ∃ ride,
    rides Ex.s_completed !! "r1" = Some ride ∧ status ride = completed ∧
    status ride ≠ open ∧ driver_id ride ≠ "bob" ∧
    startRide 0 (Ex.at_hour 21) "bob" "r1" Ex.s_completed
      = (Ex.s_completed, Err NotRideOwner) ∧
    startRide 0 (Ex.at_hour 21) "bob" "r1" Ex.s_completed
      ≠ (Ex.s_completed, Err InvalidState).
Proof.
  eexists. split; [reflexivity|]. repeat split; try done.
Defined.

(** An auto is created with six seats. *)
Lemma create_auto_with_six_seats :
  ∃ s' ride veh,
    createRide Ex.parse "alice" (Ex.body 300 "auto" 6) "v1" "r1" Ex.s_users
      = (s', Ok ("r1", ride)) ∧
    rides s' !! "r1" = Some ride ∧
    vehicles s' !! "alice" = Some veh ∧ vehicle_type veh = auto ∧
    max_passengers ride = 6 ∧ ¬ max_passengers ride ≤ 3.
Proof.
  eexists _, _, _. repeat split; try reflexivity. simpl. lia.
Defined.

(** The service with Alice asking for five seats. *)
Lemma create_max_passengers_bounds_witness :
  ∃ s' ride,
    createRide Ex.parse "alice"
      (create_body "campus" "station" "day" "day 18:00" 300 "auto" (inject_Z 5))
      "v1" "r1" Ex.s_users = (s', Ok ("r1", ride)) ∧
    rides s' !! "r1" = Some ride ∧ max_passengers ride = 5.
Proof.
  destruct (create_max_passengers_bounds Ex.parse "alice" "v1" "r1" Ex.s_users)
    as (_ & _ & H & _).
  apply (H "campus" "station" "day" "day 18:00" Ex.day (Ex.at_hour 18) 300%Q "auto" auto 5);
    try done.
Defined.


(** Bob cancels twice more after his cancellation. *)
Lemma cancel_again_not_guarded_witness :
  let nows := [Ex.at_hour 11; Ex.at_hour 17] in
  let r := cancel_repeatedly 0 "bob" "r1" nows Ex.s_bob_cancelled in
  Forall (λ reply, ∃ pen, reply = Ok (ParticipantCancelled pen)) r.2 ∧
  length r.2 = length nows ∧
  cancellations r.1
    = cancellations Ex.s_bob_cancelled ++ map (mkCancellation "r1" "bob") nows ∧
  (∃ rp', participants r.1 !! ("r1", "bob") = Some rp' ∧ rp_status rp' = p_cancelled) ∧
  is_Some (rides r.1 !! "r1") ∧
  ∃ u' ds,
    users r.1 !! "bob" = Some u' ∧
    cancellation_count u' = 1 + Z.of_nat (length nows) ∧
    length ds = length nows ∧
    Forall (λ d, d = 5%Q ∨ d = 2%Q) ds ∧
    credibility_score u' = foldl Qminus (100 - 2)%Q ds.
Proof.
  apply (cancel_again_not_guarded 0 "bob" "r1" [Ex.at_hour 11; Ex.at_hour 17]
           Ex.s_bob_cancelled (mark_cancelled Ex.bob_rp) Ex.ride1
           (mkUser (100 - 2)%Q 1)); reflexivity.
Defined.

(** * Further properties of the routes, the controller and the client *)

(** * Further properties of the routes *)

(** ** The life of a ride *)

Lemma completeRide_Some uid rid s ride :
  rides s !! rid = Some ride →
  completeRide uid rid s =
    if negb (bool_decide (driver_id ride = uid)) then (s, Err NotRideOwner)
    else if negb (bool_decide (status ride = active)) then (s, Err InvalidState)
    else (set_rides (insert rid (with_status completed ride)) s,
          Ok (with_status completed ride)).
Proof. intros Hr. unfold completeRide. by rewrite Hr. Qed.

Lemma startRide_Some tz now uid rid s ride :
  rides s !! rid = Some ride →
  startRide tz now uid rid s =
    if negb (bool_decide (driver_id ride = uid)) then (s, Err NotRideOwner)
    else if negb (bool_decide (status ride = open)) then (s, Err InvalidState)
    else if now <? rideStartDateTime tz ride then (s, Err TooEarly)
    else (set_rides (insert rid (with_status active ride)) s,
          Ok (with_status active ride)).
Proof. intros Hr. unfold startRide. by rewrite Hr. Qed.

(** [/complete] replies [RideNotFound] for an unknown ride,
    [NotRideOwner] to anyone but the driver whatever the status,
    [InvalidState] to the driver unless the ride is active, and otherwise
    sets the status to completed; every refusal leaves the store as it
    was. *)
Lemma complete_guards uid rid s :
  (rides s !! rid = None → completeRide uid rid s = (s, Err RideNotFound)) ∧
  (∀ ride, rides s !! rid = Some ride →
     (driver_id ride ≠ uid → completeRide uid rid s = (s, Err NotRideOwner)) ∧
     (driver_id ride = uid → status ride ≠ active →
        completeRide uid rid s = (s, Err InvalidState)) ∧
     (driver_id ride = uid → status ride = active →
        completeRide uid rid s
          = (set_rides (insert rid (with_status completed ride)) s,
             Ok (with_status completed ride)))).
Proof.
  split.
  - intros Hr. unfold completeRide. by rewrite Hr.
  - intros ride Hr. rewrite (completeRide_Some uid rid s ride Hr).
    split; [|split].
    + intros Hd. by rewrite bool_decide_eq_false_2.
    + intros Hd Hst. rewrite bool_decide_eq_true_2 by done. simpl.
      by rewrite bool_decide_eq_false_2.
    + intros Hd Hst. by rewrite !bool_decide_eq_true_2.
Qed.

(** X1. The driver of an open ride whose scheduled start has come cannot
    complete it before starting it; start then complete both succeed and
    leave the ride completed; after that the driver's start and complete are
    refused with [InvalidState] and change nothing. Between start and
    complete, nobody but the driver can complete. *)
Theorem ride_lifecycle tz now now' uid rid s ride :
  rides s !! rid = Some ride →
  driver_id ride = uid →
  status ride = open →
  rideStartDateTime tz ride ≤ now →
  let s1 := (startRide tz now uid rid s).1 in
  let s2 := (completeRide uid rid s1).1 in
  completeRide uid rid s = (s, Err InvalidState) ∧
  (startRide tz now uid rid s).2 = Ok (with_status active ride) ∧
  (completeRide uid rid s1).2 = Ok (with_status completed ride) ∧
  rides s2 !! rid = Some (with_status completed ride) ∧
  startRide tz now' uid rid s2 = (s2, Err InvalidState) ∧
  completeRide uid rid s2 = (s2, Err InvalidState) ∧
  (∀ other, other ≠ uid → completeRide other rid s1 = (s1, Err NotRideOwner)).
Proof.
  intros Hr Hd Hst Hnow.
  assert (Hs1 : startRide tz now uid rid s
                = (set_rides (insert rid (with_status active ride)) s,
                   Ok (with_status active ride))).
  { rewrite (startRide_Some tz now uid rid s ride Hr).
    rewrite !bool_decide_eq_true_2 by done. simpl.
    apply Z.ltb_ge in Hnow. by rewrite Hnow. }
  rewrite Hs1. simpl.
  set (s1 := set_rides (insert rid (with_status active ride)) s).
  assert (Hr1 : rides s1 !! rid = Some (with_status active ride))
    by (simpl; apply lookup_insert_eq).
  assert (Hs2 : completeRide uid rid s1
                = (set_rides (insert rid (with_status completed ride)) s1,
                   Ok (with_status completed ride))).
  { rewrite (completeRide_Some uid rid s1 _ Hr1). simpl.
    by rewrite !bool_decide_eq_true_2. }
  rewrite Hs2. simpl.
  set (s2 := set_rides (insert rid (with_status completed ride)) s1).
  assert (Hr2 : rides s2 !! rid = Some (with_status completed ride))
    by (simpl; apply lookup_insert_eq).
  split; [|split; [done|split; [done|split; [done|split; [|split]]]]].
  - rewrite (completeRide_Some uid rid s ride Hr).
    rewrite bool_decide_eq_true_2 by done. simpl.
    rewrite bool_decide_eq_false_2; [done|]. rewrite Hst. done.
  - rewrite (startRide_Some tz now' uid rid s2 _ Hr2). simpl.
    rewrite bool_decide_eq_true_2 by done. simpl. done.
  - rewrite (completeRide_Some uid rid s2 _ Hr2). simpl.
    rewrite bool_decide_eq_true_2 by done. simpl. done.
  - intros other Hne. rewrite (completeRide_Some other rid s1 _ Hr1). simpl.
    rewrite bool_decide_eq_false_2; [done|]. congruence.
Qed.

(** ** What a request leaves alone *)

Section Frames.
Variable tz : Z.
Variable parseDate : string → option Z.

(** The outcomes of [/cancel] on the store, with the rows they start
    from. *)
Lemma cancelRide_outcomes now uid rid s :
  (cancelRide tz now uid rid s).1 = s ∨
  (∃ rp ride u,
     participants s !! (rid, uid) = Some rp ∧ rides s !! rid = Some ride ∧
     users s !! uid = Some u ∧
     (cancelRide tz now uid rid s).1
       = participant_cancelled_store now uid rid
           (participant_penalty tz now ride rp) rp ride u s) ∨
  (∃ ride u,
     participants s !! (rid, uid) = None ∧ rides s !! rid = Some ride ∧
     driver_id ride = uid ∧ users s !! uid = Some u ∧
     (cancelRide tz now uid rid s).1
       = driver_cancelled_store tz now uid rid
           (head (booked_participants_asc rid s)) ride u s).
Proof.
  destruct (participants s !! (rid, uid)) as [rp|] eqn:Hp;
    destruct (rides s !! rid) as [ride|] eqn:Hr;
    destruct (users s !! uid) as [u|] eqn:Hu.
  - right; left. exists rp, ride, u.
    by rewrite (cancel_participant_run tz now uid rid s rp ride u).
  - left. unfold cancelRide, transaction. rewrite Hp, Hr.
    by rewrite participant_cancel_tx_no_user.
  - left. unfold cancelRide. by rewrite Hp, Hr.
  - left. unfold cancelRide. by rewrite Hp, Hr.
  - destruct (decide (driver_id ride = uid)) as [Hd|Hd].
    + right; right. exists ride, u.
      by rewrite (cancel_driver_run tz now uid rid s ride u).
    + left. unfold cancelRide. rewrite Hp, Hr. by rewrite bool_decide_eq_false_2.
  - left. unfold cancelRide, transaction. rewrite Hp, Hr.
    case_bool_decide; [|done]. simpl. by rewrite driver_cancel_tx_no_user.
  - left. unfold cancelRide. by rewrite Hp, Hr.
  - left. unfold cancelRide. by rewrite Hp, Hr.
Qed.

Lemma createRide_store uid body vid rid s :
  let s' := (createRide parseDate uid body vid rid s).1 in
  users s' = users s ∧ participants s' = participants s ∧
  cancellations s' = cancellations s ∧
  (rides s' = rides s ∨
   ∃ ride, rides s !! rid = None ∧ rides s' = <[rid := ride]> (rides s) ∧
           driver_id ride = uid ∧ status ride = open ∧
           1 ≤ max_passengers ride ≤ 6 ∧ (0 < total_fare ride)%Q).
Proof.
  unfold createRide. destruct (rideCreateSchema body) as [data|] eqn:Hd; simpl; [|tauto].
  destruct (parseDate (rc_start_date data)); [|simpl; tauto].
  destruct (parseDate (rc_start_time data)); [|simpl; tauto].
  destruct (rides s !! rid) eqn:Hr; simpl; [tauto|].
  repeat split; try done. right. eexists. repeat split; try done; simpl.
  - apply rideCreateSchema_Some in Hd as [Hd _].
    apply z_number_int_min_max_Some in Hd as (q & _ & _ & Hrange). lia.
  - apply rideCreateSchema_Some in Hd as [Hd _].
    apply z_number_int_min_max_Some in Hd as (q & _ & _ & Hrange). lia.
  - revert Hd. unfold rideCreateSchema.
    repeat (match goal with
            | |- context [mbind _ ?o] => destruct o eqn:?; simpl; [|done]
            end).
    intros [= <-]. simpl.
    match goal with
    | H : z_number_positive _ = Some _ |- _ =>
        unfold z_number_positive in H; repeat case_match; try done;
        injection H as <-
    end.
    by apply Qltb_lt.
Qed.

Lemma joinRide_store now uid rid s :
  let s' := (joinRide now uid rid s).1 in
  users s' = users s ∧ rides s' = rides s ∧ cancellations s' = cancellations s.
Proof.
  destruct (joinRide now uid rid s) as [s' [p|e]] eqn:E; simpl.
  - apply join_Ok_inv in E as (ride & _ & _ & _ & _ & _ & _ & _ & _ & ->). done.
  - by apply join_Err_store in E as ->.
Qed.

Lemma startRide_store now uid rid s :
  let s' := (startRide tz now uid rid s).1 in
  users s' = users s ∧ participants s' = participants s ∧
  cancellations s' = cancellations s ∧
  (rides s' = rides s ∨
   ∃ ride, rides s !! rid = Some ride ∧ rides s' = <[rid := with_status active ride]> (rides s)).
Proof.
  unfold startRide. destruct (rides s !! rid) as [ride|] eqn:Hr; simpl; [|tauto].
  repeat case_match; simpl; try tauto. repeat split; try done. right. eauto.
Qed.

Lemma completeRide_store uid rid s :
  let s' := (completeRide uid rid s).1 in
  users s' = users s ∧ participants s' = participants s ∧
  cancellations s' = cancellations s ∧
  (rides s' = rides s ∨
   ∃ ride, rides s !! rid = Some ride ∧
           rides s' = <[rid := with_status completed ride]> (rides s)).
Proof.
  unfold completeRide. destruct (rides s !! rid) as [ride|] eqn:Hr; simpl; [|tauto].
  repeat case_match; simpl; try tauto. repeat split; try done. right. eauto.
Qed.

Lemma same_ride_terms_refl r : same_ride_terms r r.
Proof. by repeat split. Qed.

Lemma lookup_insert_same_terms (rs : gmap string Ride) rid ride ride' rid0 r :
  rs !! rid = Some ride → same_ride_terms ride ride' →
  rs !! rid0 = Some r →
  ∃ r', <[rid := ride']> rs !! rid0 = Some r' ∧ same_ride_terms r r'.
Proof.
  intros Hr Hsame H0. destruct (decide (rid = rid0)) as [<-|Hne].
  - rewrite lookup_insert_eq. rewrite Hr in H0. injection H0 as <-. eauto.
  - rewrite lookup_insert_ne by done. eauto using same_ride_terms_refl.
Qed.

Lemma handle_ride_terms now req s rid r :
  rides s !! rid = Some r →
  ∃ r', rides (handle tz parseDate now req s) !! rid = Some r' ∧ same_ride_terms r r'.
Proof.
  intros Hr. destruct req as [uid body vid rid1|uid rid1|uid rid1|uid rid1|uid rid1]; simpl.
  - destruct (createRide_store uid body vid rid1 s) as (_ & _ & _ & [->|(ride & Hn & -> & _)]).
    + eauto using same_ride_terms_refl.
    + rewrite lookup_insert_ne by congruence. eauto using same_ride_terms_refl.
  - destruct (joinRide_store now uid rid1 s) as (_ & -> & _).
    eauto using same_ride_terms_refl.
  - destruct (startRide_store now uid rid1 s) as (_ & _ & _ & [->|(ride & Hr1 & ->)]).
    + eauto using same_ride_terms_refl.
    + by apply (lookup_insert_same_terms _ _ ride).
  - destruct (completeRide_store uid rid1 s) as (_ & _ & _ & [->|(ride & Hr1 & ->)]).
    + eauto using same_ride_terms_refl.
    + by apply (lookup_insert_same_terms _ _ ride).
  - destruct (cancelRide_outcomes now uid rid1 s)
      as [->|[(rp & ride & u & _ & Hr1 & _ & ->)|(ride & u & _ & Hr1 & _ & _ & ->)]].
    + eauto using same_ride_terms_refl.
    + simpl. destruct (Nat.eqb _ 0); [|eauto using same_ride_terms_refl].
      by apply (lookup_insert_same_terms _ _ ride).
    + simpl. destruct (head _); by apply (lookup_insert_same_terms _ _ ride).
Qed.

(** X2. No request deletes a ride, and none changes a ride's vehicle,
    locations, start date, start time, total fare or [max_passengers]: only
    [driver_id] and [status] are ever written. *)
Theorem requests_keep_ride_terms now req s rid r :
  rides s !! rid = Some r →
  ∃ r', rides (handle tz parseDate now req s) !! rid = Some r' ∧ same_ride_terms r r'.
Proof. apply handle_ride_terms. Qed.

(** X3. The cancellation log only grows, by at most one row per request:
    a request leaves it as it was or, when it is a [/cancel], appends one row
    with the caller, the ride asked for and the instant of the request. *)
Theorem cancellation_log_append_only now req s :
  cancellations (handle tz parseDate now req s) = cancellations s ∨
  ∃ uid rid,
    req = ReqCancel uid rid ∧
    cancellations (handle tz parseDate now req s)
      = cancellations s ++ [mkCancellation rid uid now].
Proof.
  destruct req as [uid body vid rid1|uid rid1|uid rid1|uid rid1|uid rid1]; simpl.
  - left. by destruct (createRide_store uid body vid rid1 s) as (_ & _ & -> & _).
  - left. by destruct (joinRide_store now uid rid1 s) as (_ & _ & ->).
  - left. by destruct (startRide_store now uid rid1 s) as (_ & _ & -> & _).
  - left. by destruct (completeRide_store uid rid1 s) as (_ & _ & -> & _).
  - destruct (cancelRide_outcomes now uid rid1 s)
      as [->|[(rp & ride & u & _ & _ & _ & ->)|(ride & u & _ & _ & _ & _ & ->)]];
      [by left|right; eauto..].
Qed.

Lemma cancellations_of_app uid l l' :
  cancellations_of uid (l ++ l') = (cancellations_of uid l + cancellations_of uid l')%nat.
Proof. unfold cancellations_of. by rewrite filter_app, length_app. Qed.

Lemma cancellations_of_snoc uid l c :
  cancellations_of uid (l ++ [c])
  = (cancellations_of uid l + (if decide (rc_user_id c = uid) then 1 else 0))%nat.
Proof.
  rewrite cancellations_of_app. f_equal. unfold cancellations_of.
  destruct (decide (rc_user_id c = uid)).
  - by rewrite filter_cons_True.
  - by rewrite filter_cons_False.
Qed.

Lemma driver_penalty_cases now ride :
  driver_penalty tz now ride = 5%Q ∨ driver_penalty tz now ride = 2%Q.
Proof. unfold driver_penalty. destruct (Qltb _ _); auto. Qed.

(** X4. The counters of a user move only with that user's own
    cancellations, and in step with the log: over any request, a user's
    [cancellation_count] grows by exactly the number of log rows the request
    adds for that user (one or none), and [credibility_score] is unchanged
    when no row is added and lowered by 5 or by 2 when one is. A user without
    a row gets none and adds nothing to the log. *)
Theorem counters_follow_log now req s uid :
  let s' := handle tz parseDate now req s in
  let added := (Z.of_nat (cancellations_of uid (cancellations s'))
                - Z.of_nat (cancellations_of uid (cancellations s))) in
  (0 ≤ added ≤ 1) ∧
  (added = 1 → cancel_caller req = Some uid) ∧
  match users s !! uid with
  | None => users s' !! uid = None ∧ added = 0
  | Some u =>
      ∃ u', users s' !! uid = Some u' ∧
            cancellation_count u' = cancellation_count u + added ∧
            (added = 0 → credibility_score u' = credibility_score u) ∧
            (added = 1 → credibility_score u' = (credibility_score u - 5)%Q ∨
                         credibility_score u' = (credibility_score u - 2)%Q)
  end.
Proof.
  assert (Hsame : ∀ s' : Store,
    users s' = users s → cancellations s' = cancellations s →
    let added := (Z.of_nat (cancellations_of uid (cancellations s'))
                  - Z.of_nat (cancellations_of uid (cancellations s))) in
    (0 ≤ added ≤ 1) ∧ (added = 1 → cancel_caller req = Some uid) ∧
    match users s !! uid with
    | None => users s' !! uid = None ∧ added = 0
    | Some u =>
        ∃ u', users s' !! uid = Some u' ∧
              cancellation_count u' = cancellation_count u + added ∧
              (added = 0 → credibility_score u' = credibility_score u) ∧
              (added = 1 → credibility_score u' = (credibility_score u - 5)%Q ∨
                           credibility_score u' = (credibility_score u - 2)%Q)
    end).
  { intros s' Hu Hc added.
    assert (Hadd : added = 0) by (unfold added; rewrite Hc; lia).
    rewrite Hadd, Hu. clear Hadd added.
    split; [lia|]. split; [lia|].
    destruct (users s !! uid) as [u|]; [|done].
    exists u. split; [done|]. split; [lia|]. split; [done|]. lia. }
  assert (Hrow : ∀ (s' : Store) caller rid1 u d,
    req = ReqCancel caller rid1 →
    users s !! caller = Some u →
    users s' = <[caller := penalise d u]> (users s) →
    cancellations s' = cancellations s ++ [mkCancellation rid1 caller now] →
    d = 5%Q ∨ d = 2%Q →
    let added := (Z.of_nat (cancellations_of uid (cancellations s'))
                  - Z.of_nat (cancellations_of uid (cancellations s))) in
    (0 ≤ added ≤ 1) ∧ (added = 1 → cancel_caller req = Some uid) ∧
    match users s !! uid with
    | None => users s' !! uid = None ∧ added = 0
    | Some u =>
        ∃ u', users s' !! uid = Some u' ∧
              cancellation_count u' = cancellation_count u + added ∧
              (added = 0 → credibility_score u' = credibility_score u) ∧
              (added = 1 → credibility_score u' = (credibility_score u - 5)%Q ∨
                           credibility_score u' = (credibility_score u - 2)%Q)
    end).
  { intros s' caller rid1 u d -> Hu Hus Hcs Hd added.
    assert (Hadd : added = if decide (caller = uid) then 1 else 0).
    { unfold added. rewrite Hcs, cancellations_of_snoc. simpl.
      destruct (decide (caller = uid)); lia. }
    rewrite Hadd, Hus. clear Hadd added.
    destruct (decide (caller = uid)) as [->|Hne].
    - split; [lia|]. split; [done|]. rewrite Hu.
      exists (penalise d u). rewrite lookup_insert_eq. simpl.
      split; [done|]. split; [done|]. split; [lia|].
      intros _. destruct Hd as [-> | ->]; auto.
    - split; [lia|]. split; [lia|]. rewrite lookup_insert_ne by done.
      destruct (users s !! uid) as [u0|]; [|done].
      exists u0. split; [done|]. split; [lia|]. split; [done|]. lia. }
  destruct req as [caller body vid rid1|caller rid1|caller rid1|caller rid1|caller rid1];
    simpl handle.
  - destruct (createRide_store caller body vid rid1 s) as (Hu & _ & Hc & _). by apply Hsame.
  - destruct (joinRide_store now caller rid1 s) as (Hu & _ & Hc). by apply Hsame.
  - destruct (startRide_store now caller rid1 s) as (Hu & _ & Hc & _). by apply Hsame.
  - destruct (completeRide_store caller rid1 s) as (Hu & _ & Hc & _). by apply Hsame.
  - destruct (cancelRide_outcomes now caller rid1 s)
      as [E|[(rp & ride & u & _ & _ & Hu & E)|(ride & u & _ & _ & _ & Hu & E)]]; rewrite E.
    + by apply Hsame.
    + apply (Hrow _ caller rid1 u (credibility_decrement (participant_penalty tz now ride rp)));
        try done. apply credibility_decrement_cases.
    + apply (Hrow _ caller rid1 u (driver_penalty tz now ride)); try done.
      apply driver_penalty_cases.
Qed.
End Frames.

(** ** Invariants of the reachable stores *)

Section MoreInvariants.
Variable tz : Z.
Variable parseDate : string → option Z.

Lemma store_ok_empty : store_ok empty_store.
Proof.
  unfold store_ok, participants_have_rides, driver_has_no_record,
    rides_within_schema, shares_split_fare. simpl.
  repeat split; intros; repeat
    match goal with H : ∅ !! _ = Some _ |- _ => by rewrite lookup_empty in H end.
Qed.

Lemma store_ok_users s us : store_ok s → store_ok (set_users (λ _, us) s).
Proof. done. Qed.

(** Steps that write no participation but a cancelled mark or a deletion,
    and no ride column but [driver_id] and [status]. *)
Lemma shares_kept s s' :
  (∀ rid r, rides s !! rid = Some r →
            ∃ r', rides s' !! rid = Some r' ∧ same_ride_terms r r') →
  (∀ k p, participants s' !! k = Some p →
          ∃ p0, participants s !! k = Some p0 ∧ share_fare p = share_fare p0) →
  shares_split_fare s → shares_split_fare s'.
Proof.
  intros Hrides Hparts Hs rid uid p Hp.
  destruct (Hparts _ _ Hp) as (p0 & Hp0 & ->).
  destruct (Hs rid uid p0 Hp0) as (ride & n & Hr & Hn & Hshare).
  destruct (Hrides rid ride Hr) as (r' & Hr' & _ & _ & _ & _ & _ & Hfare & Hmax).
  exists r', n. rewrite Hfare, Hmax. done.
Qed.

Lemma schema_kept s s' :
  (∀ rid r', rides s' !! rid = Some r' →
             (∃ r, rides s !! rid = Some r ∧ same_ride_terms r r') ∨
             (1 ≤ max_passengers r' ≤ 6 ∧ (0 < total_fare r')%Q)) →
  rides_within_schema s → rides_within_schema s'.
Proof.
  intros Hrides Hs rid r' Hr'.
  destruct (Hrides rid r' Hr') as [(r & Hr & _ & _ & _ & _ & _ & Hfare & Hmax)|H]; [|done].
  rewrite Hfare, Hmax. by apply (Hs rid r).
Qed.

Lemma lookup_insert_origin (rs : gmap string Ride) rid ride ride' rid0 r' :
  rs !! rid = Some ride → same_ride_terms ride ride' →
  <[rid := ride']> rs !! rid0 = Some r' →
  ∃ r, rs !! rid0 = Some r ∧ same_ride_terms r r' ∧
       (rid0 ≠ rid → r' = r) ∧ (rid0 = rid → r' = ride' ∧ r = ride).
Proof.
  intros Hr Hsame. destruct (decide (rid = rid0)) as [<-|Hne].
  - rewrite lookup_insert_eq. intros [= <-]. exists ride.
    split; [done|]. split; [done|]. split; done.
  - rewrite lookup_insert_ne by done. intros H0. exists r'.
    split; [done|]. split; [apply same_ride_terms_refl|]. split; [done|]. congruence.
Qed.

Lemma with_status_terms st r : same_ride_terms r (with_status st r).
Proof. by repeat split. Qed.

Lemma with_driver_status_terms d st r : same_ride_terms r (with_driver_status d st r).
Proof. by repeat split. Qed.

(** A step that only rewrites the status of one ride. *)
Lemma store_ok_status s rid ride st :
  rides s !! rid = Some ride →
  store_ok s → store_ok (set_rides (insert rid (with_status st ride)) s).
Proof.
  intros Hr (Hphr & Hdnr & Hrws & Hssf). split; [|split; [|split]].
  - intros k p Hk. simpl in *. apply is_Some_lookup_insert. by apply (Hphr k p).
  - intros rid0 r' Hr'. simpl in *.
    destruct (lookup_insert_origin _ _ _ _ _ _ Hr (with_status_terms st ride) Hr')
      as (r & Hr0 & _ & Hne & Heq).
    destruct (decide (rid0 = rid)) as [->|Hn].
    + destruct (Heq eq_refl) as [-> ->]. simpl. by apply (Hdnr rid ride).
    + rewrite (Hne Hn). by apply (Hdnr rid0 r).
  - revert Hrws. apply schema_kept. intros rid0 r' Hr'. simpl in *. left.
    destruct (lookup_insert_origin _ _ _ _ _ _ Hr (with_status_terms st ride) Hr')
      as (r & Hr0 & Hsame & _). eauto.
  - revert Hssf. apply shares_kept; simpl; [|eauto].
    intros rid0 r Hr0. by apply (lookup_insert_same_terms _ _ ride).
Qed.

Lemma create_store_ok uid body vid rid s :
  store_ok s → store_ok (createRide parseDate uid body vid rid s).1.
Proof.
  intros (Hphr & Hdnr & Hrws & Hssf).
  destruct (createRide_store parseDate uid body vid rid s)
    as (_ & Hps & _ & [Hrs|(ride & Hfresh & Hrs & Hd & _ & Hmax & Hfare)]).
  - split; [|split; [|split]]; intros ?; intros.
    + rewrite Hrs. rewrite Hps in *. eauto.
    + rewrite Hrs in *. rewrite Hps. eauto.
    + rewrite Hrs in *. eauto.
    + rewrite Hrs. rewrite Hps in *. eauto.
  - split; [|split; [|split]].
    + intros k p Hk. rewrite Hrs. rewrite Hps in Hk.
      apply is_Some_lookup_insert. by apply (Hphr k p).
    + intros rid0 r' Hr'. rewrite Hrs in Hr'. rewrite Hps.
      destruct (decide (rid = rid0)) as [<-|Hne].
      * rewrite lookup_insert_eq in Hr'. injection Hr' as <-.
        destruct (participants s !! (rid, driver_id ride)) as [p|] eqn:Hp; [|done].
        destruct (Hphr _ _ Hp) as [r Hr]. simpl in Hr. congruence.
      * rewrite lookup_insert_ne in Hr' by done. by apply (Hdnr rid0 r').
    + intros rid0 r' Hr'. rewrite Hrs in Hr'.
      destruct (decide (rid = rid0)) as [<-|Hne].
      * rewrite lookup_insert_eq in Hr'. by injection Hr' as <-.
      * rewrite lookup_insert_ne in Hr' by done. by apply (Hrws rid0 r').
    + intros rid0 u p Hp. rewrite Hps in Hp. rewrite Hrs.
      destruct (Hssf rid0 u p Hp) as (r & n & Hr & Hn & Hshare).
      exists r, n. rewrite lookup_insert_ne by congruence. done.
Qed.

Lemma join_store_ok now uid rid s :
  store_ok s → store_ok (joinRide now uid rid s).1.
Proof.
  intros (Hphr & Hdnr & Hrws & Hssf).
  destruct (joinRide now uid rid s) as [s' [p|e]] eqn:E; simpl.
  - apply join_Ok_inv in E
      as (ride & Hr & _ & Hd & _ & Hroom & _ & _ & Hshare & ->).
    split; [|split; [|split]].
    + intros k q. simpl. destruct (decide (k = (rid, uid))) as [->|Hne].
      * intros _. simpl. eauto.
      * rewrite lookup_insert_ne by done. apply Hphr.
    + intros rid0 r0 Hr0. simpl in *.
      rewrite lookup_insert_ne; [by apply (Hdnr rid0 r0)|].
      intros Heq. injection Heq as Hrid Hu. subst rid0.
      rewrite Hr in Hr0. injection Hr0 as <-. done.
    + done.
    + intros rid0 u q. simpl. destruct (decide ((rid0, u) = (rid, uid))) as [[= -> ->]|Hne].
      * rewrite lookup_insert_eq. intros [= <-].
        exists ride, (Z.of_nat (booked_count rid s) + 1 + 1). split; [done|].
        split; [lia|done].
      * rewrite lookup_insert_ne by done. apply Hssf.
  - by apply join_Err_store in E as ->.
Qed.

Lemma start_store_ok now uid rid s :
  store_ok s → store_ok (startRide tz now uid rid s).1.
Proof.
  intros Hok. unfold startRide. destruct (rides s !! rid) as [ride|] eqn:Hr; [|done].
  repeat case_match; try done. simpl. by apply store_ok_status.
Qed.

Lemma complete_store_ok uid rid s :
  store_ok s → store_ok (completeRide uid rid s).1.
Proof.
  intros Hok. unfold completeRide. destruct (rides s !! rid) as [ride|] eqn:Hr; [|done].
  repeat case_match; try done. simpl. by apply store_ok_status.
Qed.

Lemma cancel_store_ok now uid rid s :
  store_ok s → store_ok (cancelRide tz now uid rid s).1.
Proof.
  intros Hok.
  destruct (cancelRide_outcomes tz now uid rid s)
    as [->|[(rp & ride & u & Hp & Hr & _ & ->)|(ride & u & Hp & Hr & Hd & _ & ->)]];
    [done|..].
  - (* a participant's cancellation: a cancelled mark, then perhaps a reopening *)
    assert (Hmark : store_ok (set_participants (insert (rid, uid) (mark_cancelled rp)) s)).
    { destruct Hok as (Hphr & Hdnr & Hrws & Hssf). split; [|split; [|split]].
      - intros k q. simpl. destruct (decide (k = (rid, uid))) as [->|Hne].
        + intros _. simpl. eauto.
        + rewrite lookup_insert_ne by done. apply Hphr.
      - intros rid0 r0 Hr0. simpl in *.
        rewrite lookup_insert_ne; [by apply (Hdnr rid0 r0)|].
        intros Heq. injection Heq as Hrid Hu. subst rid0.
        rewrite Hr in Hr0. injection Hr0 as <-.
        pose proof (Hdnr rid ride Hr) as Hnone. rewrite <-Hu in Hnone. congruence.
      - done.
      - revert Hssf. apply shares_kept; simpl; [eauto using same_ride_terms_refl|].
        intros k q. destruct (decide (k = (rid, uid))) as [->|Hne].
        + rewrite lookup_insert_eq. intros [= <-]. eauto.
        + rewrite lookup_insert_ne by done. eauto. }
    unfold participant_cancelled_store.
    destruct (Nat.eqb _ 0).
    + apply (store_ok_status _ rid ride open) in Hmark; [|done].
      destruct Hmark as (H1 & H2 & H3 & H4). split; [|split; [|split]]; done.
    + destruct Hmark as (H1 & H2 & H3 & H4). split; [|split; [|split]]; done.
  - (* a driver's cancellation *)
    destruct Hok as (Hphr & Hdnr & Hrws & Hssf).
    destruct (head (booked_participants_asc rid s)) as [[[r w] fp]|] eqn:E.
    + apply first_booked_Some in E as (Hl & Hrid & _). simpl in Hrid, Hl. subst r.
      unfold driver_cancelled_store. simpl. split; [|split; [|split]].
      * intros k q. simpl. intros Hk. apply lookup_delete_Some in Hk as [_ Hk].
        apply is_Some_lookup_insert. by apply (Hphr k q).
      * intros rid0 r' Hr'. simpl in *.
        destruct (lookup_insert_origin _ _ _ _ _ _ Hr
                    (with_driver_status_terms w open ride) Hr')
          as (r0 & Hr0 & _ & Hne & Heq).
        destruct (decide (rid0 = rid)) as [->|Hn].
        -- destruct (Heq eq_refl) as [-> _]. simpl. apply lookup_delete_eq.
        -- rewrite (Hne Hn). rewrite lookup_delete_ne by congruence.
           by apply (Hdnr rid0 r0).
      * revert Hrws. apply schema_kept. intros rid0 r' Hr'. simpl in *. left.
        destruct (lookup_insert_origin _ _ _ _ _ _ Hr
                    (with_driver_status_terms w open ride) Hr')
          as (r0 & Hr0 & Hsame & _). eauto.
      * revert Hssf. apply shares_kept; simpl.
        -- intros rid0 r0 Hr0. by apply (lookup_insert_same_terms _ _ ride).
        -- intros k q Hk. apply lookup_delete_Some in Hk as [_ Hk]. eauto.
    + assert (Hst : store_ok (set_rides (insert rid (with_status cancelled ride)) s))
        by (by apply store_ok_status).
      destruct Hst as (H1 & H2 & H3 & H4). split; [|split; [|split]]; done.
Qed.

Lemma handle_store_ok now req s :
  store_ok s → store_ok (handle tz parseDate now req s).
Proof.
  destruct req; simpl.
  - apply create_store_ok.
  - apply join_store_ok.
  - apply start_store_ok.
  - apply complete_store_ok.
  - apply cancel_store_ok.
Qed.

Lemma reachable_store_ok s : reachable tz parseDate s → store_ok s.
Proof.
  induction 1 as [|s us _ IH|s now req _ IH].
  - apply store_ok_empty.
  - by apply store_ok_users.
  - by apply handle_store_ok.
Qed.
End MoreInvariants.


(** X5. In every store the service can reach, the driver of a ride has no
    participation row on that ride; so a [/cancel] by the driver is always
    served by the driver branch and, when the driver's user row exists,
    succeeds whatever the status of the ride. *)
Theorem driver_cancel_takes_driver_branch tz parseDate s rid ride :
  reachable tz parseDate s →
  rides s !! rid = Some ride →
  participants s !! (rid, driver_id ride) = None ∧
  ∀ now u, users s !! driver_id ride = Some u →
    cancelRide tz now (driver_id ride) rid s
      = (driver_cancelled_store tz now (driver_id ride) rid
           (head (booked_participants_asc rid s)) ride u s,
         Ok (DriverCancelled (bool_decide (is_Some (head (booked_participants_asc rid s)))))).
Proof.
  intros Hreach Hr.
  destruct (reachable_store_ok tz parseDate s Hreach) as (_ & Hdnr & _).
  split; [by apply (Hdnr rid ride)|].
  intros now u Hu. apply cancel_driver_run; try done. by apply (Hdnr rid ride).
Qed.


(** X7. In every store the service can reach, every ride has a whole
    [max_passengers] within 1-6 and a positive total fare, and every
    participation belongs to a ride of the store. *)
Theorem reachable_rows_well_formed tz parseDate s :
  reachable tz parseDate s →
  (∀ rid ride, rides s !! rid = Some ride →
               1 ≤ max_passengers ride ≤ 6 ∧ (0 < total_fare ride)%Q) ∧
  (∀ rid uid p, participants s !! (rid, uid) = Some p → is_Some (rides s !! rid)).
Proof.
  intros Hreach.
  destruct (reachable_store_ok tz parseDate s Hreach) as (Hphr & _ & Hrws & _).
  split; [done|]. intros rid uid p Hp. by apply (Hphr (rid, uid) p).
Qed.

(** ** Joining again, cancelling again *)

(** X8. [/join] replies [AlreadyBooked] only for a ride whose [start_date]
    is already past: when the caller's booked participation is on an open
    ride, not the caller's own, whose [start_date] is not before now, the
    active-booking guard answers first. *)
Theorem already_booked_only_when_past now uid rid s :
  (∀ s', joinRide now uid rid s = (s', Err AlreadyBooked) →
     s' = s ∧
     ∃ ride rp, rides s !! rid = Some ride ∧ status ride = open ∧
                participants s !! (rid, uid) = Some rp ∧ rp_status rp = booked ∧
                start_date ride < now) ∧
  (∀ ride rp, rides s !! rid = Some ride → status ride = open →
     driver_id ride ≠ uid →
     participants s !! (rid, uid) = Some rp → rp_status rp = booked →
     now ≤ start_date ride →
     joinRide now uid rid s = (s, Err AlreadyInActiveRide)).
Proof.
  split.
  - intros s' H. split; [by apply join_Err_store in H|].
    revert H. unfold joinRide.
    destruct (rides s !! rid) as [ride|] eqn:Hr; [|done].
    case_bool_decide as Hst; [|done]. simpl.
    case_bool_decide as Hd; [done|].
    destruct (find_active_booking now uid s) eqn:Ha; [done|].
    destruct (_ <=? _); [done|].
    destruct (participants s !! (rid, uid)) as [rp|] eqn:Hp; [|done].
    case_bool_decide as Hb; [|done]. intros _.
    exists ride, rp. repeat split; try done.
    rewrite find_active_booking_None in Ha. specialize (Ha _ _ Hp).
    destruct (Z_lt_le_dec (start_date ride) now) as [|Hle]; [done|].
    assert (active_booking_where now uid s ((rid, uid), rp) = true); [|congruence].
    apply active_booking_where_true. simpl. eauto 10.
  - intros ride rp Hr Hst Hd Hp Hb Hdate.
    by apply (join_refused_by_active_booking now uid rid s ride rid ride rp).
Qed.

Lemma join_fresh_run now uid rid s s' p :
  participants s !! (rid, uid) = None →
  joinRide now uid rid s = (s', Ok p) →
  ∃ ride,
    rides s !! rid = Some ride ∧ status ride = open ∧
    p = mkParticipant booked
          (total_fare ride / inject_Z (Z.of_nat (booked_count rid s) + 1 + 1))%Q now ∧
    s' = set_participants (insert (rid, uid) p) s.
Proof.
  intros Hn H. pose proof H as H'.
  apply join_Ok_inv in H' as (ride & Hr & Hst & Hd & Ha & Hroom & _ & _ & _ & Hs').
  exists ride. split; [done|]. split; [done|].
  destruct (join_guards now uid rid s ride Hr) as (_ & _ & _ & _ & _ & Hnew).
  rewrite (Hnew Hst Hd Ha Hroom Hn) in H. by injection H as <- <-.
Qed.

Lemma join_again_run now uid rid s s' p e :
  participants s !! (rid, uid) = Some e →
  joinRide now uid rid s = (s', Ok p) →
  ∃ ride,
    rides s !! rid = Some ride ∧ status ride = open ∧ rp_status e = p_cancelled ∧
    p = mkParticipant booked
          (total_fare ride / inject_Z (Z.of_nat (booked_count rid s) + 1 + 1))%Q
          (booking_time e) ∧
    s' = set_participants (insert (rid, uid) p) s.
Proof.
  intros He H. pose proof H as H'.
  apply join_Ok_inv in H' as (ride & Hr & Hst & Hd & Ha & Hroom & Hc & _ & _ & Hs').
  exists ride. split; [done|]. split; [done|]. split; [by apply Hc|].
  destruct (join_guards now uid rid s ride Hr) as (_ & _ & _ & _ & Hre & _).
  destruct (Hre Hst Hd Ha Hroom e He) as [_ Hre'].
  rewrite (Hre' (Hc e He)) in H. by injection H as <- <-.
Qed.

(** X9. Join, cancel, join again. A user without a participation on a
    ride joins it at [t1], cancels, and joins again at [t3]: the cancellation
    brings the ride's booked count back to what it was and leaves the row,
    marked cancelled; the second join reuses that row, with a share computed
    afresh and the [booking_time] of the first join, [t1], not [t3]. *)
Theorem rejoin_keeps_first_booking_time tz t1 t2 t3 uid rid s u s1 p1 s3 p3 :
  participants s !! (rid, uid) = None →
  users s !! uid = Some u →
  joinRide t1 uid rid s = (s1, Ok p1) →
  joinRide t3 uid rid (cancelRide tz t2 uid rid s1).1 = (s3, Ok p3) →
  let s2 := (cancelRide tz t2 uid rid s1).1 in
  booking_time p1 = t1 ∧
  participants s2 !! (rid, uid) = Some (mark_cancelled p1) ∧
  booked_count rid s2 = booked_count rid s ∧
  participants s3 !! (rid, uid) = Some p3 ∧
  rp_status p3 = booked ∧ booking_time p3 = t1 ∧
  ∃ ride, rides s !! rid = Some ride ∧
          share_fare p3 = (total_fare ride / inject_Z (Z.of_nat (booked_count rid s) + 2))%Q.
Proof.
  intros Hn Hu H1 H3 s2.
  apply (join_fresh_run t1 uid rid s s1 p1 Hn) in H1 as (ride & Hr & Hst & Hp1 & Hs1).
  assert (Hrun : cancelRide tz t2 uid rid s1
                 = (participant_cancelled_store t2 uid rid
                      (participant_penalty tz t2 ride p1) p1 ride u s1,
                    Ok (ParticipantCancelled (participant_penalty tz t2 ride p1)))).
  { apply cancel_participant_run; rewrite Hs1; simpl; try done. apply lookup_insert_eq. }
  assert (Hs2 : participants s2 = <[(rid, uid) := mark_cancelled p1]> (participants s)).
  { unfold s2. rewrite Hrun. simpl. rewrite Hs1. simpl. apply insert_insert_eq. }
  assert (Hc2 : booked_count rid s2 = booked_count rid s).
  { rewrite !booked_count_filter, Hs2.
    rewrite map_filter_insert_not'; [done|intros [_ ?]; done|].
    intros y Hy. congruence. }
  assert (Hp2 : participants s2 !! (rid, uid) = Some (mark_cancelled p1))
    by (rewrite Hs2; apply lookup_insert_eq).
  fold s2 in H3.
  apply (join_again_run t3 uid rid s2 s3 p3 _ Hp2) in H3
    as (ride2 & Hr2 & _ & _ & Hp3 & Hs3).
  assert (Hfare : total_fare ride2 = total_fare ride).
  { revert Hr2. unfold s2. rewrite Hrun. simpl. rewrite Hs1. simpl.
    destruct (Nat.eqb _ 0).
    - rewrite lookup_insert_eq. by intros [= <-].
    - rewrite Hr. by intros [= <-]. }
  split; [by rewrite Hp1|]. split; [done|]. split; [done|].
  split; [rewrite Hs3; simpl; apply lookup_insert_eq|].
  rewrite Hp3. simpl. split; [done|]. split; [by rewrite Hp1|].
  exists ride. split; [done|]. rewrite Hfare, Hc2. do 2 f_equal. lia.
Qed.

(** X10. A driver's cancellation does not look at the status of the ride:
    on a ride nobody is booked on, every further [/cancel] by the driver,
    also of the ride already cancelled, replies [cancelled] with
    [transferred = false], appends one more log row, adds 1 to the driver's
    [cancellation_count] and lowers the [credibility_score] by 5 or by 2. *)
Theorem driver_cancel_again_not_guarded tz uid rid nows s ride u :
  participants s !! (rid, uid) = None →
  rides s !! rid = Some ride →
  driver_id ride = uid →
  users s !! uid = Some u →
  (∀ v p, participants s !! (rid, v) = Some p → rp_status p ≠ booked) →
  let r := cancel_repeatedly tz uid rid nows s in
  Forall (λ reply, reply = Ok (DriverCancelled false)) r.2 ∧
  length r.2 = length nows ∧
  cancellations r.1 = cancellations s ++ map (mkCancellation rid uid) nows ∧
  participants r.1 = participants s ∧
  (nows ≠ [] → rides r.1 !! rid = Some (with_status cancelled ride)) ∧
  ∃ u' ds,
    users r.1 !! uid = Some u' ∧
    cancellation_count u' = cancellation_count u + Z.of_nat (length nows) ∧
    length ds = length nows ∧
    Forall (λ d, d = 5%Q ∨ d = 2%Q) ds ∧
    credibility_score u' = foldl Qminus (credibility_score u) ds.
Proof.
  intros Hp Hr Hd Hu Hnone.
  assert (Hhead : ∀ s0 : Store, participants s0 = participants s →
                    head (booked_participants_asc rid s0) = None).
  { intros s0 Hs0. destruct (head (booked_participants_asc rid s0)) as [fb|] eqn:E; [|done].
    apply first_booked_Some in E as (Hl & Hrid & Hb & _). rewrite Hs0 in Hl.
    destruct fb as [[r w] fp]. simpl in *. subst r. by destruct (Hnone w fp). }
  induction nows as [|now nows IH] using rev_ind.
  - simpl. split; [done|]. split; [done|]. split; [by rewrite app_nil_r|].
    split; [done|]. split; [done|].
    exists u, []. simpl. repeat split; eauto. lia.
  - unfold cancel_repeatedly in *. rewrite foldl_app. simpl.
    destruct (foldl _ (s, []) nows) as [s1 replies] eqn:Hfold. simpl in *.
    destruct IH as (Hall & Hlen & Hlog & Hps & Hride & u1 & ds & Hu1 & Hc1 & Hds & Hfa & Hcred).
    assert (Hr1 : ∃ ride1, rides s1 !! rid = Some ride1 ∧ driver_id ride1 = uid ∧
                           with_status cancelled ride1 = with_status cancelled ride).
    { destruct nows as [|n0 nows0].
      - simpl in Hfold. injection Hfold as <- <-. exists ride. done.
      - exists (with_status cancelled ride). rewrite Hride by done. done. }
    destruct Hr1 as (ride1 & Hr1 & Hd1 & Hsame).
    assert (Hp1 : participants s1 !! (rid, uid) = None) by (by rewrite Hps).
    rewrite (cancel_driver_run tz now uid rid s1 ride1 u1 Hp1 Hr1 Hd1 Hu1).
    rewrite (Hhead s1 Hps). simpl.
    split; [apply Forall_app; split; [done|]; by repeat constructor|].
    split; [rewrite !length_app; simpl; lia|].
    split; [by rewrite Hlog, map_app, <-app_assoc|].
    split; [done|].
    split; [intros _; by rewrite lookup_insert_eq, Hsame|].
    exists (penalise (driver_penalty tz now ride1) u1), (ds ++ [driver_penalty tz now ride1]).
    rewrite lookup_insert_eq, !length_app, foldl_app. simpl. rewrite <-Hcred.
    repeat split; try lia.
    apply Forall_app. split; [done|]. constructor; [|constructor].
    apply driver_penalty_cases.
Qed.

(** X11. After a driver's cancellation that hands the ride over, the
    former driver is a stranger to the ride: the ride is open under the new
    driver, neither of them has a participation row on it, and the former
    driver's [/cancel], [/start] and [/complete] are refused with
    [NotRideOwner] and change nothing, while [/join] no longer answers
    [CannotBookOwnRide]. *)
Theorem former_driver_after_transfer tz now now' uid rid s ride u :
  participants s !! (rid, uid) = None →
  rides s !! rid = Some ride →
  driver_id ride = uid →
  users s !! uid = Some u →
  (∃ v p, participants s !! (rid, v) = Some p ∧ rp_status p = booked) →
  let s' := (cancelRide tz now uid rid s).1 in
  ∃ w,
    w ≠ uid ∧
    rides s' !! rid = Some (with_driver_status w open ride) ∧
    participants s' !! (rid, w) = None ∧ participants s' !! (rid, uid) = None ∧
    cancelRide tz now' uid rid s' = (s', Err NotRideOwner) ∧
    startRide tz now' uid rid s' = (s', Err NotRideOwner) ∧
    completeRide uid rid s' = (s', Err NotRideOwner) ∧
    (joinRide now' uid rid s').2 ≠ Err CannotBookOwnRide.
Proof.
  intros Hp Hr Hd Hu (v & p & Hv & Hb) s'.
  pose proof (cancel_driver_run tz now uid rid s ride u Hp Hr Hd Hu) as Hrun.
  simpl in Hrun.
  destruct (head (booked_participants_asc rid s)) as [[[r w] fp]|] eqn:E.
  - apply first_booked_Some in E as (Hl & Hrid & _). simpl in Hl, Hrid. subst r.
    assert (Hw : w ≠ uid) by (intros ->; congruence).
    assert (Hr' : rides s' !! rid = Some (with_driver_status w open ride)).
    { unfold s'. rewrite Hrun. simpl. apply lookup_insert_eq. }
    assert (Hpu : participants s' !! (rid, uid) = None).
    { unfold s'. rewrite Hrun. simpl. rewrite lookup_delete_ne by congruence. done. }
    exists w. split; [done|]. split; [done|].
    split; [unfold s'; rewrite Hrun; simpl; apply lookup_delete_eq|].
    split; [done|].
    split; [|split; [|split]].
    + unfold cancelRide. rewrite Hpu, Hr'. simpl.
      by rewrite bool_decide_eq_false_2.
    + unfold startRide. rewrite Hr'. simpl. by rewrite bool_decide_eq_false_2.
    + unfold completeRide. rewrite Hr'. simpl. by rewrite bool_decide_eq_false_2.
    + unfold joinRide. rewrite Hr'. simpl.
      rewrite (bool_decide_eq_false_2 (w = uid)) by done.
      repeat case_match; simpl; done.
  - exfalso. by apply (first_booked_None rid s E (rid, v) p).
Qed.

(** ** The scheduled start *)

(** X12. [/start] and [/cancel] combine [start_date] and [start_time] into
    the same minute: the instant [/cancel] measures from is the scheduled
    start of [/start] with the seconds and milliseconds of [start_date]
    in place of those of [start_time]. The two differ by less than a minute
    and coincide when both columns fall on a whole minute. *)
Theorem cancel_and_start_agree_on_the_minute tz ride :
  let secs t := JsDate.localTime tz t mod JsDate.msPerMinute in
  startDateTime tz ride - rideStartDateTime tz ride
    = secs (start_date ride) - secs (start_time ride) ∧
  - JsDate.msPerMinute < startDateTime tz ride - rideStartDateTime tz ride
    < JsDate.msPerMinute ∧
  (secs (start_date ride) = 0 → secs (start_time ride) = 0 →
   startDateTime tz ride = rideStartDateTime tz ride).
Proof.
  unfold startDateTime, rideStartDateTime, JsDate.setHours, JsDate.make,
    JsDate.getHours, JsDate.getMinutes, JsDate.getSeconds, JsDate.getMilliseconds,
    JsDate.calendarDay, JsDate.msPerDay, JsDate.msPerHour, JsDate.msPerMinute,
    JsDate.msPerSecond.
  generalize (JsDate.localTime tz (start_time ride)) as t.
  generalize (JsDate.localTime tz (start_date ride)) as d. intros d t. simpl.
  repeat split; Z.div_mod_to_equations; lia.
Qed.

(** ** Reading rides *)

Section Sorting.
Context {A : Type} (lt : A → A → bool).

Lemma insert_sorted_perm x l : insert_sorted lt x l ≡ₚ x :: l.
Proof.
  induction l as [|y l IH]; simpl; [done|].
  destruct (lt x y); [done|]. rewrite IH. apply Permutation_swap.
Qed.

Lemma sort_by_perm l : sort_by lt l ≡ₚ l.
Proof.
  induction l as [|x l IH]; simpl; [done|].
  rewrite insert_sorted_perm. by rewrite IH.
Qed.

Lemma elem_of_sort_by x l : x ∈ sort_by lt l ↔ x ∈ l.
Proof. by rewrite sort_by_perm. Qed.
End Sorting.

Section SortingByKey.
Context {A : Type} (key : A → Z).
Local Abbreviation lt := (λ a b : A, key a <? key b).
Local Abbreviation le := (λ a b : A, key a ≤ key b).

Lemma insert_sorted_key x l :
  StronglySorted le l → StronglySorted le (insert_sorted lt x l).
Proof.
  induction 1 as [|y l Hs IH Hall]; simpl.
  - repeat constructor.
  - destruct (key x <? key y) eqn:E.
    + apply Z.ltb_lt in E. constructor; [by constructor|].
      constructor; [simpl; lia|].
      eapply Forall_impl; [exact Hall|]. intros; simpl in *; lia.
    + apply Z.ltb_ge in E. constructor; [done|].
      rewrite insert_sorted_perm. constructor; [done|done].
Qed.

Lemma sort_by_key_sorted l : StronglySorted le (sort_by lt l).
Proof.
  induction l as [|x l IH]; simpl; [constructor|]. by apply insert_sorted_key.
Qed.
End SortingByKey.

Lemma all_participants_fresh rid s :
  participants_have_rides s → rides s !! rid = None → all_participants rid s = [].
Proof.
  intros Hphr Hr. unfold all_participants, participants_of.
  apply map_to_list_empty_iff, map_empty_filter_2.
  intros k p Hk Hrid. simpl in Hrid. destruct (Hphr k p Hk) as [r Hr']. congruence.
Qed.

Lemma createRide_Ok_ride parseDate uid body vid rid s s' rid' ride :
  createRide parseDate uid body vid rid s = (s', Ok (rid', ride)) →
  driver_id ride = uid ∧ status ride = open ∧ 1 ≤ max_passengers ride ≤ 6 ∧
  (0 < total_fare ride)%Q.
Proof.
  intros H.
  pose proof (createRide_store parseDate uid body vid rid s) as Hst.
  rewrite H in Hst. simpl in Hst.
  apply createRide_Ok_inv in H as (data & _ & _ & Hfresh & _ & _ & ->).
  simpl in Hst.
  assert (Hl : <[rid:=ride]> (rides s) !! rid = Some ride) by apply lookup_insert_eq.
  destruct Hst as (_ & _ & _ & [Hrs|(r & _ & Hrs & Hd & Hs & Hmax & Hfare)]).
  - rewrite Hrs in Hl. congruence.
  - rewrite Hrs, lookup_insert_eq in Hl. by injection Hl as ->.
Qed.

(** X13. Create, then read. In a store the service can reach, a ride
    created with a non-empty identifier is what [GET /:id] sends next: the
    caller is its driver, its status is open, its [max_passengers] lies
    within 1-6 and its participant list is empty. Before, the identifier got
    [RideNotFound]. *)
Theorem created_ride_is_read_back tz parseDate uid body vid rid s s' ride :
  reachable tz parseDate s →
  rid ≠ "" →
  createRide parseDate uid body vid rid s = (s', Ok (rid, ride)) →
  (∃ veh, getRide rid s' = DetailsOk (mkRideView rid ride veh [])) ∧
  driver_id ride = uid ∧ status ride = open ∧ 1 ≤ max_passengers ride ≤ 6 ∧
  getRide rid s = DetailsNotFound.
Proof.
  intros Hreach Hid H.
  destruct (reachable_invariant tz parseDate s Hreach) as [Hphr _].
  destruct (createRide_Ok_ride _ _ _ _ _ _ _ _ _ H) as (Hd & Hst & Hmax & _).
  apply createRide_Ok_inv in H as (data & _ & _ & Hfresh & _ & _ & ->).
  assert (Hne : String.eqb rid "" = false) by (by apply String.eqb_neq).
  unfold getRide. rewrite Hne. simpl. rewrite lookup_insert_eq, Hfresh.
  split; [|done].
  eexists. f_equal. f_equal. by apply (all_participants_fresh rid s).
Qed.

(** X14. [RideController.createRide] and the route [POST /] are the same
    function of the request and the store: skipping the vehicle write when
    the type is unchanged gives the store, and the reply, that rewriting it
    gives. *)
Theorem controller_createRide_agrees parseDate uid body vid rid s :
  controller_createRide parseDate uid body vid rid s
  = createRide parseDate uid body vid rid s.
Proof.
  unfold controller_createRide, createRide.
  destruct (rideCreateSchema body) as [data|]; [|done].
  destruct (vehicles s !! uid) as [v|] eqn:Hv; [|done].
  case_bool_decide as Hty; [done|].
  assert (Hsame : vehicle_type v = rc_vehicle_type data).
  { destruct (decide (vehicle_type v = rc_vehicle_type data)); [done|]. by destruct Hty. }
  assert (Hveh : mkVehicle (vehicle_id v) (rc_vehicle_type data) = v)
    by (rewrite <-Hsame; by destruct v).
  rewrite Hveh.
  assert (Hs : set_vehicles (insert uid v) s = s).
  { destruct s as [us vs rs ps cs]. unfold set_vehicles. simpl in *.
    by rewrite insert_id. }
  rewrite Hs. done.
Qed.


Section Reading.
Variable tz : Z.
Variable parseDate : string → option Z.
Variable contains_insensitive : string → string → bool.

Lemma elem_of_search_query start end_ searchDate now s v :
  v ∈ search_query contains_insensitive start end_ searchDate now s ↔
  rides s !! view_id v = Some (view_ride v) ∧
  search_where contains_insensitive start end_ searchDate now (view_ride v) = true ∧
  view_vehicle v = vehicle_of (ride_vehicle_id (view_ride v)) s ∧
  view_participants v = booked_participants (view_id v) s.
Proof.
  unfold search_query. rewrite list_elem_of_fmap. split.
  - intros ([rid ride] & -> & Hin). simpl.
    apply elem_of_sort_by, elem_of_map_to_list, map_lookup_filter_Some in Hin.
    simpl in Hin. tauto.
  - intros (Hr & Hw & Hv & Hp). exists (view_id v, view_ride v). split.
    + destruct v. simpl in *. by subst.
    + apply elem_of_sort_by, elem_of_map_to_list, map_lookup_filter_Some. done.
Qed.




(** X17. Without a [date], [/search] reads the clock only for the day: the
    [now] of its time filter is the very object it resets to the start of
    the day, so two searches on the same local day send the same list, and a
    ride dated at the start of today with a start time already past is
    still listed. *)
Theorem search_without_date_ignores_the_hour now1 now2 start end_ s :
  JsDate.calendarDay tz now1 = JsDate.calendarDay tz now2 →
  searchRides tz parseDate contains_insensitive now1 start end_ None s
  = searchRides tz parseDate contains_insensitive now2 start end_ None s ∧
  ∀ rid ride,
    rides s !! rid = Some ride → status ride = open →
    truthy start = None → truthy end_ = None →
    start_date ride = startOfDay tz now1 →
    startOfDay tz now1 ≤ start_time ride →
    ∃ views v,
      searchRides tz parseDate contains_insensitive now1 start end_ None s = Ok views ∧
      v ∈ views ∧ view_id v = rid ∧ view_ride v = ride.
Proof.
  intros Hday.
  assert (Hsod : ∀ t, startOfDay tz (zeroSeconds tz t) = startOfDay tz t).
  { intros t. unfold startOfDay, zeroSeconds, JsDate.make, JsDate.calendarDay,
      JsDate.getHours, JsDate.getMinutes, JsDate.localTime, JsDate.msPerDay,
      JsDate.msPerHour, JsDate.msPerMinute, JsDate.msPerSecond.
    Z.div_mod_to_equations. lia. }
  assert (Heq : startOfDay tz now1 = startOfDay tz now2)
    by (unfold startOfDay; by rewrite Hday).
  unfold searchRides. simpl. rewrite !Hsod, Heq. split; [done|].
  intros rid ride Hr Hst Hs He Hdate Htime.
  eexists _, (mkRideView rid ride _ _). split; [reflexivity|]. split; [|done].
  apply elem_of_search_query. simpl. split; [done|]. split; [|done].
  unfold search_where. rewrite Hs, He, Hdate.
  rewrite bool_decide_eq_true_2 by done. simpl.
  rewrite Z.leb_refl, Z.eqb_refl. simpl.
  apply Z.leb_le in Htime. rewrite Htime. by rewrite orb_true_r.
Qed.
End Reading.

Section Mine.
Variable tz : Z.
Variable parseDate : string → option Z.
Variable status_rank : RideStatus → Z.

Lemma elem_of_mine_hosted uid s v :
  v ∈ mine_hosted status_rank uid s ↔
  rides s !! view_id v = Some (view_ride v) ∧
  driver_id (view_ride v) = uid ∧ status (view_ride v) ≠ cancelled ∧
  view_vehicle v = vehicle_of (ride_vehicle_id (view_ride v)) s ∧
  view_participants v = all_participants (view_id v) s.
Proof.
  unfold mine_hosted. rewrite list_elem_of_fmap. split.
  - intros ([rid ride] & -> & Hin). simpl.
    apply elem_of_sort_by, elem_of_map_to_list, map_lookup_filter_Some in Hin.
    simpl in Hin. tauto.
  - intros (Hr & Hd & Hst & Hv & Hp). exists (view_id v, view_ride v). split.
    + destruct v. simpl in *. by subst.
    + apply elem_of_sort_by, elem_of_map_to_list, map_lookup_filter_Some. done.
Qed.

Lemma elem_of_mine_joined now0 uid s v st :
  (v, st) ∈ mine_joined tz now0 uid s ↔
  ∃ p, participants s !! (view_id v, uid) = Some p ∧ rp_status p = booked ∧ st = booked ∧
       rides s !! view_id v = Some (view_ride v) ∧
       status (view_ride v) ≠ cancelled ∧
       mine_future (zeroSeconds tz now0) (view_ride v) = true ∧
       view_vehicle v = vehicle_of (ride_vehicle_id (view_ride v)) s ∧
       view_participants v = all_participants (view_id v) s.
Proof.
  unfold mine_joined. rewrite list_elem_of_omap. split.
  - intros ([[rid u] p] & Hin & Hv). simpl in Hv.
    apply elem_of_sort_by, elem_of_map_to_list, map_lookup_filter_Some in Hin.
    destruct Hin as [Hp Hw]. simpl in Hw. unfold mine_joined_where in Hw. simpl in Hw.
    destruct (rides s !! rid) as [ride|] eqn:Hr; [|done].
    injection Hv as <- <-. simpl.
    rewrite !andb_true_iff, !bool_decide_eq_true, negb_true_iff,
      bool_decide_eq_false in Hw.
    destruct Hw as [[-> Hb] [Hst Hf]]. exists p. done.
  - intros (p & Hp & Hb & -> & Hr & Hst & Hf & Hv & Hps).
    exists ((view_id v, uid), p). simpl. rewrite Hr. split.
    + apply elem_of_sort_by, elem_of_map_to_list, map_lookup_filter_Some.
      split; [done|]. simpl. unfold mine_joined_where. simpl. rewrite Hr.
      rewrite !andb_true_iff, !bool_decide_eq_true, negb_true_iff,
        bool_decide_eq_false. done.
    + rewrite Hb. destruct v. simpl in *. by subst.
Qed.

(** X18. What [/mine] sends, in a store the service can reach. The hosted
    rides are the caller's rides that are not cancelled; the joined rides
    are rides, not cancelled, that the caller holds a booked participation
    on and whose [start_date] is not before the current minute; no ride is
    in both lists, and the caller drives none of the joined rides. *)
Theorem mine_lists_are_disjoint now0 uid s :
  reachable tz parseDate s →
  (∀ h, h ∈ mine_hosted status_rank uid s →
     rides s !! view_id h = Some (view_ride h) ∧
     driver_id (view_ride h) = uid ∧ status (view_ride h) ≠ cancelled) ∧
  (∀ j st, (j, st) ∈ mine_joined tz now0 uid s →
     st = booked ∧
     rides s !! view_id j = Some (view_ride j) ∧
     status (view_ride j) ≠ cancelled ∧
     driver_id (view_ride j) ≠ uid ∧
     zeroSeconds tz now0 ≤ start_date (view_ride j) ∧
     ∃ p, participants s !! (view_id j, uid) = Some p ∧ rp_status p = booked) ∧
  (∀ h j st, h ∈ mine_hosted status_rank uid s →
             (j, st) ∈ mine_joined tz now0 uid s → view_id h ≠ view_id j).
Proof.
  intros Hreach.
  destruct (reachable_store_ok tz parseDate s Hreach) as (_ & Hdnr & _).
  assert (Hj : ∀ j st, (j, st) ∈ mine_joined tz now0 uid s →
     st = booked ∧
     rides s !! view_id j = Some (view_ride j) ∧
     status (view_ride j) ≠ cancelled ∧
     driver_id (view_ride j) ≠ uid ∧
     zeroSeconds tz now0 ≤ start_date (view_ride j) ∧
     ∃ p, participants s !! (view_id j, uid) = Some p ∧ rp_status p = booked).
  { intros j st Hin.
    apply elem_of_mine_joined in Hin as (p & Hp & Hb & -> & Hr & Hst & Hf & _).
    split; [done|]. split; [done|]. split; [done|]. split.
    - intros Hd. pose proof (Hdnr _ _ Hr) as Hn. rewrite Hd in Hn. congruence.
    - split; [|eauto]. unfold mine_future in Hf.
      apply orb_true_iff in Hf as [Hf|Hf].
      + apply Z.ltb_lt in Hf. lia.
      + apply andb_true_iff in Hf as [Hf _]. apply Z.eqb_eq in Hf. lia. }
  split; [|split; [done|]].
  - intros h Hh. apply elem_of_mine_hosted in Hh. tauto.
  - intros h j st Hh Hjn Heq.
    apply elem_of_mine_hosted in Hh as (Hr & Hd & _).
    destruct (Hj j st Hjn) as (_ & Hr' & _ & Hd' & _).
    rewrite Heq, Hr' in Hr. injection Hr as Hr. rewrite Hr in Hd'. done.
Qed.
End Mine.

(** ** The ride-creation form *)

Lemma maxAllowedFor_range v : 3 ≤ maxAllowedFor v ≤ 6.
Proof. unfold maxAllowedFor. repeat case_match; lia. Qed.

Lemma form_event_bounds e f :
  1 ≤ form_maxPassengers f ≤ maxAllowedFor (form_vehicleType f) →
  1 ≤ form_maxPassengers (form_event e f)
    ≤ maxAllowedFor (form_vehicleType (form_event e f)).
Proof.
  intros H. destruct e; simpl; try done.
  - pose proof (maxAllowedFor_range v). lia.
  - destruct (_ <=? 1); simpl; lia.
  - destruct (_ <=? _) eqn:E; simpl; [done|]. apply Z.leb_gt in E. lia.
Qed.

Lemma form_after_bounds events :
  1 ≤ form_maxPassengers (form_after events)
    ≤ maxAllowedFor (form_vehicleType (form_after events)).
Proof.
  unfold form_after. induction events as [|e events IH] using rev_ind.
  - simpl. unfold maxAllowedFor. simpl. lia.
  - rewrite foldl_app. simpl. by apply form_event_bounds.
Qed.

Lemma maxAllowedFor_vehicle v vt :
  vehicle_type_of_string v = Some vt → maxAllowedFor v = maxAllowed vt.
Proof.
  unfold vehicle_type_of_string, maxAllowedFor, maxAllowed.
  destruct (String.eqb v "car") eqn:Ecar.
  - apply String.eqb_eq in Ecar as ->. by intros [= <-].
  - destruct (String.eqb v "suv") eqn:Esuv; [by intros [= <-]|].
    destruct (String.eqb v "auto"); [by intros [= <-]|done].
Qed.

(** X19. Whatever the user does to the form (typing, picking a route,
    selecting a vehicle, pressing plus or minus), the passenger count it
    holds stays between 1 and the seats of the selected vehicle type (3
    while none is selected), hence within 1-6. *)
Theorem form_keeps_seat_bounds events :
  let f := form_after events in
  1 ≤ form_maxPassengers f ≤ maxAllowedFor (form_vehicleType f) ∧
  form_maxPassengers f ≤ 6.
Proof.
  pose proof (form_after_bounds events) as H.
  pose proof (maxAllowedFor_range (form_vehicleType (form_after events))).
  simpl. lia.
Qed.

Section Submitting.
Variable tz : Z.
Variable parseDate : string → option Z.
Variable parseInt10 : string → option Z.
Variable toISOString : Z → string.

Lemma handleSubmit_Some now f p :
  handleSubmit tz parseDate parseInt10 toISOString now f = Some p →
  form_from f ≠ "" ∧ form_to f ≠ "" ∧
  (∃ vt, vehicle_type_of_string (form_vehicleType f) = Some vt) ∧
  pl_start_location p = form_from f ∧ pl_end_location p = form_to f ∧
  pl_start_date p = form_date f ∧ pl_vehicle_type p = form_vehicleType f ∧
  pl_max_passengers p = Z.min (form_maxPassengers f) (maxAllowedFor (form_vehicleType f)) ∧
  pl_total_fare p = 100 * Z.max 1 (pl_max_passengers p).
Proof.
  unfold handleSubmit.
  destruct (String.eqb (form_from f) "") eqn:E1; [done|].
  destruct (String.eqb (form_to f) "") eqn:E2; [done|].
  destruct (String.eqb (form_date f) "") eqn:E3; [done|].
  destruct (String.eqb (form_time f) "") eqn:E4; [done|].
  destruct (String.eqb (form_vehicleType f) "") eqn:E5; [done|]. simpl.
  destruct (String.eqb (form_vehicleType f) "car") eqn:Ecar;
    [|destruct (String.eqb (form_vehicleType f) "suv") eqn:Esuv;
      [|destruct (String.eqb (form_vehicleType f) "auto") eqn:Eauto; [|done]]];
    simpl;
    (destruct (parseDate (form_date f)); [|done]);
    (destruct (_ <=? now); [done|]);
    intros [= <-]; simpl;
    apply String.eqb_neq in E1, E2;
    (repeat split; try done);
    unfold vehicle_type_of_string; rewrite ?Ecar, ?Esuv, ?Eauto; eauto.
Qed.

(** X20. Form and server fit together. When the form, after any sequence
    of user events, sends a request, the [max_passengers] it sends is the
    count the form shows (the lowering to the vehicle's seats changes
    nothing), it lies between 1 and the seats of the vehicle type sent, the
    fare sent is 100 per seat, and the body passes [rideCreateSchema] with
    those values. *)
Theorem submitted_payload_passes_schema events now p :
  handleSubmit tz parseDate parseInt10 toISOString now (form_after events) = Some p →
  pl_max_passengers p = form_maxPassengers (form_after events) ∧
  pl_total_fare p = 100 * pl_max_passengers p ∧
  ∃ vt,
    vehicle_type_of_string (pl_vehicle_type p) = Some vt ∧
    1 ≤ pl_max_passengers p ≤ maxAllowed vt ∧
    rideCreateSchema (payload_json p)
      = Some (mkRideCreate (pl_start_location p) (pl_end_location p)
                (pl_start_date p) (pl_start_time p)
                (inject_Z (pl_total_fare p)) vt (pl_max_passengers p)).
Proof.
  intros H.
  apply handleSubmit_Some in H
    as (Hfrom & Hto & (vt & Hvt) & Hsl & Hel & Hsd & Hpv & Hmax & Hfare).
  pose proof (form_after_bounds events) as Hb.
  assert (Hmp : pl_max_passengers p = form_maxPassengers (form_after events))
    by (rewrite Hmax; lia).
  split; [done|]. split; [rewrite Hfare; lia|].
  exists vt. rewrite Hpv. split; [done|].
  rewrite <-(maxAllowedFor_vehicle _ _ Hvt). split; [lia|].
  unfold payload_json. apply create_body_schema.
  - by rewrite Hsl.
  - by rewrite Hel.
  - rewrite Hfare. unfold Qlt, inject_Z. simpl. lia.
  - by rewrite Hpv.
  - pose proof (maxAllowedFor_range (form_vehicleType (form_after events))). lia.
Qed.
End Submitting.

(** ** Ride cards *)




Section CardProperties.
Variable toLocaleDateString : string → string.
Variable toLocaleTimeString : string → string.
Variable fare_text : Q → string.

Local Abbreviation card := (toRideCard toLocaleDateString toLocaleTimeString fare_text).

Lemma card_participants_count r :
  card_participants (card r)
  = Z.of_nat (length (default [] (card_booked r))) + 1.
Proof.
  unfold toRideCard. simpl. destruct (card_booked r) as [l|]; simpl; [|done].
  destruct (Z.of_nat (length l) =? 0) eqn:E; [|done].
  apply Z.eqb_eq in E. lia.
Qed.

(** X22. A ride card counts what it lists: the number of participants it
    shows is the length of its passenger list, the host first and then the
    participations whose status is booked; it is at least 1, also for a ride
    sent without participants; and the card never shows the status open,
    which it names upcoming. *)
Theorem card_counts_its_passengers r :
  let c := toRideCard toLocaleDateString toLocaleTimeString fare_text r in
  card_participants c = Z.of_nat (length (card_passengers c)) ∧
  1 ≤ card_participants c ∧
  head (card_passengers c) = Some (mkCardUser (card_driver c) (card_driverRating c)) ∧
  card_status c ≠ "open" ∧
  (rd_status r ≠ "open" → card_status c = rd_status r) ∧
  (rd_participants r = None → card_participants c = 1).
Proof.
  intros c. subst c.
  rewrite card_participants_count.
  split; [|split; [lia|split; [done|split; [|split]]]].
  - unfold toRideCard. simpl. destruct (card_booked r) as [l|]; simpl.
    + rewrite length_fmap. lia.
    + done.
  - unfold toRideCard. simpl.
    destruct (String.eqb (rd_status r) "open") eqn:E; [done|].
    by apply String.eqb_neq in E.
  - intros Hst. unfold toRideCard. simpl.
    apply String.eqb_neq in Hst. by rewrite Hst.
  - intros Hn. unfold card_booked. rewrite Hn. done.
Qed.


End CardProperties.

(** X21. A ride created through the form respects the seats of its
    vehicle. When the form sends a request and the server reads its two
    dates and draws a fresh ride identifier, [POST /] creates the ride, with
    the passenger count the form showed, which does not exceed the seats of
    the vehicle type sent, and a fare of 100 per seat. *)
Theorem ride_created_through_form tz parseDate parseInt10 toISOString serverParse
    events now p uid vid rid s d t :
  handleSubmit tz parseDate parseInt10 toISOString now (form_after events) = Some p →
  serverParse (pl_start_date p) = Some d →
  serverParse (pl_start_time p) = Some t →
  rides s !! rid = None →
  ∃ s' ride vt,
    createRide serverParse uid (payload_json p) vid rid s = (s', Ok (rid, ride)) ∧
    rides s' !! rid = Some ride ∧
    max_passengers ride = form_maxPassengers (form_after events) ∧
    vehicle_type_of_string (pl_vehicle_type p) = Some vt ∧
    vehicle_type <$> vehicles s' !! uid = Some vt ∧
    1 ≤ max_passengers ride ≤ maxAllowed vt ∧
    (total_fare ride == inject_Z (100 * max_passengers ride))%Q.
Proof.
  intros H Hd Ht Hfresh.
  pose proof (form_after_bounds events) as Hb.
  apply handleSubmit_Some in H
    as (Hfrom & Hto & (vt & Hvt) & Hsl & Hel & Hsd & Hpv & Hmax & Hfare).
  assert (Hmp : pl_max_passengers p = form_maxPassengers (form_after events))
    by (rewrite Hmax; lia).
  assert (Hschema : rideCreateSchema (payload_json p)
      = Some (mkRideCreate (pl_start_location p) (pl_end_location p)
                (pl_start_date p) (pl_start_time p)
                (inject_Z (pl_total_fare p)) vt (pl_max_passengers p))).
  { unfold payload_json. apply create_body_schema.
    - by rewrite Hsl.
    - by rewrite Hel.
    - rewrite Hfare. unfold Qlt, inject_Z. simpl. lia.
    - by rewrite Hpv.
    - pose proof (maxAllowedFor_range (form_vehicleType (form_after events))). lia. }
  unfold createRide. rewrite Hschema. simpl. rewrite Hd, Ht, Hfresh.
  eexists _, _, vt. split; [reflexivity|]. simpl.
  rewrite !lookup_insert_eq. split; [done|]. split; [done|].
  split; [by rewrite Hpv|]. split.
  - by destruct (vehicles s !! uid).
  - rewrite <-(maxAllowedFor_vehicle _ _ Hvt). split; [lia|].
    rewrite Hfare. unfold Qeq, inject_Z. simpl. lia.
Qed.

(** ** The completed lists of the client *)

Lemma zeroSeconds_bounds tz t :
  t - JsDate.msPerMinute < zeroSeconds tz t ≤ t.
Proof.
  unfold zeroSeconds, JsDate.make, JsDate.getHours, JsDate.getMinutes,
    JsDate.calendarDay, JsDate.msPerDay, JsDate.msPerHour, JsDate.msPerMinute,
    JsDate.msPerSecond, JsDate.localTime.
  Z.div_mod_to_equations. lia.
Qed.

Lemma status_name_completed st : status_name st = "completed" ↔ st = completed.
Proof. destruct st; split; (done || discriminate). Qed.

Section Completed.
Variable tz : Z.
Variable status_rank : RideStatus → Z.

(** X24. A ride that has been started is, from one minute later on, in
    nobody's joined list of [/mine], whatever its status by then: the list
    keeps only rides dated after now. So the booked section of the
    completed-rides screen, which filters that list, never shows it, while
    the created section shows the driver their completed ride. The ride's
    [start_date] is taken not to lie after its scheduled start, as for a
    [start_date] at midnight. *)
Theorem started_ride_leaves_joined_list t1 now driver uid rid s ride started s' ride' :
  rides s !! rid = Some ride →
  (startRide tz t1 driver rid s).2 = Ok started →
  start_date ride ≤ rideStartDateTime tz ride →
  rides s' !! rid = Some ride' →
  same_ride_terms ride ride' →
  t1 + JsDate.msPerMinute ≤ now →
  (∀ j st, (j, st) ∈ mine_joined tz now uid s' → view_id j ≠ rid) ∧
  (∀ v, v ∈ completed_booked tz now uid s' → view_id v ≠ rid) ∧
  (status ride' = completed → driver_id ride' = uid →
   ∃ v, v ∈ completed_created status_rank uid s' ∧ view_id v = rid ∧ view_ride v = ride').
Proof.
  intros Hr Hstart Hdate Hr' Hterms Hnow.
  assert (Hdue : rideStartDateTime tz ride ≤ t1).
  { rewrite (startRide_Some tz t1 driver rid s ride Hr) in Hstart.
    destruct (negb (bool_decide (driver_id ride = driver))); [done|].
    destruct (negb (bool_decide (status ride = open))); [done|].
    destruct (t1 <? rideStartDateTime tz ride) eqn:E; [done|].
    by apply Z.ltb_ge in E. }
  assert (Hjoined : ∀ j st, (j, st) ∈ mine_joined tz now uid s' → view_id j ≠ rid).
  { intros j st Hin Hid.
    apply elem_of_mine_joined in Hin as (p & _ & _ & _ & Hj & _ & Hfut & _).
    rewrite Hid, Hr' in Hj. injection Hj as Hj. rewrite <-Hj in Hfut.
    destruct Hterms as (_ & _ & _ & Hsd & _).
    pose proof (zeroSeconds_bounds tz now) as Hz.
    unfold mine_future in Hfut. rewrite Hsd in Hfut.
    apply orb_true_iff in Hfut as [Hlt|Heq].
    - apply Z.ltb_lt in Hlt. lia.
    - apply andb_true_iff in Heq as [Heq _]. apply Z.eqb_eq in Heq. lia. }
  split; [exact Hjoined|]. split.
  - intros v Hv. unfold completed_booked, completed_only in Hv.
    apply list_elem_of_filter in Hv as [_ Hv].
    apply list_elem_of_fmap in Hv as ([j st] & -> & Hin). simpl.
    by apply (Hjoined j st).
  - intros Hst Hdrv.
    exists (mkRideView rid ride' (vehicle_of (ride_vehicle_id ride') s')
              (all_participants rid s')).
    split; [|done].
    unfold completed_created, completed_only. rewrite list_elem_of_filter. split.
    + simpl. by apply status_name_completed.
    + rewrite (elem_of_mine_hosted (λ _, None)). simpl.
      split; [done|]. split; [done|]. split; [by rewrite Hst|done].
Qed.
End Completed.

(** ** The controller's search *)

Section ControllerReading.
Variable tz : Z.
Variable parseDate : string → option Z.
Variable contains_insensitive : string → string → bool.

Lemma elem_of_controller_search_query start end_ since s c :
  c ∈ controller_search_query contains_insensitive start end_ since s ↔
  rides s !! sum_id c = Some (sum_ride c) ∧
  controller_search_where contains_insensitive start end_ since (sum_ride c) = true ∧
  sum_vehicle_type c = vehicle_type <$> vehicle_of (ride_vehicle_id (sum_ride c)) s ∧
  sum_participants c = booked_participants (sum_id c) s.
Proof.
  unfold controller_search_query. rewrite list_elem_of_fmap. split.
  - intros ([rid ride] & -> & Hin). simpl.
    apply elem_of_sort_by, elem_of_map_to_list, map_lookup_filter_Some in Hin.
    simpl in Hin. tauto.
  - intros (Hr & Hw & Hv & Hp). exists (sum_id c, sum_ride c). split.
    + destruct c. simpl in *. by subst.
    + apply elem_of_sort_by, elem_of_map_to_list, map_lookup_filter_Some. done.
Qed.

Lemma search_where_controller start end_ searchDate now since ride :
  search_where contains_insensitive start end_ searchDate now ride = true →
  match since with Some d => d ≤ searchDate | None => True end →
  controller_search_where contains_insensitive start end_ since ride = true.
Proof.
  unfold search_where, controller_search_where. intros Hw Hsince.
  repeat (apply andb_true_iff in Hw as [Hw ?]).
  repeat (apply andb_true_iff; split); try done.
  destruct since as [d|]; [|done]. apply Z.leb_le.
  match goal with H : (searchDate <=? _) = true |- _ => apply Z.leb_le in H end. lia.
Qed.

(** X25. The controller's search is the route's without the clock: with
    no [date] it lists every open ride that passes the location filters,
    whatever its date, with its booked participants and in ascending order
    of [start_date]; every ride the route [/search] lists is among them, and
    an open ride dated before today is listed by the controller only. With a
    [date], the controller keeps the rides dated from the parsed instant on,
    instead of from the start of its day and of the time of day. *)
Theorem controller_search_ignores_the_clock now0 start end_ s :
  ∃ found,
    controller_searchRides parseDate contains_insensitive start end_ None s = Ok found ∧
    (∀ c, c ∈ found ↔
       rides s !! sum_id c = Some (sum_ride c) ∧
       controller_search_where contains_insensitive start end_ None (sum_ride c) = true ∧
       sum_vehicle_type c = vehicle_type <$> vehicle_of (ride_vehicle_id (sum_ride c)) s ∧
       sum_participants c = booked_participants (sum_id c) s) ∧
    StronglySorted (λ a b, start_date (sum_ride a) ≤ start_date (sum_ride b)) found ∧
    (∀ views v,
       searchRides tz parseDate contains_insensitive now0 start end_ None s = Ok views →
       v ∈ views →
       ∃ c, c ∈ found ∧ sum_id c = view_id v ∧ sum_ride c = view_ride v ∧
            sum_participants c = view_participants v) ∧
    (∀ rid ride,
       rides s !! rid = Some ride → status ride = open →
       truthy start = None → truthy end_ = None →
       start_date ride < startOfDay tz (zeroSeconds tz now0) →
       (∃ c, c ∈ found ∧ sum_id c = rid ∧ sum_ride c = ride) ∧
       ∀ views v,
         searchRides tz parseDate contains_insensitive now0 start end_ None s = Ok views →
         v ∈ views → view_id v ≠ rid) ∧
    (∀ d t, truthy (Some d) = Some d → parseDate d = Some t →
       ∃ since,
         controller_searchRides parseDate contains_insensitive start end_ (Some d) s
         = Ok since ∧
         (∀ c, c ∈ since → c ∈ found ∧ t ≤ start_date (sum_ride c)) ∧
         (∀ views v,
            searchRides tz parseDate contains_insensitive now0 start end_ (Some d) s
            = Ok views →
            v ∈ views → t = startOfDay tz t →
            ∃ c, c ∈ since ∧ sum_id c = view_id v ∧ sum_ride c = view_ride v)).
Proof.
  exists (controller_search_query contains_insensitive start end_ None s).
  split; [done|]. split; [apply elem_of_controller_search_query|]. split.
  { unfold controller_search_query.
    pose proof (sort_by_key_sorted (λ kr : string * Ride, start_date kr.2)
                  (map_to_list
                     (filter (λ kr : string * Ride,
                        controller_search_where contains_insensitive start end_ None kr.2
                        = true)
                        (rides s)))) as Hs.
    simpl in Hs. induction Hs as [|x l Hs IH Hall]; simpl; constructor; [done|].
    apply Forall_fmap. eapply Forall_impl; [exact Hall|]. done. }
  split; [|split].
  - intros views v Hsearch Hv. unfold searchRides in Hsearch. simpl in Hsearch.
    injection Hsearch as <-.
    apply (elem_of_search_query parseDate) in Hv as (Hr & Hw & Hveh & Hp).
    exists (mkRideSummary (view_id v) (view_ride v)
              (vehicle_type <$> vehicle_of (ride_vehicle_id (view_ride v)) s)
              (booked_participants (view_id v) s)).
    split; [|done]. apply elem_of_controller_search_query. simpl.
    split; [done|]. split; [|done].
    by apply (search_where_controller _ _ _ _ None _ Hw).
  - intros rid ride Hr Hst Hstart Hend Hpast. split.
    + exists (mkRideSummary rid ride (vehicle_type <$> vehicle_of (ride_vehicle_id ride) s)
                (booked_participants rid s)).
      split; [|done]. apply elem_of_controller_search_query. simpl.
      split; [done|]. split; [|done].
      unfold controller_search_where. rewrite Hstart, Hend, Hst. done.
    + intros views v Hsearch Hv Hid. unfold searchRides in Hsearch. simpl in Hsearch.
      injection Hsearch as <-.
      apply (elem_of_search_query parseDate) in Hv as (Hr' & Hw & _).
      rewrite Hid, Hr in Hr'. injection Hr' as Hr'. rewrite <-Hr' in Hw.
      unfold search_where in Hw.
      repeat (apply andb_true_iff in Hw as [Hw ?]).
      match goal with H : (_ <=? start_date ride) = true |- _ => apply Z.leb_le in H end.
      lia.
  - intros d t Hd Ht.
    exists (controller_search_query contains_insensitive start end_ (Some t) s). split.
    { unfold controller_searchRides. by rewrite Hd, Ht. }
    split.
    + intros c Hc. apply elem_of_controller_search_query in Hc as (Hr & Hw & Hveh & Hp).
      split.
      * apply elem_of_controller_search_query. split; [done|]. split; [|done].
        unfold controller_search_where in *.
        repeat (apply andb_true_iff in Hw as [Hw ?]).
        repeat (apply andb_true_iff; split); done.
      * unfold controller_search_where in Hw.
        apply andb_true_iff in Hw as [_ Hw]. by apply Z.leb_le in Hw.
    + intros views v Hsearch Hv Hmid. unfold searchRides in Hsearch.
      rewrite Hd, Ht in Hsearch. injection Hsearch as <-.
      apply (elem_of_search_query parseDate) in Hv as (Hr & Hw & Hveh & Hp).
      exists (mkRideSummary (view_id v) (view_ride v)
                (vehicle_type <$> vehicle_of (ride_vehicle_id (view_ride v)) s)
                (booked_participants (view_id v) s)).
      split; [|done]. apply elem_of_controller_search_query. simpl.
      split; [done|]. split; [|done].
      apply (search_where_controller _ _ _ _ (Some t) _ Hw). simpl. lia.
Qed.
End ControllerReading.

(** ** Instances *)

(** Alice starts "r1" at 19:00 of the day and completes it. *)
Lemma ride_lifecycle_witness :
  completeRide "alice" "r1" Ex.s_r1 = (Ex.s_r1, Err InvalidState) ∧
  (startRide 0 (Ex.at_hour 19) "alice" "r1" Ex.s_r1).2 = Ok (with_status active Ex.ride1) ∧
  (completeRide "alice" "r1" (startRide 0 (Ex.at_hour 19) "alice" "r1" Ex.s_r1).1).2
    = Ok (with_status completed Ex.ride1) ∧
  rides Ex.s_completed !! "r1" = Some (with_status completed Ex.ride1) ∧
  startRide 0 (Ex.at_hour 20) "alice" "r1" Ex.s_completed
    = (Ex.s_completed, Err InvalidState) ∧
  completeRide "alice" "r1" Ex.s_completed = (Ex.s_completed, Err InvalidState) ∧
  (∀ other, other ≠ "alice" →
     completeRide other "r1" (startRide 0 (Ex.at_hour 19) "alice" "r1" Ex.s_r1).1
     = ((startRide 0 (Ex.at_hour 19) "alice" "r1" Ex.s_r1).1, Err NotRideOwner)).
Proof.
  apply (ride_lifecycle 0 (Ex.at_hour 19) (Ex.at_hour 20) "alice" "r1" Ex.s_r1 Ex.ride1);
    [reflexivity | reflexivity | reflexivity | by vm_compute].
Defined.

(** Alice cancels "r1" with Bob on board: the ride goes to Bob with its
    terms unchanged. *)
Lemma requests_keep_ride_terms_witness :
  ∃ r', rides (handle 0 Ex.parse (Ex.at_hour 10) (ReqCancel "alice" "r1") Ex.s_r1_bob) !! "r1"
        = Some r' ∧ same_ride_terms Ex.ride1 r'.
Proof.
  apply (requests_keep_ride_terms 0 Ex.parse (Ex.at_hour 10) (ReqCancel "alice" "r1")
           Ex.s_r1_bob "r1" Ex.ride1).
  reflexivity.
Defined.

(** Bob cancels his seat on "r1": one row and one count for Bob. *)
Lemma counters_follow_log_witness :
  ∃ u', users Ex.s_bob_cancelled !! "bob" = Some u' ∧
        cancellation_count u' = 1 ∧
        (credibility_score u' = (100 - 5)%Q ∨ credibility_score u' = (100 - 2)%Q).
Proof.
  pose proof (counters_follow_log 0 Ex.parse (Ex.at_hour 10) (ReqCancel "bob" "r1")
                Ex.s_r1_bob "bob") as (_ & _ & u' & Hu & Hc & _ & Hs).
  exists u'. split; [exact Hu|]. split; [exact Hc|]. by apply Hs.
Defined.

(** Alice, driver of "r1" with Bob on board, has no row on "r1". *)
Lemma driver_cancel_takes_driver_branch_witness :
  participants Ex.s_r1_bob !! ("r1", "alice") = None ∧
  ∀ now u, users Ex.s_r1_bob !! "alice" = Some u →
    cancelRide 0 now "alice" "r1" Ex.s_r1_bob
      = (driver_cancelled_store 0 now "alice" "r1"
           (head (booked_participants_asc "r1" Ex.s_r1_bob)) Ex.ride1 u Ex.s_r1_bob,
         Ok (DriverCancelled
               (bool_decide (is_Some (head (booked_participants_asc "r1" Ex.s_r1_bob)))))).
Proof.
  apply (driver_cancel_takes_driver_branch 0 Ex.parse Ex.s_r1_bob "r1" Ex.ride1).
  - unfold Ex.s_r1_bob, Ex.s_r1, Ex.s_users.
    do 2 apply reach_request. apply reach_identity. apply reach_empty.
  - reflexivity.
Defined.


(** The store with the two rides "r1" and "r2". *)
Lemma reachable_rows_well_formed_witness :
  (∀ rid ride, rides Ex.s_two_rides !! rid = Some ride →
               1 ≤ max_passengers ride ≤ 6 ∧ (0 < total_fare ride)%Q) ∧
  (∀ rid uid p, participants Ex.s_two_rides !! (rid, uid) = Some p →
                is_Some (rides Ex.s_two_rides !! rid)).
Proof.
  apply (reachable_rows_well_formed 0 Ex.parse Ex.s_two_rides).
  unfold Ex.s_two_rides, Ex.s_r1_bob, Ex.s_r1, Ex.s_users.
  do 3 apply reach_request. apply reach_identity. apply reach_empty.
Defined.

(** Bob, booked on "r1", joins "r1" again the evening before. *)
Lemma already_booked_only_when_past_witness :
  joinRide (Ex.at_hour (-1)) "bob" "r1" Ex.s_r1_bob = (Ex.s_r1_bob, Err AlreadyInActiveRide).
Proof.
  apply (proj2 (already_booked_only_when_past (Ex.at_hour (-1)) "bob" "r1" Ex.s_r1_bob)
           Ex.ride1 Ex.bob_rp);
    [reflexivity | reflexivity | discriminate | reflexivity | reflexivity | by vm_compute].
Defined.

(** Bob joins "r1" 20 hours before the day, cancels 10 hours later and
    joins again 5 hours after that. *)
Lemma rejoin_keeps_first_booking_time_witness :
  booking_time Ex.bob_rp = Ex.at_hour (-20) ∧
  participants Ex2.s_bob_left !! ("r1", "bob") = Some (mark_cancelled Ex.bob_rp) ∧
  booked_count "r1" Ex2.s_bob_left = booked_count "r1" Ex.s_r1 ∧
  participants Ex2.s_bob_back !! ("r1", "bob") = Some Ex.bob_rp ∧
  rp_status Ex.bob_rp = booked ∧ booking_time Ex.bob_rp = Ex.at_hour (-20) ∧
  ∃ ride, rides Ex.s_r1 !! "r1" = Some ride ∧
          share_fare Ex.bob_rp
          = (total_fare ride / inject_Z (Z.of_nat (booked_count "r1" Ex.s_r1) + 2))%Q.
Proof.
  apply (rejoin_keeps_first_booking_time 0 (Ex.at_hour (-20)) (Ex.at_hour (-10))
           (Ex.at_hour (-5)) "bob" "r1" Ex.s_r1 Ex.user0 Ex.s_r1_bob Ex.bob_rp
           Ex2.s_bob_back Ex.bob_rp); reflexivity.
Defined.

(** Alice cancels the empty ride "r1" twice. *)
Lemma driver_cancel_again_not_guarded_witness :
  let r := cancel_repeatedly 0 "alice" "r1" [Ex.at_hour 10; Ex.at_hour 11] Ex.s_r1 in
  Forall (λ reply, reply = Ok (DriverCancelled false)) r.2 ∧
  length r.2 = 2%nat ∧
  cancellations r.1
    = cancellations Ex.s_r1 ++ map (mkCancellation "r1" "alice") [Ex.at_hour 10; Ex.at_hour 11] ∧
  participants r.1 = participants Ex.s_r1 ∧
  ([Ex.at_hour 10; Ex.at_hour 11] ≠ [] →
   rides r.1 !! "r1" = Some (with_status cancelled Ex.ride1)) ∧
  ∃ u' ds,
    users r.1 !! "alice" = Some u' ∧
    cancellation_count u' = cancellation_count Ex.user0 + 2 ∧
    length ds = 2%nat ∧
    Forall (λ d, d = 5%Q ∨ d = 2%Q) ds ∧
    credibility_score u' = foldl Qminus (credibility_score Ex.user0) ds.
Proof.
  apply (driver_cancel_again_not_guarded 0 "alice" "r1" [Ex.at_hour 10; Ex.at_hour 11]
           Ex.s_r1 Ex.ride1 Ex.user0); [reflexivity | reflexivity | reflexivity | reflexivity |].
  intros v p H.
  change (participants Ex.s_r1) with (∅ : gmap PKey RideParticipant) in H.
  by rewrite lookup_empty in H.
Defined.

(** Alice hands "r1" over to Bob. *)
Lemma former_driver_after_transfer_witness :
  let s' := (cancelRide 0 (Ex.at_hour 10) "alice" "r1" Ex.s_r1_bob).1 in
  ∃ w,
    w ≠ "alice" ∧
    rides s' !! "r1" = Some (with_driver_status w open Ex.ride1) ∧
    participants s' !! ("r1", w) = None ∧ participants s' !! ("r1", "alice") = None ∧
    cancelRide 0 (Ex.at_hour 11) "alice" "r1" s' = (s', Err NotRideOwner) ∧
    startRide 0 (Ex.at_hour 11) "alice" "r1" s' = (s', Err NotRideOwner) ∧
    completeRide "alice" "r1" s' = (s', Err NotRideOwner) ∧
    (joinRide (Ex.at_hour 11) "alice" "r1" s').2 ≠ Err CannotBookOwnRide.
Proof.
  apply (former_driver_after_transfer 0 (Ex.at_hour 10) (Ex.at_hour 11) "alice" "r1"
           Ex.s_r1_bob Ex.ride1 Ex.user0);
    [reflexivity | reflexivity | reflexivity | reflexivity |].
  exists "bob", Ex.bob_rp. split; reflexivity.
Defined.

(** "r1" starts at 18:00 sharp: both routes measure from the same
    instant. *)
Lemma cancel_and_start_agree_on_the_minute_witness :
  startDateTime 0 Ex.ride1 = rideStartDateTime 0 Ex.ride1.
Proof.
  apply (cancel_and_start_agree_on_the_minute 0 Ex.ride1); reflexivity.
Defined.

(** Alice creates "r1" and reads it back. *)
Lemma created_ride_is_read_back_witness :
  (∃ veh, getRide "r1" Ex.s_r1 = DetailsOk (mkRideView "r1" Ex.ride1 veh [])) ∧
  driver_id Ex.ride1 = "alice" ∧ status Ex.ride1 = open ∧
  1 ≤ max_passengers Ex.ride1 ≤ 6 ∧
  getRide "r1" Ex.s_users = DetailsNotFound.
Proof.
  apply (created_ride_is_read_back 0 Ex.parse "alice" (Ex.body 300 "car" 4) "v1" "r1"
           Ex.s_users Ex.s_r1 Ex.ride1).
  - unfold Ex.s_users. apply reach_identity. apply reach_empty.
  - discriminate.
  - reflexivity.
Defined.



(** 10:00 and 20:00 of the day give the same search; "r1", due at 18:00,
    is found at 20:00. *)
Lemma search_without_date_ignores_the_hour_witness :
  searchRides 0 Ex.parse Ex2.contains (Ex.at_hour 10) None None None Ex.s_two_rides
  = searchRides 0 Ex.parse Ex2.contains (Ex.at_hour 20) None None None Ex.s_two_rides ∧
  ∃ views v,
    searchRides 0 Ex.parse Ex2.contains (Ex.at_hour 20) None None None Ex.s_two_rides
    = Ok views ∧
    v ∈ views ∧ view_id v = "r1" ∧ view_ride v = Ex.ride1.
Proof.
  destruct (search_without_date_ignores_the_hour 0 Ex.parse Ex2.contains
              (Ex.at_hour 20) (Ex.at_hour 10) None None Ex.s_two_rides)
    as [Heq Hfound]; [reflexivity|].
  split; [by rewrite Heq|].
  apply (Hfound "r1" Ex.ride1); [reflexivity | reflexivity | reflexivity | reflexivity
                                 | reflexivity | by vm_compute].
Defined.

(** Bob's lists in the store with "r1" and "r2". *)
Lemma mine_lists_are_disjoint_witness :
  (∀ h, h ∈ mine_hosted Ex2.rank "bob" Ex.s_two_rides →
     rides Ex.s_two_rides !! view_id h = Some (view_ride h) ∧
     driver_id (view_ride h) = "bob" ∧ status (view_ride h) ≠ cancelled) ∧
  (∀ j st, (j, st) ∈ mine_joined 0 (Ex.at_hour (-1)) "bob" Ex.s_two_rides →
     st = booked ∧
     rides Ex.s_two_rides !! view_id j = Some (view_ride j) ∧
     status (view_ride j) ≠ cancelled ∧
     driver_id (view_ride j) ≠ "bob" ∧
     zeroSeconds 0 (Ex.at_hour (-1)) ≤ start_date (view_ride j) ∧
     ∃ p, participants Ex.s_two_rides !! (view_id j, "bob") = Some p ∧ rp_status p = booked) ∧
  (∀ h j st, h ∈ mine_hosted Ex2.rank "bob" Ex.s_two_rides →
             (j, st) ∈ mine_joined 0 (Ex.at_hour (-1)) "bob" Ex.s_two_rides →
             view_id h ≠ view_id j).
Proof.
  apply (mine_lists_are_disjoint 0 Ex.parse Ex2.rank (Ex.at_hour (-1)) "bob" Ex.s_two_rides).
  unfold Ex.s_two_rides, Ex.s_r1_bob, Ex.s_r1, Ex.s_users.
  do 3 apply reach_request. apply reach_identity. apply reach_empty.
Defined.

(** A route, a date, a time, an SUV and twice plus, then submit. *)
Lemma submitted_payload_passes_schema_witness :
  pl_max_passengers Ex2.payload = form_maxPassengers (form_after Ex2.events) ∧
  pl_total_fare Ex2.payload = 100 * pl_max_passengers Ex2.payload ∧
  ∃ vt,
    vehicle_type_of_string (pl_vehicle_type Ex2.payload) = Some vt ∧
    1 ≤ pl_max_passengers Ex2.payload ≤ maxAllowed vt ∧
    rideCreateSchema (payload_json Ex2.payload)
      = Some (mkRideCreate (pl_start_location Ex2.payload) (pl_end_location Ex2.payload)
                (pl_start_date Ex2.payload) (pl_start_time Ex2.payload)
                (inject_Z (pl_total_fare Ex2.payload)) vt (pl_max_passengers Ex2.payload)).
Proof.
  apply (submitted_payload_passes_schema 0 Ex.parse Ex2.parseInt Ex2.toISO Ex2.events
           (Ex.at_hour 10) Ex2.payload).
  reflexivity.
Defined.

(** The same form, submitted by Alice to the store of the users. *)
Lemma ride_created_through_form_witness :
  ∃ s' ride vt,
    createRide Ex.parse "alice" (payload_json Ex2.payload) "v1" "r1" Ex.s_users
      = (s', Ok ("r1", ride)) ∧
    rides s' !! "r1" = Some ride ∧
    max_passengers ride = form_maxPassengers (form_after Ex2.events) ∧
    vehicle_type_of_string (pl_vehicle_type Ex2.payload) = Some vt ∧
    vehicle_type <$> vehicles s' !! "alice" = Some vt ∧
    1 ≤ max_passengers ride ≤ maxAllowed vt ∧
    (total_fare ride == inject_Z (100 * max_passengers ride))%Q.
Proof.
  apply (ride_created_through_form 0 Ex.parse Ex2.parseInt Ex2.toISO Ex.parse Ex2.events
           (Ex.at_hour 10) Ex2.payload "alice" "v1" "r1" Ex.s_users Ex.day (Ex.at_hour 18));
    reflexivity.
Defined.

(** The card of "r1" with Carol and Bob on board. *)
Lemma card_counts_its_passengers_witness :
  card_participants (toRideCard (λ x, x) (λ x, x) (λ _, "fare") Ex2.data1) = 3 ∧
  card_status (toRideCard (λ x, x) (λ x, x) (λ _, "fare") Ex2.data1) ≠ "open".
Proof.
  pose proof (card_counts_its_passengers (λ x, x) (λ x, x) (λ _, "fare") Ex2.data1) as H.
  cbv zeta in H. destruct H as (Hn & _ & _ & Hst & _ & _).
  split; [by rewrite Hn | exact Hst].
Defined.


(** "r1", started at 19:00 and completed, two hours later: Bob, who rode,
    does not find it among his rides; Alice finds it in her created ones. *)
Lemma started_ride_leaves_joined_list_witness :
  (∀ v, v ∈ completed_booked 0 (Ex.at_hour 21) "bob" Ex2.s_r1_bob_completed →
        view_id v ≠ "r1") ∧
  (∃ v, v ∈ completed_created Ex2.rank "alice" Ex2.s_r1_bob_completed ∧
        view_id v = "r1" ∧ view_ride v = with_status completed Ex.ride1).
Proof.
  assert (Hterms : same_ride_terms Ex.ride1 (with_status completed Ex.ride1))
    by (repeat split).
  assert (Hdue : start_date Ex.ride1 ≤ rideStartDateTime 0 Ex.ride1) by (by vm_compute).
  assert (Hlater : Ex.at_hour 19 + JsDate.msPerMinute ≤ Ex.at_hour 21) by (by vm_compute).
  split.
  - apply (started_ride_leaves_joined_list 0 Ex2.rank (Ex.at_hour 19) (Ex.at_hour 21)
             "alice" "bob" "r1" Ex.s_r1_bob Ex.ride1 (with_status active Ex.ride1)
             Ex2.s_r1_bob_completed (with_status completed Ex.ride1)
             eq_refl eq_refl Hdue eq_refl Hterms Hlater).
  - apply (started_ride_leaves_joined_list 0 Ex2.rank (Ex.at_hour 19) (Ex.at_hour 21)
             "alice" "alice" "r1" Ex.s_r1_bob Ex.ride1 (with_status active Ex.ride1)
             Ex2.s_r1_bob_completed (with_status completed Ex.ride1)
             eq_refl eq_refl Hdue eq_refl Hterms Hlater); reflexivity.
Defined.

(** The day after "r1" was due and never started, the controller still
    lists it and the route does not. *)
Lemma controller_search_ignores_the_clock_witness :
  ∃ found,
    controller_searchRides Ex.parse Ex2.contains None None None Ex.s_r1 = Ok found ∧
    (∃ c, c ∈ found ∧ sum_id c = "r1" ∧ sum_ride c = Ex.ride1) ∧
    ∀ views v,
      searchRides 0 Ex.parse Ex2.contains (Ex.at_hour 30) None None None Ex.s_r1 = Ok views →
      v ∈ views → view_id v ≠ "r1".
Proof.
  destruct (controller_search_ignores_the_clock 0 Ex.parse Ex2.contains (Ex.at_hour 30)
              None None Ex.s_r1) as (found & Hrun & _ & _ & _ & Hpast & _).
  exists found. split; [exact Hrun|].
  apply (Hpast "r1" Ex.ride1); [reflexivity | reflexivity | reflexivity | reflexivity
                               | by vm_compute].
Defined.
